(** * CovenantSQL: block-producer meta state and raft configuration

    A shallow embedding of [blockproducer/metastate.go] and
    [raft/configuration.go], followed by the properties of the two files.

    Conventions of the embedding.
    - Go's [uint64] and [uint32] values are integers in [Z]; every unchecked
      Go operation ([+=], [-=], [*], [++]) is written with its wrap-around
      ([u64], [u32]).
    - A Go map is a [gmap].  The values of the dirty maps are pointers that
      may be [nil] (a deletion marker), hence [option] values; the readonly
      maps only ever receive non-nil pointers (the single writer is
      [commit], under its [v != nil] guard).
    - A Go function that returns [err] and may have mutated the state on the
      way returns [Return s err]; a run-time panic (nil dereference, index
      out of range) is [Panicked]. *)

From Stdlib Require Import ZArith Lia.
From stdpp Require Import base option list gmap fin_maps strings pretty.

Open Scope Z_scope.

(** ** Part I: blockproducer/metastate.go *)

Module MetaState.

(** proto.AccountAddress is a fixed-width hash, read here as the number its
    bytes spell; proto.DatabaseID is a Go string; a public key is opaque. *)
Abbreviation AccountAddress := N (only parsing).
Abbreviation DatabaseID := string (only parsing).
Abbreviation PublicKey := N (only parsing).
Abbreviation NodeID := string (only parsing).

Definition U64_MAX : Z := 2 ^ 64 - 1.
Definition u64 (z : Z) : Z := z mod 2 ^ 64.

(** Modelled from the spec: pi.AccountNonce, declared outside this file; the
    spec has the nonce converted as a 32-bit unsigned integer, the width the
    conversion [uint32(tx.Nonce)] of the source keeps. *)
Definition u32 (z : Z) : Z := z mod 2 ^ 32.

(** Modelled from the spec: the error kinds surfaced at the boundary (the
    [Err...] variables are declared outside this file).  [ErrExternal] stands
    for the wrapped error of a collaborator (key hashing, key store, msgpack),
    which is never one of the kinds of this package. *)
Inductive Error :=
| ErrAccountNotFound | ErrAccountExists | ErrDatabaseNotFound | ErrDatabaseExists
| ErrDatabaseUserExists | ErrInvalidSender | ErrInvalidAccountNonce
| ErrInvalidPermission | ErrInvalidGasPrice | ErrInsufficientAdvancePayment
| ErrNoSuchMiner | ErrMinerUserNotMatch | ErrGasPriceMismatch
| ErrAccountPermissionDeny | ErrWrongTokenType | ErrUnknownTransactionType
| ErrBalanceOverflow | ErrInsufficientBalance | ErrExternal.

#[global] Instance Error_eq_dec : EqDecision Error.
Proof. solve_decision. Defined.

(** Modelled from the spec: safe_add fails with Overflow when the sum exceeds
    the 64-bit maximum, safe_sub fails with Underflow when [src > dst]; on
    failure the destination is unchanged ([inl] carries the error, [inr] the
    new value of the destination). *)
Definition safeAdd (x y : Z) : Error + Z :=
  if U64_MAX <? x + y then inl ErrBalanceOverflow else inr (x + y).

Definition safeSub (x y : Z) : Error + Z :=
  if x <? y then inl ErrInsufficientBalance else inr (x - y).

(** *** Entities (package types, as this file uses them) *)

Inductive TokenType := Particle | Wave.

#[global] Instance TokenType_eq_dec : EqDecision TokenType.
Proof. solve_decision. Defined.

(** [TokenBalance] is an array indexed by the token type, one slot each. *)
Record TokenBalances := mkBalances { balParticle : Z; balWave : Z }.

Definition getBalance (b : TokenBalances) (t : TokenType) : Z :=
  match t with Particle => balParticle b | Wave => balWave b end.

Definition setBalance (b : TokenBalances) (t : TokenType) (v : Z) : TokenBalances :=
  match t with
  | Particle => mkBalances v (balWave b)
  | Wave => mkBalances (balParticle b) v
  end.

Record Account := mkAccount {
  Account_Address : AccountAddress;
  Account_NextNonce : Z;
  Account_TokenBalance : TokenBalances
}.

(** [&types.Account{Address: k}]: every other field has its zero value. *)
Definition emptyAccount (k : AccountAddress) : Account :=
  mkAccount k 0 (mkBalances 0 0).

Definition withBalance (a : Account) (t : TokenType) (v : Z) : Account :=
  mkAccount (Account_Address a) (Account_NextNonce a)
            (setBalance (Account_TokenBalance a) t v).

Definition withNonce (a : Account) (n : Z) : Account :=
  mkAccount (Account_Address a) n (Account_TokenBalance a).

Inductive Status := Normal | Arrears.

(** types.UserPermission is an integer enumeration. *)
Definition Admin : Z := 0.
Definition Write : Z := 1.
Definition Read : Z := 2.
Definition NumberOfUserPermission : Z := 3.

Record SQLChainUser := mkUser {
  User_Address : AccountAddress;
  User_Permission : Z;
  User_Status : Status;
  User_Deposit : Z;
  User_AdvancePayment : Z
}.

Record UserArrears := mkArrears { Arrears_User : AccountAddress; Arrears_Arrears : Z }.

Record MinerInfo := mkMiner {
  Miner_Address : AccountAddress;
  Miner_NodeID : NodeID;
  Miner_Deposit : Z;
  Miner_EncryptionKey : string;
  Miner_PendingIncome : Z;
  Miner_ReceivedIncome : Z;
  Miner_UserArrears : list UserArrears
}.

Record SQLChainProfile := mkProfile {
  Profile_ID : DatabaseID;
  Profile_Address : AccountAddress;
  Profile_Period : Z;
  Profile_GasPrice : Z;
  Profile_TokenType : TokenType;
  Profile_Owner : AccountAddress;
  Profile_Users : list SQLChainUser;
  Profile_Miners : list MinerInfo;
  Profile_EncodedGenesis : list Byte.byte
}.

(** [LoadAvgPerCPU] is a float that this file only copies: kept as its bits. *)
Record ProviderProfile := mkProvider {
  Provider_Provider : AccountAddress;
  Provider_Space : Z;
  Provider_Memory : Z;
  Provider_LoadAvgPerCPU : Z;
  Provider_TargetUser : AccountAddress;
  Provider_Deposit : Z;
  Provider_GasPrice : Z;
  Provider_NodeID : NodeID
}.

(** *** metaIndex and metaState *)

Record metaIndex := mkIndex {
  accounts : gmap AccountAddress (option Account);
  databases : gmap DatabaseID (option SQLChainProfile);
  provider : gmap AccountAddress (option ProviderProfile)
}.

Record committedIndex := mkCommitted {
  ro_accounts : gmap AccountAddress Account;
  ro_databases : gmap DatabaseID SQLChainProfile;
  ro_provider : gmap AccountAddress ProviderProfile
}.

Record metaState := mkState { dirty : metaIndex; readonly : committedIndex }.

Definition newMetaIndex : metaIndex := mkIndex ∅ ∅ ∅.

Definition newMetaState : metaState := mkState newMetaIndex (mkCommitted ∅ ∅ ∅).

Definition setDirtyAccount (s : metaState) (k : AccountAddress) (v : option Account) : metaState :=
  mkState (mkIndex (<[k:=v]> (accounts (dirty s))) (databases (dirty s)) (provider (dirty s)))
          (readonly s).

Definition setDirtyDatabase (s : metaState) (k : DatabaseID) (v : option SQLChainProfile) : metaState :=
  mkState (mkIndex (accounts (dirty s)) (<[k:=v]> (databases (dirty s))) (provider (dirty s)))
          (readonly s).

Definition setDirtyProvider (s : metaState) (k : AccountAddress) (v : option ProviderProfile) : metaState :=
  mkState (mkIndex (accounts (dirty s)) (databases (dirty s)) (<[k:=v]> (provider (dirty s))))
          (readonly s).

(** Writing through a pointer that [loadOrStoreAccountObject] took from the
    readonly map changes the readonly object itself. *)
Definition setReadonlyAccount (s : metaState) (k : AccountAddress) (v : Account) : metaState :=
  mkState (dirty s)
          (mkCommitted (<[k:=v]> (ro_accounts (readonly s))) (ro_databases (readonly s))
                       (ro_provider (readonly s))).

(** [loaded] is [true] exactly when the result is [Some _]. *)
Definition loadAccountObject (s : metaState) (k : AccountAddress) : option Account :=
  match accounts (dirty s) !! k with
  | Some o => o
  | None => ro_accounts (readonly s) !! k
  end.

(** The layer an account pointer points into. *)
Inductive Layer := InDirty | InReadonly.

Definition loadOrStoreAccountObject (s : metaState) (k : AccountAddress) (v : Account)
  : metaState * option (Layer * Account) :=
  match accounts (dirty s) !! k with
  | Some (Some o) => (s, Some (InDirty, o))
  | _ =>
    match ro_accounts (readonly s) !! k with
    | Some o => (s, Some (InReadonly, o))
    | None => (setDirtyAccount s k (Some v), None)
    end
  end.

(** The loaders of databases hand out deep copies: values, here. *)
Definition loadSQLChainObject (s : metaState) (k : DatabaseID) : option SQLChainProfile :=
  match databases (dirty s) !! k with
  | Some o => o
  | None => ro_databases (readonly s) !! k
  end.

Definition loadOrStoreSQLChainObject (s : metaState) (k : DatabaseID) (v : SQLChainProfile)
  : metaState * option SQLChainProfile :=
  match databases (dirty s) !! k with
  | Some (Some o) => (s, Some o)
  | _ =>
    match ro_databases (readonly s) !! k with
    | Some o => (s, Some o)
    | None => (setDirtyDatabase s k (Some v), None)
    end
  end.

Definition loadProviderObject (s : metaState) (k : AccountAddress) : option ProviderProfile :=
  match provider (dirty s) !! k with
  | Some o => o
  | None => ro_provider (readonly s) !! k
  end.

Definition loadOrStoreProviderObject (s : metaState) (k : AccountAddress) (v : ProviderProfile)
  : metaState * option ProviderProfile :=
  match provider (dirty s) !! k with
  | Some (Some o) => (s, Some o)
  | _ =>
    match ro_provider (readonly s) !! k with
    | Some o => (s, Some o)
    | None => (setDirtyProvider s k (Some v), None)
    end
  end.

Definition deleteAccountObject (s : metaState) (k : AccountAddress) : metaState :=
  setDirtyAccount s k None.

Definition deleteSQLChainObject (s : metaState) (k : DatabaseID) : metaState :=
  setDirtyDatabase s k None.

Definition deleteProviderObject (s : metaState) (k : AccountAddress) : metaState :=
  setDirtyProvider s k None.

(** *** commit *)

(** One iteration of a loop of [commit]: a non-nil value replaces the
    readonly entry, the nil marker deletes it. *)
Definition commitEntry {K V} `{Countable K} (ro : gmap K V) (kv : K * option V) : gmap K V :=
  match kv.2 with
  | Some o => <[kv.1:=o]> ro
  | None => delete kv.1 ro
  end.

(** The loop over an enumeration of the dirty map.  Go leaves the order of
    [range] over a map unspecified: [commitEntries] takes the enumeration. *)
Definition commitEntries {K V} `{Countable K} (l : list (K * option V)) (ro : gmap K V) : gmap K V :=
  foldl commitEntry ro l.

Definition commitMap {K V} `{Countable K} (d : gmap K (option V)) (ro : gmap K V) : gmap K V :=
  commitEntries (map_to_list d) ro.

Definition commit (s : metaState) : metaState :=
  mkState newMetaIndex
          (mkCommitted (commitMap (accounts (dirty s)) (ro_accounts (readonly s)))
                       (commitMap (databases (dirty s)) (ro_databases (readonly s)))
                       (commitMap (provider (dirty s)) (ro_provider (readonly s)))).

Definition clean (s : metaState) : metaState := mkState newMetaIndex (readonly s).

(** The view a lookup sees: readonly overlaid by dirty, a nil marker hiding
    the readonly entry. *)
Definition overlay {K V} `{Countable K} (d : gmap K (option V)) (ro : gmap K V) : gmap K V :=
  merge (λ od oro, match od with Some o => o | None => oro end) d ro.

(** *** Collaborators

    What the file consumes from other packages: key hashing, identifier
    derivation, the key store, the clock, block signing, msgpack and the
    global configuration.  [None] is a returned error.  [arrearsIncome adv
    bill income] is the float expression of [updateBilling],
    [uint64(float64(income) * (1 - float64(adv)/float64(bill)))]. *)

Record Block := mkBlock {
  Block_Version : Z;
  Block_Producer : NodeID;
  Block_GenesisHash : N;
  Block_ParentHash : N;
  Block_Timestamp : Z;
  Block_Signature : list Byte.byte
}.

Record Env := mkEnv {
  PubKeyHash : option PublicKey → option AccountAddress;
  AddressDatabaseID : AccountAddress → DatabaseID;
  FromAccountAndNonce : AccountAddress → Z → DatabaseID;
  DatabaseIDAccountAddress : DatabaseID → option AccountAddress;
  GetLocalPrivateKey : option N;
  GetLocalNodeID : option NodeID;
  timeNow : Z;
  PackAndSignBlock : Block → N → option Block;
  EncodeMsgPack : Block → option (list Byte.byte);
  QPS : Z;
  UpdatePeriod : Z;
  MinProviderDeposit : Z;
  arrearsIncome : Z → Z → Z → Z
}.

Definition sqlchainPeriod : Z := 60 * 24 * 30.

Definition minDeposit (env : Env) (gasPrice minerNumber : Z) : Z :=
  u64 (u64 (u64 (gasPrice * u64 (QPS env)) * u64 (UpdatePeriod env)) * minerNumber).

Inductive Outcome :=
| Return (s : metaState) (err : option Error)
| Panicked.

(** *** Balances and nonces *)

(** The prologue shared by [increaseAccountToken], [decreaseAccountToken] and
    [increaseNonce]: take the dirty pointer (possibly nil), or else copy the
    readonly object into dirty; [None] when the key is in neither map. *)
Definition accountForWrite (s : metaState) (k : AccountAddress)
  : option (metaState * option Account) :=
  match accounts (dirty s) !! k with
  | Some dst => Some (s, dst)
  | None =>
    match ro_accounts (readonly s) !! k with
    | None => None
    | Some src => Some (setDirtyAccount s k (Some src), Some src)
    end
  end.

Definition increaseAccountToken (s : metaState) (k : AccountAddress) (amount : Z)
    (tokenType : TokenType) : Outcome :=
  match accountForWrite s k with
  | None => Return s (Some ErrAccountNotFound)
  | Some (_, None) => Panicked
  | Some (s1, Some dst) =>
    match safeAdd (getBalance (Account_TokenBalance dst) tokenType) amount with
    | inl e => Return s1 (Some e)
    | inr v => Return (setDirtyAccount s1 k (Some (withBalance dst tokenType v))) None
    end
  end.

Definition decreaseAccountToken (s : metaState) (k : AccountAddress) (amount : Z)
    (tokenType : TokenType) : Outcome :=
  match accountForWrite s k with
  | None => Return s (Some ErrAccountNotFound)
  | Some (_, None) => Panicked
  | Some (s1, Some dst) =>
    match safeSub (getBalance (Account_TokenBalance dst) tokenType) amount with
    | inl e => Return s1 (Some e)
    | inr v => Return (setDirtyAccount s1 k (Some (withBalance dst tokenType v))) None
    end
  end.

Definition increaseAccountStableBalance s k amount := increaseAccountToken s k amount Particle.
Definition decreaseAccountStableBalance s k amount := decreaseAccountToken s k amount Particle.
Definition increaseAccountCovenantBalance s k amount := increaseAccountToken s k amount Wave.
Definition decreaseAccountCovenantBalance s k amount := decreaseAccountToken s k amount Wave.

Definition storeBaseAccount (s : metaState) (k : AccountAddress) (v : Account) : Outcome :=
  match loadOrStoreAccountObject s k v with
  | (s1, None) => Return s1 None
  | (s1, Some (layer, ao)) =>
    if decide (Account_NextNonce ao ≠ 0) then Return s1 (Some ErrAccountExists)
    else
      match safeAdd (getBalance (Account_TokenBalance ao) Wave)
                    (getBalance (Account_TokenBalance v) Wave) with
      | inl e => Return s1 (Some e)
      | inr cb =>
        match safeAdd (getBalance (Account_TokenBalance ao) Particle)
                      (getBalance (Account_TokenBalance v) Particle) with
        | inl e => Return s1 (Some e)
        | inr sb =>
          let ao' := withBalance (withBalance ao Wave cb) Particle sb in
          Return match layer with
                 | InDirty => setDirtyAccount s1 k (Some ao')
                 | InReadonly => setReadonlyAccount s1 k ao'
                 end None
        end
      end
  end.

(** [nonce, err]: [inr] the nonce, [inl] the error; [None] is the nil
    dereference of a deletion marker. *)
Definition nextNonce (s : metaState) (addr : AccountAddress) : option (Error + Z) :=
  match accounts (dirty s) !! addr with
  | Some (Some o) => Some (inr (Account_NextNonce o))
  | Some None => None
  | None =>
    match ro_accounts (readonly s) !! addr with
    | Some o => Some (inr (Account_NextNonce o))
    | None => Some (inl ErrAccountNotFound)
    end
  end.

Definition increaseNonce (s : metaState) (addr : AccountAddress) : Outcome :=
  match accountForWrite s addr with
  | None => Return s (Some ErrAccountNotFound)
  | Some (_, None) => Panicked
  | Some (s1, Some dst) =>
    Return (setDirtyAccount s1 addr (Some (withNonce dst (u32 (Account_NextNonce dst + 1))))) None
  end.

(** *** Transactions *)

Record Transfer := mkTransfer {
  Transfer_Sender : AccountAddress;
  Transfer_Receiver : AccountAddress;
  Transfer_Amount : Z;
  Transfer_TokenType : TokenType;
  Transfer_Signee : option PublicKey
}.

(** [Receivers] is a slice of pointers to addresses. *)
Record Billing := mkBilling {
  Billing_Receivers : list (option AccountAddress);
  Billing_Fees : list Z;
  Billing_Rewards : list Z
}.

Record ProvideService := mkProvideService {
  ProvideService_Signee : option PublicKey;
  ProvideService_Space : Z;
  ProvideService_Memory : Z;
  ProvideService_LoadAvgPerCPU : Z;
  ProvideService_TargetUser : AccountAddress;
  ProvideService_GasPrice : Z;
  ProvideService_NodeID : NodeID
}.

(** Of [ResourceMeta] this file reads [TargetMiners] only. *)
Record ResourceMeta := mkResourceMeta { TargetMiners : list AccountAddress }.

Record CreateDatabase := mkCreateDatabase {
  CreateDatabase_Owner : AccountAddress;
  CreateDatabase_Signee : option PublicKey;
  CreateDatabase_Nonce : Z;
  CreateDatabase_ResourceMeta : ResourceMeta;
  CreateDatabase_GasPrice : Z;
  CreateDatabase_AdvancePayment : Z;
  CreateDatabase_TokenType : TokenType
}.

Record UpdatePermission := mkUpdatePermission {
  UpdatePermission_Signee : option PublicKey;
  UpdatePermission_TargetSQLChain : AccountAddress;
  UpdatePermission_TargetUser : AccountAddress;
  UpdatePermission_Permission : Z
}.

Record MinerKey := mkMinerKey { MinerKey_Miner : AccountAddress; MinerKey_EncryptionKey : string }.

Record IssueKeys := mkIssueKeys {
  IssueKeys_TargetSQLChain : AccountAddress;
  IssueKeys_MinerKeys : list MinerKey
}.

Record MinerIncome := mkMinerIncome { MinerIncome_Miner : AccountAddress; MinerIncome_Income : Z }.

Record UserCost := mkUserCost {
  UserCost_User : AccountAddress;
  UserCost_Cost : Z;
  UserCost_Miners : list MinerIncome
}.

Record UpdateBilling := mkUpdateBilling {
  UpdateBilling_Receiver : AccountAddress;
  UpdateBilling_Users : list UserCost
}.

Inductive TransactionType :=
| TransactionTypeBilling | TransactionTypeTransfer | TransactionTypeBaseAccount
| TransactionTypeProvideService | TransactionTypeCreateDatabase
| TransactionTypeUpdatePermission | TransactionTypeIssueKeys
| TransactionTypeUpdateBilling | TransactionTypeWrapper | TransactionTypeOther.

#[global] Instance TransactionType_eq_dec : EqDecision TransactionType.
Proof. solve_decision. Defined.

(** What the methods of the pi.Transaction interface answer for a value:
    [GetAccountAddress], [GetAccountNonce] and [GetTransactionType]. *)
Record TxHeader := mkHeader {
  GetAccountAddress : AccountAddress;
  GetAccountNonce : Z;
  GetTransactionType : TransactionType
}.

(** A pi.Transaction: the answers of its methods and its dynamic type.  A
    BaseAccount embeds the account it declares, so that [t.Address] is the
    address of [t.Account]. *)
Inductive Transaction :=
| TxTransfer (h : TxHeader) (t : Transfer)
| TxBilling (h : TxHeader) (t : Billing)
| TxBaseAccount (h : TxHeader) (t : Account)
| TxProvideService (h : TxHeader) (t : ProvideService)
| TxCreateDatabase (h : TxHeader) (t : CreateDatabase)
| TxUpdatePermission (h : TxHeader) (t : UpdatePermission)
| TxIssueKeys (h : TxHeader) (t : IssueKeys)
| TxUpdateBilling (h : TxHeader) (t : UpdateBilling)
| TxWrapper (h : TxHeader) (inner : Transaction)
| TxOther (h : TxHeader).

Definition header (t : Transaction) : TxHeader :=
  match t with
  | TxTransfer h _ | TxBilling h _ | TxBaseAccount h _ | TxProvideService h _
  | TxCreateDatabase h _ | TxUpdatePermission h _ | TxIssueKeys h _
  | TxUpdateBilling h _ | TxWrapper h _ | TxOther h => h
  end.

(** *** Transfers *)

(** The lookup that the transfers write inline for each endpoint: the dirty
    pointer (possibly nil) with [true], or else the readonly pointer with
    [false]; [None] when the key is in neither map. *)
Definition dirtyOrReadonly (s : metaState) (k : AccountAddress) : option (option Account * bool) :=
  match accounts (dirty s) !! k with
  | Some o => Some (o, true)
  | None =>
    match ro_accounts (readonly s) !! k with
    | Some o => Some (Some o, false)
    | None => None
    end
  end.

(** The named result [err] is assigned on a mismatch of the sender and the
    function goes on: [err] is returned by the early [return], overwritten
    by [safeSub] and [safeAdd] otherwise.  (The assignment under
    [transfer.Signee == nil] is overwritten by the call of [PubKeyHash].) *)
Definition transferAccountToken (env : Env) (s : metaState) (transfer : Transfer) : Outcome :=
  match PubKeyHash env (Transfer_Signee transfer) with
  | None => Return s (Some ErrExternal)
  | Some realSender =>
    let err := if decide (realSender ≠ Transfer_Sender transfer)
               then Some ErrInvalidSender else None in
    let sender := Transfer_Sender transfer in
    let receiver := Transfer_Receiver transfer in
    let amount := Transfer_Amount transfer in
    let tokenType := Transfer_TokenType transfer in
    if decide (sender = receiver ∨ amount = 0) then Return s err
    else
      let s1 := (loadOrStoreAccountObject s receiver (emptyAccount receiver)).1 in
      match dirtyOrReadonly s1 sender with
      | None => Return s1 (Some ErrAccountNotFound)
      | Some (so, sd) =>
        match dirtyOrReadonly s1 receiver with
        | None => Return s1 (Some ErrAccountNotFound)
        | Some (ro, rd) =>
          match so, ro with
          | Some so, Some ro =>
            match safeSub (getBalance (Account_TokenBalance so) tokenType) amount with
            | inl e => Return s1 (Some e)
            | inr sb =>
              match safeAdd (getBalance (Account_TokenBalance ro) tokenType) amount with
              | inl e => Return s1 (Some e)
              | inr rb =>
                let s2 := if sd then s1 else setDirtyAccount s1 sender (Some so) in
                let s3 := if rd then s2 else setDirtyAccount s2 receiver (Some ro) in
                let s4 := setDirtyAccount s3 sender (Some (withBalance so tokenType sb)) in
                Return (setDirtyAccount s4 receiver (Some (withBalance ro tokenType rb))) None
              end
            end
          | _, _ => Panicked
          end
        end
      end
  end.

(** The index and the value of the first user of the list at [addr]. *)
Fixpoint findUser (addr : AccountAddress) (users : list SQLChainUser) (i : nat)
  : option (nat * SQLChainUser) :=
  match users with
  | [] => None
  | u :: rest => if decide (User_Address u = addr) then Some (i, u)
                 else findUser addr rest (S i)
  end.

Definition withUsers (p : SQLChainProfile) (users : list SQLChainUser) : SQLChainProfile :=
  mkProfile (Profile_ID p) (Profile_Address p) (Profile_Period p) (Profile_GasPrice p)
            (Profile_TokenType p) (Profile_Owner p) users (Profile_Miners p)
            (Profile_EncodedGenesis p).

Definition withMiners (p : SQLChainProfile) (miners : list MinerInfo) : SQLChainProfile :=
  mkProfile (Profile_ID p) (Profile_Address p) (Profile_Period p) (Profile_GasPrice p)
            (Profile_TokenType p) (Profile_Owner p) (Profile_Users p) miners
            (Profile_EncodedGenesis p).

Definition withDeposit (u : SQLChainUser) (v : Z) : SQLChainUser :=
  mkUser (User_Address u) (User_Permission u) (User_Status u) v (User_AdvancePayment u).

Definition withAdvancePayment (u : SQLChainUser) (v : Z) : SQLChainUser :=
  mkUser (User_Address u) (User_Permission u) (User_Status u) (User_Deposit u) v.

(** The deposit of the user after the top-up branch of the sqlchain
    transfer ([user.Deposit < minDep]). *)
Definition topUpDeposit (minDep deposit amount : Z) : Z :=
  let diff := u64 (minDep - deposit) in
  if amount <=? diff then u64 (deposit + amount)
  else u64 (minDep + u64 (amount - diff)).

(** The profile that the function hands to [loadOrStoreSQLChainObject], with
    the error it is about to return. *)
Definition sqlchainTransferUpdate (env : Env) (sqlchain : SQLChainProfile) (transfer : Transfer)
    (i : nat) (user : SQLChainUser) (err : option Error) : Error + (SQLChainProfile * option Error) :=
  let minDep := minDeposit env (Profile_GasPrice sqlchain)
                           (Z.of_nat (length (Profile_Miners sqlchain))) in
  if User_Deposit user <? minDep then
    let user' := withDeposit user (topUpDeposit minDep (User_Deposit user)
                                                (Transfer_Amount transfer)) in
    inr (withUsers sqlchain (<[i:=user']> (Profile_Users sqlchain)), err)
  else
    match safeAdd (User_AdvancePayment user) (Transfer_Amount transfer) with
    | inl e => inl e
    | inr v => inr (withUsers sqlchain
                      (<[i:=withAdvancePayment user v]> (Profile_Users sqlchain)), None)
    end.

Definition transferSQLChainTokenBalance (env : Env) (s : metaState) (transfer : Transfer) : Outcome :=
  match PubKeyHash env (Transfer_Signee transfer) with
  | None => Return s (Some ErrExternal)
  | Some realSender =>
    let err := if decide (realSender ≠ Transfer_Sender transfer)
               then Some ErrInvalidSender else None in
    let dbID := AddressDatabaseID env (Transfer_Sender transfer) in
    match loadSQLChainObject s dbID with
    | None => Return s (Some ErrDatabaseNotFound)
    | Some sqlchain =>
      match findUser (Transfer_Sender transfer) (Profile_Users sqlchain) 0 with
      | None => Return s err
      | Some (i, user) =>
        if decide (Profile_TokenType sqlchain ≠ Transfer_TokenType transfer)
        then Return s (Some ErrWrongTokenType)
        else
          match sqlchainTransferUpdate env sqlchain transfer i user err with
          | inl e => Return s (Some e)
          | inr (sqlchain', err') =>
            Return (loadOrStoreSQLChainObject s dbID sqlchain').1 err'
          end
      end
    end
  end.

(** *** Legacy billing and provider registration *)

(** The loop of [applyBilling] from index [i] on; [tx.Fees[i]] and
    [tx.Rewards[i]] panic when the index is out of range, [*v] when the
    pointer is nil. *)
Fixpoint applyBillingFrom (s : metaState) (receivers : list (option AccountAddress))
    (fees rewards : list Z) (i : nat) : Outcome :=
  match receivers with
  | [] => Return s None
  | None :: _ => Panicked
  | Some v :: rest =>
    let s1 := (loadOrStoreAccountObject s v (emptyAccount v)).1 in
    match fees !! i with
    | None => Panicked
    | Some fee =>
      match increaseAccountCovenantBalance s1 v fee with
      | Return s2 None =>
        match rewards !! i with
        | None => Panicked
        | Some reward =>
          match increaseAccountStableBalance s2 v reward with
          | Return s3 None => applyBillingFrom s3 rest fees rewards (S i)
          | o => o
          end
        end
      | o => o
      end
    end
  end.

Definition applyBilling (s : metaState) (tx : Billing) : Outcome :=
  applyBillingFrom s (Billing_Receivers tx) (Billing_Fees tx) (Billing_Rewards tx) 0.

Definition updateProviderList (env : Env) (s : metaState) (tx : ProvideService) : Outcome :=
  match PubKeyHash env (ProvideService_Signee tx) with
  | None => Return s (Some ErrExternal)
  | Some sender =>
    let minDeposit := MinProviderDeposit env in
    match decreaseAccountStableBalance s sender minDeposit with
    | Return s1 None =>
      let pp := mkProvider sender (ProvideService_Space tx) (ProvideService_Memory tx)
                           (ProvideService_LoadAvgPerCPU tx) (ProvideService_TargetUser tx)
                           minDeposit (ProvideService_GasPrice tx) (ProvideService_NodeID tx) in
      Return (loadOrStoreProviderObject s1 sender pp).1 None
    | o => o
    end
  end.

(** *** Database creation *)

(** One round of the loop over [TargetMiners]. *)
Definition resolveMiner (s : metaState) (sender : AccountAddress) (gasPrice : Z)
    (miner : AccountAddress) : Error + MinerInfo :=
  match loadProviderObject s miner with
  | None => inl ErrNoSuchMiner
  | Some po =>
    if decide (Provider_TargetUser po ≠ sender) then inl ErrMinerUserNotMatch
    else if gasPrice <? Provider_GasPrice po then inl ErrGasPriceMismatch
    else inr (mkMiner (Provider_Provider po) (Provider_NodeID po) (Provider_Deposit po)
                      EmptyString 0 0 [])
  end.

(** The loop: it stops at the first miner that fails. *)
Fixpoint resolveMiners (s : metaState) (sender : AccountAddress) (gasPrice : Z)
    (targets : list AccountAddress) : Error + list MinerInfo :=
  match targets with
  | [] => inr []
  | a :: rest =>
    match resolveMiner s sender gasPrice a with
    | inl e => inl e
    | inr m =>
      match resolveMiners s sender gasPrice rest with
      | inl e => inl e
      | inr ms => inr (m :: ms)
      end
    end
  end.

Definition generateGenesisBlock (env : Env) (dbID : DatabaseID) (resourceMeta : ResourceMeta)
  : option Block :=
  match GetLocalPrivateKey env with
  | None => None
  | Some privKey =>
    match GetLocalNodeID env with
    | None => None
    | Some nodeID =>
      PackAndSignBlock env (mkBlock 0x01000000 nodeID 0%N 0%N (timeNow env) []) privKey
    end
  end.

Definition matchProvidersWithUser (env : Env) (s : metaState) (tx : CreateDatabase) : Outcome :=
  match PubKeyHash env (CreateDatabase_Signee tx) with
  | None => Return s (Some ErrExternal)
  | Some sender =>
    if decide (sender ≠ CreateDatabase_Owner tx) then Return s (Some ErrInvalidSender)
    else if CreateDatabase_GasPrice tx <=? 0 then Return s (Some ErrInvalidGasPrice)
    else
      let targets := TargetMiners (CreateDatabase_ResourceMeta tx) in
      let minAdvancePayment :=
        minDeposit env (CreateDatabase_GasPrice tx) (Z.of_nat (length targets)) in
      if CreateDatabase_AdvancePayment tx <? minAdvancePayment
      then Return s (Some ErrInsufficientAdvancePayment)
      else
        match resolveMiners s sender (CreateDatabase_GasPrice tx) targets with
        | inl e => Return s (Some e)
        | inr miners =>
          let dbID := FromAccountAndNonce env (CreateDatabase_Owner tx)
                                          (u32 (CreateDatabase_Nonce tx)) in
          match DatabaseIDAccountAddress env dbID with
          | None => Return s (Some ErrExternal)
          | Some dbAddr =>
            match safeAdd minAdvancePayment (CreateDatabase_AdvancePayment tx) with
            | inl e => Return s (Some e)
            | inr all =>
              match decreaseAccountToken s sender all (CreateDatabase_TokenType tx) with
              | Return s1 None =>
                let users := [mkUser sender Admin Normal minAdvancePayment
                                     (CreateDatabase_AdvancePayment tx)] in
                match generateGenesisBlock env dbID (CreateDatabase_ResourceMeta tx) with
                | None => Return s1 (Some ErrExternal)
                | Some gb =>
                  match EncodeMsgPack env gb with
                  | None => Return s1 (Some ErrExternal)
                  | Some enc =>
                    let sp := mkProfile dbID dbAddr sqlchainPeriod (CreateDatabase_GasPrice tx)
                                        Particle sender users miners enc in
                    match loadSQLChainObject s1 dbID with
                    | Some _ => Return s1 (Some ErrDatabaseExists)
                    | None =>
                      let s2 := (loadOrStoreAccountObject s1 dbAddr (emptyAccount dbAddr)).1 in
                      let s3 := (loadOrStoreSQLChainObject s2 dbID sp).1 in
                      Return (foldl deleteProviderObject s3 targets) None
                    end
                  end
                end
              | o => o
              end
            end
          end
        end
  end.

(** *** Permissions and keys *)

(** The scan of [updatePermission]: whether the sender is an admin, and the
    index of the last user at [target] (Go's [-1] is [None]). *)
Fixpoint scanUsers (sender target : AccountAddress) (users : list SQLChainUser) (i : nat)
    (isAdmin : bool) (targetUserIndex : option nat) : bool * option nat :=
  match users with
  | [] => (isAdmin, targetUserIndex)
  | u :: rest =>
    scanUsers sender target rest (S i)
      (isAdmin || (bool_decide (sender = User_Address u)
                   && bool_decide (User_Permission u = Admin)))
      (if decide (target = User_Address u) then Some i else targetUserIndex)
  end.

Definition withPermission (u : SQLChainUser) (perm : Z) : SQLChainUser :=
  mkUser (User_Address u) perm (User_Status u) (User_Deposit u) (User_AdvancePayment u).

Definition updatePermission (env : Env) (s : metaState) (tx : UpdatePermission) : Outcome :=
  match PubKeyHash env (UpdatePermission_Signee tx) with
  | None => Return s (Some ErrExternal)
  | Some sender =>
    if decide (sender = UpdatePermission_TargetUser tx) then Return s (Some ErrInvalidSender)
    else
      let dbID := AddressDatabaseID env (UpdatePermission_TargetSQLChain tx) in
      match loadSQLChainObject s dbID with
      | None => Return s (Some ErrDatabaseNotFound)
      | Some so =>
        if NumberOfUserPermission <=? UpdatePermission_Permission tx
        then Return s (Some ErrInvalidPermission)
        else
          match scanUsers sender (UpdatePermission_TargetUser tx) (Profile_Users so) 0 false None with
          | (false, _) => Return s (Some ErrAccountPermissionDeny)
          | (true, None) =>
            let u := mkUser (UpdatePermission_TargetUser tx) (UpdatePermission_Permission tx)
                            Normal 0 0 in
            Return (setDirtyDatabase s dbID (Some (withUsers so (Profile_Users so ++ [u])))) None
          | (true, Some i) =>
            Return (setDirtyDatabase s dbID
                      (Some (withUsers so (alter (λ u, withPermission u (UpdatePermission_Permission tx))
                                                 i (Profile_Users so))))) None
          end
      end
  end.

(** [updateKeys] writes the keys into the copy it loaded and drops the copy:
    the state is as it was. *)
Definition updateKeys (env : Env) (s : metaState) (sender : AccountAddress) (tx : IssueKeys)
  : Outcome :=
  match loadSQLChainObject s (AddressDatabaseID env (IssueKeys_TargetSQLChain tx)) with
  | None => Return s (Some ErrDatabaseNotFound)
  | Some so =>
    if existsb (λ user, bool_decide (sender = User_Address user)
                        && bool_decide (User_Permission user = Admin)) (Profile_Users so)
    then Return s None
    else Return s (Some ErrAccountPermissionDeny)
  end.

(** *** Billing of a chain *)

Definition withIncome (m : MinerInfo) (pending received : Z) : MinerInfo :=
  mkMiner (Miner_Address m) (Miner_NodeID m) (Miner_Deposit m) (Miner_EncryptionKey m)
          pending received (Miner_UserArrears m).

(** The first loop of [updateBilling]: one pass decides [isMiner] and rolls
    the pending income of every miner into its received income. *)
Fixpoint settleMiners (minerAddr : AccountAddress) (miners : list MinerInfo) (isMiner : bool)
  : bool * list MinerInfo :=
  match miners with
  | [] => (isMiner, [])
  | miner :: rest =>
    let '(isMiner', rest') :=
      settleMiners minerAddr rest (isMiner || bool_decide (Miner_Address miner = minerAddr)) in
    (isMiner',
     withIncome miner 0 (u64 (Miner_ReceivedIncome miner + Miner_PendingIncome miner)) :: rest')
  end.

(** [costMap] and [userMap]; a missing key reads as zero. *)
Definition costOf (costMap : gmap AccountAddress Z) (user : AccountAddress) : Z :=
  default 0 (costMap !! user).

Definition incomeOf (userMap : gmap AccountAddress (gmap AccountAddress Z))
    (user miner : AccountAddress) : Z :=
  default 0 (default ∅ (userMap !! user) !! miner).

Definition addMinerIncome (m : gmap AccountAddress Z) (mi : MinerIncome) : gmap AccountAddress Z :=
  <[MinerIncome_Miner mi := u64 (default 0 (m !! MinerIncome_Miner mi) + MinerIncome_Income mi)]> m.

Definition collectCosts (users : list UserCost)
  : gmap AccountAddress Z * gmap AccountAddress (gmap AccountAddress Z) :=
  foldl (λ '(costMap, userMap) userCost,
           (<[UserCost_User userCost := UserCost_Cost userCost]> costMap,
            <[UserCost_User userCost :=
                foldl addMinerIncome (default ∅ (userMap !! UserCost_User userCost))
                      (UserCost_Miners userCost)]> userMap))
        (∅, ∅) users.

Definition withStatus (u : SQLChainUser) (st : Status) (adv : Z) : SQLChainUser :=
  mkUser (User_Address u) (User_Permission u) st (User_Deposit u) adv.

Definition withPending (m : MinerInfo) (pending : Z) : MinerInfo :=
  withIncome m pending (Miner_ReceivedIncome m).

Definition withArrears (m : MinerInfo) (pending delta : Z) : MinerInfo :=
  mkMiner (Miner_Address m) (Miner_NodeID m) (Miner_Deposit m) (Miner_EncryptionKey m)
          pending (Miner_ReceivedIncome m)
          ((λ a, mkArrears (Arrears_User a) (u64 (Arrears_Arrears a + delta)))
             <$> Miner_UserArrears m).

(** One round of the loop over the users of the profile: the user after the
    round and the miners after the round. *)
Definition billUser (env : Env) (gasPrice : Z) (costMap : gmap AccountAddress Z)
    (userMap : gmap AccountAddress (gmap AccountAddress Z))
    (user : SQLChainUser) (miners : list MinerInfo) : SQLChainUser * list MinerInfo :=
  let bill := u64 (costOf costMap (User_Address user) * gasPrice) in
  if bill <=? User_AdvancePayment user then
    (withStatus user (User_Status user) (u64 (User_AdvancePayment user - bill)),
     (λ miner, withPending miner
        (u64 (Miner_PendingIncome miner
              + u64 (incomeOf userMap (User_Address user) (Miner_Address miner) * gasPrice))))
       <$> miners)
  else
    (withStatus user Arrears 0,
     (λ miner,
        let income := u64 (incomeOf userMap (User_Address user) (Miner_Address miner) * gasPrice) in
        let minerIncome := arrearsIncome env (User_AdvancePayment user) bill income in
        withArrears miner (u64 (Miner_PendingIncome miner + minerIncome))
                    (u64 (income - minerIncome)))
       <$> miners).

Fixpoint billUsers (env : Env) (gasPrice : Z) (costMap : gmap AccountAddress Z)
    (userMap : gmap AccountAddress (gmap AccountAddress Z))
    (users : list SQLChainUser) (miners : list MinerInfo) : list SQLChainUser * list MinerInfo :=
  match users with
  | [] => ([], miners)
  | user :: rest =>
    let '(user', miners') := billUser env gasPrice costMap userMap user miners in
    let '(rest', miners'') := billUsers env gasPrice costMap userMap rest miners' in
    (user' :: rest', miners'')
  end.

Definition updateBilling (env : Env) (s : metaState) (sender : AccountAddress) (tx : UpdateBilling)
  : Outcome :=
  let dbID := AddressDatabaseID env (UpdateBilling_Receiver tx) in
  match loadSQLChainObject s dbID with
  | None => Return s (Some ErrDatabaseNotFound)
  | Some newProfile =>
    if Profile_GasPrice newProfile =? 0 then Return s None
    else
      match settleMiners sender (Profile_Miners newProfile) false with
      | (false, _) => Return s (Some ErrInvalidSender)
      | (true, settled) =>
        let '(costMap, userMap) := collectCosts (UpdateBilling_Users tx) in
        let '(users, miners) :=
          billUsers env (Profile_GasPrice newProfile) costMap userMap
                    (Profile_Users newProfile) settled in
        Return (setDirtyDatabase s dbID (Some (withMiners (withUsers newProfile users) miners)))
               None
      end
  end.

(** *** The applier *)

Fixpoint applyTransaction (env : Env) (s : metaState) (tx : Transaction) : Outcome :=
  match tx with
  | TxTransfer _ t =>
    match transferSQLChainTokenBalance env s t with
    | Return s1 (Some ErrDatabaseNotFound) => transferAccountToken env s1 t
    | o => o
    end
  | TxBilling _ t => applyBilling s t
  | TxBaseAccount _ t => storeBaseAccount s (Account_Address t) t
  | TxProvideService _ t => updateProviderList env s t
  | TxCreateDatabase _ t => matchProvidersWithUser env s t
  | TxUpdatePermission _ t => updatePermission env s t
  | TxIssueKeys h t => updateKeys env s (GetAccountAddress h) t
  | TxUpdateBilling h t => updateBilling env s (GetAccountAddress h) t
  | TxWrapper _ inner => applyTransaction env s inner
  | TxOther _ => Return s (Some ErrUnknownTransactionType)
  end.

Definition apply (env : Env) (s : metaState) (t : Transaction) : Outcome :=
  let addr := GetAccountAddress (header t) in
  let nonce := GetAccountNonce (header t) in
  match nextNonce s addr with
  | None => Panicked
  | Some r =>
    match match r with
          | inr n => inr n
          | inl e =>
            if decide (GetTransactionType (header t) ≠ TransactionTypeBaseAccount)
            then inl e else inr 0
          end with
    | inl e => Return s (Some e)
    | inr nextNonce =>
      if decide (nextNonce ≠ nonce) then Return s (Some ErrInvalidAccountNonce)
      else
        match applyTransaction env s t with
        | Return s1 None => increaseNonce s1 addr
        | o => o
        end
    end
  end.

Definition makeCopy (s : metaState) : metaState := mkState newMetaIndex (readonly s).

(** *** Removing a user of a chain *)

(** The prologue of [deleteSQLChainUser], as [accountForWrite] for the
    databases. *)
Definition databaseForWrite (s : metaState) (k : DatabaseID)
  : option (metaState * option SQLChainProfile) :=
  match databases (dirty s) !! k with
  | Some dst => Some (s, dst)
  | None =>
    match ro_databases (readonly s) !! k with
    | None => None
    | Some src => Some (setDirtyDatabase s k (Some src), Some src)
    end
  end.

(** The loop of [deleteSQLChainUser].  [range dst.Users] fixes the number of
    rounds and the backing array at entry; [backing] is that array (a nil
    pointer is [None]) and [len] the current length of [dst.Users], which
    shares it.  The rounds [i, i+1, ...] are the elements of [todo]; the
    result is the final array and length, [None] on a panic: a nil [v] at
    [v.Address], or an index out of the current length. *)
Fixpoint deleteUserLoop (addr : AccountAddress) (todo : list nat)
    (backing : list (option SQLChainUser)) (len : nat)
  : option (list (option SQLChainUser) * nat) :=
  match todo with
  | [] => Some (backing, len)
  | i :: rest =>
    match backing !! i with
    | Some (Some v) =>
      if decide (User_Address v = addr) then
        match len with
        | O => None
        | S last =>
          if decide (i < len)%nat then
            deleteUserLoop addr rest
              (<[last:=None]> (<[i:=default None (backing !! last)]> backing)) last
          else None
        end
      else deleteUserLoop addr rest backing len
    | _ => None
    end
  end.

Definition deleteSQLChainUser (s : metaState) (k : DatabaseID) (addr : AccountAddress) : Outcome :=
  match databaseForWrite s k with
  | None => Return s (Some ErrDatabaseNotFound)
  | Some (_, None) => Panicked
  | Some (s1, Some dst) =>
    let users := Profile_Users dst in
    match deleteUserLoop addr (seq 0 (length users)) (Some <$> users) (length users) with
    | None => Panicked
    | Some (backing, len) =>
      Return (setDirtyDatabase s1 k (Some (withUsers dst (omap id (take len backing))))) None
    end
  end.

(** *** Read queries and the remaining helpers *)

(** [(b, loaded)]: the balance and whether the account was found.  The test
    of the dirty entry is [loaded && o != nil], so that a nil marker falls
    through to the readonly map. *)
Definition loadAccountStableBalance (s : metaState) (addr : AccountAddress) : Z * bool :=
  match accounts (dirty s) !! addr with
  | Some (Some o) => (getBalance (Account_TokenBalance o) Particle, true)
  | _ =>
    match ro_accounts (readonly s) !! addr with
    | Some o => (getBalance (Account_TokenBalance o) Particle, true)
    | None => (0, false)
    end
  end.

Definition loadAccountCovenantBalance (s : metaState) (addr : AccountAddress) : Z * bool :=
  match accounts (dirty s) !! addr with
  | Some (Some o) => (getBalance (Account_TokenBalance o) Wave, true)
  | _ =>
    match ro_accounts (readonly s) !! addr with
    | Some o => (getBalance (Account_TokenBalance o) Wave, true)
    | None => (0, false)
    end
  end.

Definition transferAccountStableBalance (s : metaState) (sender receiver : AccountAddress)
    (amount : Z) : Outcome :=
  if decide (sender = receiver ∨ amount = 0) then Return s None
  else
    let s1 := (loadOrStoreAccountObject s receiver (emptyAccount receiver)).1 in
    match dirtyOrReadonly s1 sender with
    | None => Return s1 (Some ErrAccountNotFound)
    | Some (so, sd) =>
      match dirtyOrReadonly s1 receiver with
      | None => Return s1 (Some ErrAccountNotFound)
      | Some (ro, rd) =>
        match so, ro with
        | Some so, Some ro =>
          match safeSub (getBalance (Account_TokenBalance so) Particle) amount with
          | inl e => Return s1 (Some e)
          | inr sb =>
            match safeAdd (getBalance (Account_TokenBalance ro) Particle) amount with
            | inl e => Return s1 (Some e)
            | inr rb =>
              let s2 := if sd then s1 else setDirtyAccount s1 sender (Some so) in
              let s3 := if rd then s2 else setDirtyAccount s2 receiver (Some ro) in
              let s4 := setDirtyAccount s3 sender (Some (withBalance so Particle sb)) in
              Return (setDirtyAccount s4 receiver (Some (withBalance ro Particle rb))) None
            end
          end
        | _, _ => Panicked
        end
      end
    end.

(** Every user at [addr] takes the permission; no error when there is none. *)
Definition alterSQLChainUser (s : metaState) (k : DatabaseID) (addr : AccountAddress)
    (perm : Z) : Outcome :=
  match databaseForWrite s k with
  | None => Return s (Some ErrDatabaseNotFound)
  | Some (_, None) => Panicked
  | Some (s1, Some dst) =>
    Return (setDirtyDatabase s1 k
              (Some (withUsers dst
                       ((λ v, if decide (User_Address v = addr) then withPermission v perm else v)
                          <$> Profile_Users dst)))) None
  end.

(** The committed profiles in which [addr] is a miner, once per miner entry
    at that address, in the order in which the runtime enumerates the map. *)
Definition loadROSQLChains (s : metaState) (addr : AccountAddress) : list SQLChainProfile :=
  foldl (λ dbs kv,
           foldl (λ dbs miner,
                    if decide (Miner_Address miner = addr) then dbs ++ [kv.2] else dbs)
                 dbs (Profile_Miners kv.2))
        [] (map_to_list (ro_databases (readonly s))).

(** Whether a BaseAccount is what the applier ends up applying. *)
Fixpoint appliesBaseAccount (tx : Transaction) : bool :=
  match tx with
  | TxBaseAccount _ _ => true
  | TxWrapper _ inner => appliesBaseAccount inner
  | _ => false
  end.

(** *** Vocabulary of the properties *)

Definition balanceIn (a : Account) (t : TokenType) : Z :=
  getBalance (Account_TokenBalance a) t.

(** The accounts that lookups see, and the balance a lookup reports: zero
    for an account that is not loaded, as [loadAccountStableBalance] does. *)
Definition view (s : metaState) : gmap AccountAddress Account :=
  overlay (accounts (dirty s)) (ro_accounts (readonly s)).

Definition balanceOf (s : metaState) (a : AccountAddress) (t : TokenType) : Z :=
  match loadAccountObject s a with
  | Some acc => balanceIn acc t
  | None => 0
  end.

(** The three ways in which a target miner fails to resolve for the user
    [sender] at the gas price of the transaction, with the error of each;
    and what it takes to resolve. *)
Inductive minerFails (s : metaState) (sender : AccountAddress) (gasPrice : Z)
    (miner : AccountAddress) : Error → Prop :=
| fails_no_profile :
    loadProviderObject s miner = None →
    minerFails s sender gasPrice miner ErrNoSuchMiner
| fails_other_user po :
    loadProviderObject s miner = Some po →
    Provider_TargetUser po ≠ sender →
    minerFails s sender gasPrice miner ErrMinerUserNotMatch
| fails_gas_price po :
    loadProviderObject s miner = Some po →
    Provider_TargetUser po = sender →
    gasPrice < Provider_GasPrice po →
    minerFails s sender gasPrice miner ErrGasPriceMismatch.

Definition minerResolves (s : metaState) (sender : AccountAddress) (gasPrice : Z)
    (miner : AccountAddress) : Prop :=
  ∃ po, loadProviderObject s miner = Some po ∧
        Provider_TargetUser po = sender ∧ Provider_GasPrice po ≤ gasPrice.

(** A miner after the settlement of the previous window: the pending income
    is rolled into the received income, with the wrap-around of [+=]. *)
Definition settled (m : MinerInfo) : MinerInfo :=
  withIncome m 0 (u64 (Miner_ReceivedIncome m + Miner_PendingIncome m)).

(** Every account that a lookup finds in [s] is found in [s'], with the
    nonce it had. *)
Definition keepsNonces (s s' : metaState) : Prop :=
  ∀ a acc, loadAccountObject s a = Some acc →
           ∃ acc', loadAccountObject s' a = Some acc' ∧
                   Account_NextNonce acc' = Account_NextNonce acc.


(** An outcome that left the committed index as it was. *)
Definition keepsReadonly (s : metaState) (o : Outcome) : Prop :=
  match o with
  | Return s' _ => readonly s' = readonly s
  | Panicked => True
  end.

(** Two states of a miner with the same address and received income. *)
Definition sameMiner (m m' : MinerInfo) : Prop :=
  Miner_Address m' = Miner_Address m ∧ Miner_ReceivedIncome m' = Miner_ReceivedIncome m.

(** The sum of one token over a set of accounts, in the integers. *)
Definition totalBalance (t : TokenType) (m : gmap AccountAddress Account) : Z :=
  map_fold (λ _ acc sum, balanceIn acc t + sum) 0 m.

End MetaState.

(** ** Part II: raft/configuration.go *)

Module Raft.

Inductive ServerSuffrage := Peer | Learner | Staging.

#[global] Instance ServerSuffrage_eq_dec : EqDecision ServerSuffrage.
Proof. solve_decision. Defined.

Abbreviation ServerID := string (only parsing).
Abbreviation ServerAddress := string (only parsing).

Record Server := mkServer {
  Suffrage : ServerSuffrage;
  ID : ServerID;
  Address : ServerAddress;
  PubKey : option N
}.

Record Configuration := mkConfiguration {
  Term : Z;
  Leader : Server;
  Servers : list Server;
  Signature : option N
}.

(** [Clone] appends the servers to a nil slice: the copy shares nothing with
    the original, and as values the two are equal. *)
Definition Clone (c : Configuration) : Configuration :=
  mkConfiguration (Term c) (Leader c) ([] ++ Servers c) (Signature c).

Inductive ConfigurationChangeCommand :=
| AddStaging | AddLearner | Demote | RemoveServer | Promote.

Record configurationChangeRequest := mkChange {
  command : ConfigurationChangeCommand;
  serverID : ServerID;
  serverAddress : ServerAddress;
  prevIndex : N
}.

(** The errors that the file builds with [fmt.Errorf], by their message.
    The two indexes are [uint64] values, natural numbers here. *)
Inductive ConfigError :=
| ErrEmptyID
| ErrEmptyAddress (server : Server)
| ErrDuplicateID (id : ServerID)
| ErrDuplicateAddress (address : ServerAddress)
| ErrNoVoter
| ErrConfigurationChanged (prevIndex currentIndex : N).

Definition isPeer (configuration : Configuration) (id : ServerID) : bool :=
  match list_find (λ server, ID server = id) (Servers configuration) with
  | Some (_, server) => bool_decide (Suffrage server = Peer)
  | None => false
  end.

(** The loop of [checkConfiguration] with its two sets and its counter; a
    key that is not in a [map[...]bool] reads as [false]. *)
Fixpoint checkServers (servers : list Server) (idSet addressSet : gmap string bool)
    (voters : nat) : option ConfigError :=
  match servers with
  | [] => if decide (voters = 0%nat) then Some ErrNoVoter else None
  | server :: rest =>
    if decide (ID server = EmptyString) then Some ErrEmptyID
    else if decide (Address server = EmptyString) then Some (ErrEmptyAddress server)
    else if default false (idSet !! ID server) then Some (ErrDuplicateID (ID server))
    else if default false (addressSet !! Address server)
    then Some (ErrDuplicateAddress (Address server))
    else checkServers rest (<[ID server := true]> idSet)
                      (<[Address server := true]> addressSet)
                      (if decide (Suffrage server = Peer) then S voters else voters)
  end.

(** [None] is the nil error. *)
Definition checkConfiguration (configuration : Configuration) : option ConfigError :=
  checkServers (Servers configuration) ∅ ∅ 0.

Definition withServers (c : Configuration) (servers : list Server) : Configuration :=
  mkConfiguration (Term c) (Leader c) servers (Signature c).

(** A loop that rewrites the first server that [p] selects and breaks;
    [None] when no server is selected ([found] stays false). *)
Fixpoint updateFirst (p : Server → bool) (f : Server → Server) (servers : list Server)
  : option (list Server) :=
  match servers with
  | [] => None
  | server :: rest =>
    if p server then Some (f server :: rest)
    else match updateFirst p f rest with
         | Some rest' => Some (server :: rest')
         | None => None
         end
  end.

(** [append(servers[:i], servers[i+1:]...)] at the first server with the ID. *)
Fixpoint removeFirst (id : ServerID) (servers : list Server) : list Server :=
  match servers with
  | [] => []
  | server :: rest =>
    if decide (ID server = id) then rest else server :: removeFirst id rest
  end.

Definition withAddress (server : Server) (address : ServerAddress) : Server :=
  mkServer (Suffrage server) (ID server) address (PubKey server).

Definition withSuffrage (server : Server) (suffrage : ServerSuffrage) : Server :=
  mkServer suffrage (ID server) (Address server) (PubKey server).

Definition hasID (id : ServerID) (server : Server) : bool := bool_decide (ID server = id).

Definition changeServers (change : configurationChangeRequest) (servers : list Server)
  : list Server :=
  match command change with
  | AddStaging =>
    let newServer := mkServer Peer (serverID change) (serverAddress change) None in
    match updateFirst (hasID (serverID change))
            (λ server, if decide (Suffrage server = Peer)
                       then withAddress server (serverAddress change) else newServer)
            servers with
    | Some servers' => servers'
    | None => servers ++ [newServer]
    end
  | AddLearner =>
    let newServer := mkServer Learner (serverID change) (serverAddress change) None in
    match updateFirst (hasID (serverID change))
            (λ server, if decide (Suffrage server ≠ Learner)
                       then withAddress server (serverAddress change) else newServer)
            servers with
    | Some servers' => servers'
    | None => servers ++ [newServer]
    end
  | Demote =>
    default servers
      (updateFirst (hasID (serverID change)) (λ server, withSuffrage server Learner) servers)
  | RemoveServer => removeFirst (serverID change) servers
  | Promote =>
    default servers
      (updateFirst (λ server, hasID (serverID change) server
                              && bool_decide (Suffrage server = Staging))
                   (λ server, withSuffrage server Peer) servers)
  end.

Definition nextConfiguration (current : Configuration) (currentIndex : N)
    (change : configurationChangeRequest) : ConfigError + Configuration :=
  if decide ((0 < prevIndex change)%N ∧ prevIndex change ≠ currentIndex)
  then inl (ErrConfigurationChanged (prevIndex change) currentIndex)
  else
    let configuration := Clone current in
    let configuration := withServers configuration
                           (changeServers change (Servers configuration)) in
    match checkConfiguration configuration with
    | Some err => inl err
    | None => inr configuration
    end.

(** *** The legacy list of peers *)

(** The transport and the msgpack codec that the file consumes; [None] is an
    error of the codec, on which the callers panic. *)
Record Transport := mkTransport {
  EncodePeer : ServerID → ServerAddress → list Byte.byte;
  DecodePeer : list Byte.byte → string
}.

Record MsgPack := mkMsgPack {
  encodeMsgPack : list (list Byte.byte) → option (list Byte.byte);
  decodeMsgPack : list Byte.byte → option (list (list Byte.byte))
}.

(** [None] is the panic. *)
Definition encodePeers (codec : MsgPack) (configuration : Configuration) (trans : Transport)
  : option (list Byte.byte) :=
  encodeMsgPack codec
    ((λ server, EncodePeer trans (ID server) (Address server))
       <$> filter (λ server, Suffrage server = Peer) (Servers configuration)).

(** The result has the zero value in every field but [Servers]; [None] is
    the panic. *)
Definition decodePeers (codec : MsgPack) (buf : list Byte.byte) (trans : Transport)
  : option Configuration :=
  match decodeMsgPack codec buf with
  | None => None
  | Some encPeers =>
    Some (mkConfiguration 0 (mkServer Peer EmptyString EmptyString None)
            ((λ enc, let p := DecodePeer trans enc in mkServer Peer p p None) <$> encPeers)
            None)
  end.

(** *** Vocabulary of the properties *)

(** What [checkConfiguration] tests, as a property of the list of servers. *)
Definition wellFormed (configuration : Configuration) : Prop :=
  Forall (λ server, ID server ≠ EmptyString ∧ Address server ≠ EmptyString)
         (Servers configuration) ∧
  NoDup (ID <$> Servers configuration) ∧
  NoDup (Address <$> Servers configuration) ∧
  Exists (λ server, Suffrage server = Peer) (Servers configuration).

End Raft.

(** ** Sample collaborators, states and transactions *)

Module Samples.
Import MetaState.

(** Collaborators for the examples: the address of a key is the key, a
    database identifier is the decimal spelling of what it derives from,
    signing and encoding never fail, and the share of an unpaid bill is the
    exact quotient. *)
Definition sampleEnv : Env :=
  mkEnv (λ pk, pk)
        (λ a, pretty a)
        (λ a n, pretty a +:+ ":" +:+ pretty n)
        (λ id, Some (1000 + N.of_nat (String.length id))%N)
        (Some 7%N) (Some "node"%string) 0
        (λ b _, Some b) (λ _, Some [])
        1 1 10
        (λ adv bill income, income * (bill - adv) / bill).

Definition committed (accs : list (AccountAddress * Account))
    (dbs : list (DatabaseID * SQLChainProfile))
    (provs : list (AccountAddress * ProviderProfile)) : metaState :=
  mkState newMetaIndex (mkCommitted (list_to_map accs) (list_to_map dbs) (list_to_map provs)).

(** An account whose nonce is the largest 32-bit value. *)
Definition lastNonceState : metaState :=
  committed [(1%N, mkAccount 1 4294967295 (mkBalances 100 0))] [] [].


(** Account 1 holds 100 particles; nobody else is known. *)
Definition oneAccountState : metaState :=
  committed [(1%N, mkAccount 1 0 (mkBalances 100 0))] [] [].

Definition firstTransfer : Transaction :=
  TxTransfer (mkHeader 1 0 TransactionTypeTransfer)
             (mkTransfer 1 2 30 Particle (Some 1%N)).

(** The same transfer, signed with a key whose address is 9, not 1. *)
Definition foreignTransfer : Transfer := mkTransfer 1 2 30 Particle (Some 9%N).

(** A chain under the identifier of address 5: gas price 1, one miner (so
    that the minimal deposit is 1), and the address 5 among its users with
    no deposit and no advance payment. *)
Definition chainProfile : SQLChainProfile :=
  mkProfile "5" 5 sqlchainPeriod 1 Particle 1
            [mkUser 1 Admin Normal 1 1; mkUser 5 Read Normal 0 0]
            [mkMiner 7 "miner" 10 EmptyString 3 1 []] [].

Definition chainState : metaState :=
  committed [(1%N, mkAccount 1 0 (mkBalances 100 0)); (5%N, emptyAccount 5)]
            [("5"%string, chainProfile)] [].

Definition chainTransfer : Transfer := mkTransfer 5 6 5 Particle (Some 5%N).

(** The same chain with gas price 0. *)
Definition freeChainState : metaState :=
  committed [(1%N, mkAccount 1 0 (mkBalances 100 0))]
            [("5"%string,
              mkProfile "5" 5 sqlchainPeriod 0 Particle 1
                        [mkUser 1 Admin Normal 1 1]
                        [mkMiner 7 "miner" 10 EmptyString 3 1 []] [])] [].

Definition emptyBilling : UpdateBilling := mkUpdateBilling 5 [].

(** Providers 7 and 8 offer their service to user 1 at gas price 1; nobody
    is registered at 9. *)
Definition providerState : metaState :=
  committed [(1%N, mkAccount 1 0 (mkBalances 100 100))] []
            [(7%N, mkProvider 7 0 0 0 1 10 1 "n7"); (8%N, mkProvider 8 0 0 0 1 10 1 "n8")].

Definition createWith (targets : list AccountAddress) : CreateDatabase :=
  mkCreateDatabase 1 (Some 1%N) 0 (mkResourceMeta targets) 1 5 Wave.

(** The collaborators of [sampleEnv] with no private key in the key store:
    the genesis block cannot be signed. *)
Definition keylessEnv : Env :=
  mkEnv (PubKeyHash sampleEnv) (AddressDatabaseID sampleEnv) (FromAccountAndNonce sampleEnv)
        (DatabaseIDAccountAddress sampleEnv) None (GetLocalNodeID sampleEnv)
        (timeNow sampleEnv) (PackAndSignBlock sampleEnv) (EncodeMsgPack sampleEnv)
        (QPS sampleEnv) (UpdatePeriod sampleEnv) (MinProviderDeposit sampleEnv)
        (arrearsIncome sampleEnv).

(** A state in which 7 has 25 particles and is registered as a provider. *)
Definition registeredState : metaState :=
  committed [(7%N, mkAccount 7 0 (mkBalances 25 0))] []
            [(7%N, mkProvider 7 0 0 0 1 10 1 "n7")].

(** A chain with gas price 2 whose only user has an advance payment of 5. *)
Definition billedProfile : SQLChainProfile :=
  mkProfile "5" 5 sqlchainPeriod 2 Particle 1 [mkUser 1 Admin Normal 1 5]
            [mkMiner 7 "miner" 10 EmptyString 0 0 []] [].

Definition billedState : metaState := committed [] [("5"%string, billedProfile)] [].

Definition costlyBilling : UpdateBilling :=
  mkUpdateBilling 5 [mkUserCost 1 10 [mkMinerIncome 7 10]].

(** The request of [createWith] for the miners 7 and 8 at gas price 2^63:
    with the factors of [sampleEnv] the product for the minimal advance is
    2^64. *)
Definition wrappingCreate : CreateDatabase :=
  mkCreateDatabase 1 (Some 1%N) 0 (mkResourceMeta [7; 8]%N) (2 ^ 63) 5 Wave.


(** The chain of [chainState] has the users 1 and 5, in this order. *)
Definition firstUser : AccountAddress := 1%N.

End Samples.

Module RaftSamples.
Import Raft.

(** Scenario F of the specification: two peers, and the removal of one. *)
Definition peer (name : string) : Server := mkServer Peer name (name +:+ ":4661") None.

Definition twoPeers : Configuration :=
  mkConfiguration 1 (peer "P1") [peer "P1"; peer "P2"] None.

Definition removeP2 : configurationChangeRequest := mkChange RemoveServer "P2" EmptyString 0.

Definition removeP1 : configurationChangeRequest := mkChange RemoveServer "P1" EmptyString 0.

End RaftSamples.

Module MetaStateSpec.
Import MetaState.

Section commit.
Context {K V : Type} `{Countable K}.

Lemma commitEntries_lookup (l : list (K * option V)) (ro : gmap K V) (k : K) :
  NoDup l.*1 →
  commitEntries l ro !! k =
  match (list_to_map l : gmap K (option V)) !! k with
  | Some o => o
  | None => ro !! k
  end.
Proof.
  unfold commitEntries. revert ro.
  induction l as [|[j o] l IH]; intros ro Hnd; simpl; [done|].
  apply NoDup_cons in Hnd as [Hj Hnd]. rewrite (IH _ Hnd).
  destruct (decide (j = k)) as [->|Hne].
  - rewrite lookup_insert_eq.
    rewrite (not_elem_of_list_to_map_1 l k Hj).
    unfold commitEntry; destruct o; simpl;
      [apply lookup_insert_eq | apply lookup_delete_eq].
  - rewrite lookup_insert_ne by done.
    destruct (list_to_map l !! k); [done|].
    unfold commitEntry; destruct o; simpl;
      [by rewrite lookup_insert_ne | by rewrite lookup_delete_ne].
Qed.

(** Whatever order the runtime enumerates the dirty map in, the loop ends
    with the same readonly map. *)
Lemma commitEntries_any_order (d : gmap K (option V)) (l : list (K * option V)) (ro : gmap K V) :
  l ≡ₚ map_to_list d → commitEntries l ro = commitMap d ro.
Proof.
  intros Hp. apply map_eq; intros k. unfold commitMap.
  assert (NoDup l.*1) as Hnd.
  { rewrite Hp. apply NoDup_fst_map_to_list. }
  rewrite !commitEntries_lookup by (done || apply NoDup_fst_map_to_list).
  by rewrite (list_to_map_proper _ _ Hnd Hp).
Qed.

Lemma commitMap_lookup (d : gmap K (option V)) (ro : gmap K V) (k : K) :
  commitMap d ro !! k =
  match d !! k with
  | Some (Some v) => Some v
  | Some None => None
  | None => ro !! k
  end.
Proof.
  unfold commitMap. rewrite commitEntries_lookup by apply NoDup_fst_map_to_list.
  rewrite list_to_map_to_list. by destruct (d !! k) as [[?|]|].
Qed.

Lemma commitMap_overlay (d : gmap K (option V)) (ro : gmap K V) :
  commitMap d ro = overlay d ro.
Proof.
  apply map_eq; intros k. rewrite commitMap_lookup. unfold overlay.
  rewrite lookup_merge. destruct (d !! k) as [[?|]|], (ro !! k); done.
Qed.

End commit.

(** C1. After [commit] the dirty index is empty, and each of the three
    readonly maps is the fold of the former dirty map over the former
    readonly map: a dirty key with a non-nil value holds that value, a dirty
    key with the nil marker is gone, any other key is as it was. *)
Theorem commit_folds_dirty_into_readonly (s : metaState) :
  accounts (dirty (commit s)) = ∅ ∧
  databases (dirty (commit s)) = ∅ ∧
  provider (dirty (commit s)) = ∅ ∧
  (∀ k, ro_accounts (readonly (commit s)) !! k =
        match accounts (dirty s) !! k with
        | Some (Some v) => Some v
        | Some None => None
        | None => ro_accounts (readonly s) !! k
        end) ∧
  (∀ k, ro_databases (readonly (commit s)) !! k =
        match databases (dirty s) !! k with
        | Some (Some v) => Some v
        | Some None => None
        | None => ro_databases (readonly s) !! k
        end) ∧
  (∀ k, ro_provider (readonly (commit s)) !! k =
        match provider (dirty s) !! k with
        | Some (Some v) => Some v
        | Some None => None
        | None => ro_provider (readonly s) !! k
        end).
Proof.
  repeat split; try done; intros k; simpl; apply commitMap_lookup.
Qed.

(** *** The nonce of an account under the handlers *)

Lemma keepsNonces_refl s : keepsNonces s s.
Proof. intros a acc ?. by exists acc. Qed.



Lemma loadAccountObject_setDirtyAccount s k v a :
  loadAccountObject (setDirtyAccount s k v) a
  = if decide (k = a) then v else loadAccountObject s a.
Proof.
  unfold loadAccountObject, setDirtyAccount; simpl.
  rewrite lookup_insert. by case_decide.
Qed.


Lemma keepsNonces_setDirtyAccount s k v :
  (∀ acc, loadAccountObject s k = Some acc → Account_NextNonce v = Account_NextNonce acc) →
  keepsNonces s (setDirtyAccount s k (Some v)).
Proof.
  intros Hv a acc Ha. rewrite loadAccountObject_setDirtyAccount.
  case_decide as Hk; [subst a; exists v; auto|by exists acc].
Qed.







(** The prologue of a write: the dirty map holds the object afterwards, the
    object is the one a lookup found, and no nonce moved. *)
Lemma accountForWrite_Some s k s1 dst :
  accountForWrite s k = Some (s1, Some dst) →
  keepsNonces s s1 ∧ loadAccountObject s k = Some dst ∧ loadAccountObject s1 k = Some dst.
Proof.
  unfold accountForWrite.
  destruct (accounts (dirty s) !! k) as [o|] eqn:Hd.
  - intros [= <- ->]. unfold loadAccountObject. rewrite Hd.
    auto using keepsNonces_refl.
  - destruct (ro_accounts (readonly s) !! k) as [src|] eqn:Hr; [|done].
    intros [= <- <-]. rewrite loadAccountObject_setDirtyAccount, decide_True by done.
    unfold loadAccountObject at 1. rewrite Hd, Hr. split; [|done].
    apply keepsNonces_setDirtyAccount. unfold loadAccountObject. rewrite Hd, Hr. congruence.
Qed.

Lemma safeAdd_inl x y e : safeAdd x y = inl e → e = ErrBalanceOverflow.
Proof. unfold safeAdd. case_match; congruence. Qed.

Lemma safeSub_inl x y e : safeSub x y = inl e → e = ErrInsufficientBalance.
Proof. unfold safeSub. case_match; congruence. Qed.

Lemma safeAdd_inr x y v : safeAdd x y = inr v → v = x + y ∧ x + y ≤ U64_MAX.
Proof. unfold safeAdd. case_match eqn:Hc; [done|]. intros [= <-]. lia. Qed.

Lemma safeSub_inr x y v : safeSub x y = inr v → v = x - y ∧ y ≤ x.
Proof. unfold safeSub. case_match eqn:Hc; [done|]. intros [= <-]. lia. Qed.





(** What a lookup finds after [loadOrStoreAccountObject]: the account it
    found before, or the fresh one; a nil marker over a readonly entry keeps
    hiding it. *)
Lemma loadOrStoreAccountObject_load s k v a :
  loadAccountObject (loadOrStoreAccountObject s k v).1 a
  = if decide (k = a)
    then match loadAccountObject s k with
         | Some o => Some o
         | None => match ro_accounts (readonly s) !! k with
                   | Some _ => None
                   | None => Some v
                   end
         end
    else loadAccountObject s a.
Proof.
  unfold loadOrStoreAccountObject, loadAccountObject.
  destruct (accounts (dirty s) !! k) as [[o|]|] eqn:Hd; simpl.
  - case_decide; [subst; by rewrite Hd|done].
  - destruct (ro_accounts (readonly s) !! k) eqn:Hr; simpl.
    + case_decide; [subst; by rewrite Hd|done].
    + rewrite lookup_insert. by case_decide.
  - destruct (ro_accounts (readonly s) !! k) eqn:Hr; simpl.
    + case_decide; [subst; by rewrite Hd, Hr|done].
    + rewrite lookup_insert. by case_decide.
Qed.

Lemma dirtyOrReadonly_Some s k o d :
  dirtyOrReadonly s k = Some (Some o, d) → loadAccountObject s k = Some o.
Proof.
  unfold dirtyOrReadonly, loadAccountObject.
  destruct (accounts (dirty s) !! k); [by intros [= -> _]|].
  destruct (ro_accounts (readonly s) !! k); [by intros [= -> _]|done].
Qed.

Lemma dirtyOrReadonly_loadOrStore s k v o d :
  dirtyOrReadonly (loadOrStoreAccountObject s k v).1 k = Some (Some o, d) →
  loadAccountObject s k = Some o ∨ (loadAccountObject s k = None ∧ o = v).
Proof.
  intros Hl%dirtyOrReadonly_Some. rewrite loadOrStoreAccountObject_load in Hl.
  rewrite decide_True in Hl by done.
  destruct (loadAccountObject s k); [left; congruence|].
  destruct (ro_accounts (readonly s) !! k); [done|]. right. split; congruence.
Qed.


(** *** The account transfer *)

(** A transfer that goes through (distinct endpoints, a non-zero amount):
    the two accounts it read, the bounds that the safe arithmetic checked,
    and every lookup afterwards. *)
Lemma transferAccountToken_moves env s t s' :
  transferAccountToken env s t = Return s' None →
  Transfer_Sender t ≠ Transfer_Receiver t →
  Transfer_Amount t ≠ 0 →
  ∃ so ro,
    loadAccountObject s (Transfer_Sender t) = Some so ∧
    (loadAccountObject s (Transfer_Receiver t) = Some ro ∨
     (loadAccountObject s (Transfer_Receiver t) = None ∧ ro = emptyAccount (Transfer_Receiver t))) ∧
    Transfer_Amount t ≤ balanceIn so (Transfer_TokenType t) ∧
    balanceIn ro (Transfer_TokenType t) + Transfer_Amount t ≤ U64_MAX ∧
    ∀ a, loadAccountObject s' a =
         if decide (Transfer_Receiver t = a)
         then Some (withBalance ro (Transfer_TokenType t)
                                (balanceIn ro (Transfer_TokenType t) + Transfer_Amount t))
         else if decide (Transfer_Sender t = a)
         then Some (withBalance so (Transfer_TokenType t)
                                (balanceIn so (Transfer_TokenType t) - Transfer_Amount t))
         else loadAccountObject s a.
Proof.
  unfold transferAccountToken. intros Hrun Hne Hamt.
  destruct (PubKeyHash env _) as [realSender|]; [|done].
  rewrite decide_False in Hrun by (intros [?|?]; done).
  set (s1 := (loadOrStoreAccountObject s _ _).1) in Hrun.
  assert (∀ a, loadAccountObject s1 a = _) as Hs1
    by (intros a; apply loadOrStoreAccountObject_load).
  destruct (dirtyOrReadonly s1 (Transfer_Sender t)) as [[[so|] sd]|] eqn:Hso; try done;
    destruct (dirtyOrReadonly s1 (Transfer_Receiver t)) as [[[ro|] rd]|] eqn:Hro; try done.
  destruct (safeSub _ _) as [|sb] eqn:Hsub; [done|].
  destruct (safeAdd _ _) as [|rb] eqn:Hadd; [done|].
  apply safeSub_inr in Hsub as [-> ?]. apply safeAdd_inr in Hadd as [-> ?].
  injection Hrun as <-. exists so, ro.
  apply dirtyOrReadonly_loadOrStore in Hro.
  apply dirtyOrReadonly_Some in Hso. rewrite Hs1, decide_False in Hso by done.
  repeat split; try done.
  intros a. rewrite !loadAccountObject_setDirtyAccount.
  repeat case_decide; try done.
  destruct rd, sd; rewrite ?loadAccountObject_setDirtyAccount, ?decide_False by done;
    rewrite Hs1, decide_False by done; done.
Qed.

Lemma transferAccountToken_error env s t s' e :
  transferAccountToken env s t = Return s' (Some e) →
  e ≠ ErrInvalidAccountNonce ∧
  (s' = s ∨ s' = (loadOrStoreAccountObject s (Transfer_Receiver t)
                                           (emptyAccount (Transfer_Receiver t))).1).
Proof.
  unfold transferAccountToken.
  destruct (PubKeyHash env _) as [realSender|]; [|by intros [= <- <-]; auto].
  case_decide.
  { case_decide; intros [= <- ?]; subst; auto. }
  destruct (dirtyOrReadonly _ (Transfer_Sender t)) as [[[so|] sd]|];
    [| |by intros [= <- <-]; auto];
    (destruct (dirtyOrReadonly _ (Transfer_Receiver t)) as [[[ro|] rd]|];
       [| |by intros [= <- <-]; auto]); try done.
  destruct (safeSub _ _) as [e1|sb] eqn:Hsub.
  { apply safeSub_inl in Hsub as ->. intros [= <- <-]; auto. }
  destruct (safeAdd _ _) as [e1|rb] eqn:Hadd; [|done].
  apply safeAdd_inl in Hadd as ->. intros [= <- <-]; auto.
Qed.

(** A transfer between an account and itself, or of nothing, returns before
    it touches the state. *)
Lemma transferAccountToken_noop env s t s' err :
  transferAccountToken env s t = Return s' err →
  Transfer_Sender t = Transfer_Receiver t ∨ Transfer_Amount t = 0 →
  s' = s.
Proof.
  unfold transferAccountToken. intros Hrun Hnoop.
  destruct (PubKeyHash env _); [|by injection Hrun].
  rewrite decide_True in Hrun by done. by injection Hrun.
Qed.


(** The sqlchain transfer hands its result to [loadOrStoreSQLChainObject],
    which stores nothing for a key that a lookup finds: the state is as it
    was, on every path. *)
Lemma loadOrStoreSQLChainObject_loaded s k v p :
  loadSQLChainObject s k = Some p → (loadOrStoreSQLChainObject s k v).1 = s.
Proof.
  unfold loadSQLChainObject, loadOrStoreSQLChainObject.
  destruct (databases (dirty s) !! k) as [[o|]|]; [done..|].
  by destruct (ro_databases (readonly s) !! k).
Qed.

Lemma transferSQLChainTokenBalance_state env s t s' err :
  transferSQLChainTokenBalance env s t = Return s' err → s' = s.
Proof.
  unfold transferSQLChainTokenBalance.
  destruct (PubKeyHash env _); [|by intros [= <- _]].
  destruct (loadSQLChainObject s _) as [sqlchain|] eqn:Hload; [|by intros [= <- _]].
  destruct (findUser _ _ _) as [[i user]|]; [|by intros [= <- _]].
  case_decide; [by intros [= <- _]|].
  destruct (sqlchainTransferUpdate _ _ _ _ _ _) as [e|[sqlchain' err']]; [by intros [= <- _]|].
  intros [= <- _]. by eapply loadOrStoreSQLChainObject_loaded.
Qed.













(** *** The nonce gate of [apply] *)

Lemma nextNonce_found s addr acc :
  loadAccountObject s addr = Some acc →
  nextNonce s addr = Some (inr (Account_NextNonce acc)).
Proof.
  unfold loadAccountObject, nextNonce.
  destruct (accounts (dirty s) !! addr) as [[o|]|]; [by intros [= ->]|done|].
  destruct (ro_accounts (readonly s) !! addr); [by intros [= ->]|done].
Qed.


(** With the account of the sender found, [apply] is the nonce test, then
    the handler, then the increment. *)
Lemma apply_found env s t acc :
  loadAccountObject s (GetAccountAddress (header t)) = Some acc →
  apply env s t =
  if decide (Account_NextNonce acc ≠ GetAccountNonce (header t))
  then Return s (Some ErrInvalidAccountNonce)
  else match applyTransaction env s t with
       | Return s1 None => increaseNonce s1 (GetAccountAddress (header t))
       | o => o
       end.
Proof. intros Hacc. unfold apply. by rewrite (nextNonce_found _ _ _ Hacc). Qed.




(** *** Conservation of a token under the account transfer *)

Lemma view_lookup s a : view s !! a = loadAccountObject s a.
Proof.
  unfold view, overlay, loadAccountObject. rewrite lookup_merge.
  destruct (accounts (dirty s) !! a) as [[?|]|], (ro_accounts (readonly s) !! a); done.
Qed.

Lemma totalBalance_insert_fresh t m k acc :
  m !! k = None → totalBalance t (<[k:=acc]> m) = balanceIn acc t + totalBalance t m.
Proof.
  intros Hk. unfold totalBalance. rewrite map_fold_insert_L; [done| |done].
  intros. lia.
Qed.

Lemma totalBalance_delete t m k acc :
  m !! k = Some acc → totalBalance t m = balanceIn acc t + totalBalance t (delete k m).
Proof.
  intros Hk. unfold totalBalance. rewrite (map_fold_delete_L _ _ k acc m); [done| |done].
  intros. lia.
Qed.

(** Writing an account changes the sum by the difference of the balances,
    an account that was not there counting for zero. *)
Lemma totalBalance_insert t m k acc :
  totalBalance t (<[k:=acc]> m)
  = totalBalance t m - from_option (λ old, balanceIn old t) 0 (m !! k) + balanceIn acc t.
Proof.
  destruct (m !! k) as [old|] eqn:Hk; simpl.
  - rewrite <-insert_delete_eq.
    rewrite totalBalance_insert_fresh by apply lookup_delete_eq.
    rewrite (totalBalance_delete t m k old Hk). lia.
  - rewrite totalBalance_insert_fresh by done. lia.
Qed.

Lemma balanceIn_withBalance acc t v t' :
  balanceIn (withBalance acc t v) t' = if decide (t' = t) then v else balanceIn acc t'.
Proof. by destruct t, t'. Qed.

Lemma balanceIn_emptyAccount k t : balanceIn (emptyAccount k) t = 0.
Proof. by destruct t. Qed.

(** C4, as the code has it.  An account transfer from [s] to [r ≠ s] that
    returns no error leaves the sum of the token over all visible accounts
    as it was: the balance of [s] is down by the amount and the balance of
    [r] up by it (an account that is not there counting for zero), every
    other account is as it was, and so is the other token of every account.
    With a non-zero amount [r] is there afterwards, as the empty account
    plus the amount when it was not there before; a transfer of the amount
    zero returns before it creates anything. *)
Theorem transferAccountToken_conserves (env : Env) (s s' : metaState) (t : Transfer) :
  transferAccountToken env s t = Return s' None →
  Transfer_Sender t ≠ Transfer_Receiver t →
  totalBalance (Transfer_TokenType t) (view s') = totalBalance (Transfer_TokenType t) (view s) ∧
  balanceOf s' (Transfer_Sender t) (Transfer_TokenType t)
  = balanceOf s (Transfer_Sender t) (Transfer_TokenType t) - Transfer_Amount t ∧
  balanceOf s' (Transfer_Receiver t) (Transfer_TokenType t)
  = balanceOf s (Transfer_Receiver t) (Transfer_TokenType t) + Transfer_Amount t ∧
  (∀ a, a ≠ Transfer_Sender t → a ≠ Transfer_Receiver t →
        loadAccountObject s' a = loadAccountObject s a) ∧
  (∀ a t', t' ≠ Transfer_TokenType t → balanceOf s' a t' = balanceOf s a t') ∧
  (Transfer_Amount t ≠ 0 →
   is_Some (loadAccountObject s (Transfer_Sender t)) ∧
   ∃ ro', loadAccountObject s' (Transfer_Receiver t) = Some ro' ∧
          (loadAccountObject s (Transfer_Receiver t) = None →
           ro' = withBalance (emptyAccount (Transfer_Receiver t)) (Transfer_TokenType t)
                             (Transfer_Amount t))) ∧
  (Transfer_Amount t = 0 → s' = s).
Proof.
  intros Hrun Hne.
  destruct (decide (Transfer_Amount t = 0)) as [Hzero|Hamt].
  { rewrite (transferAccountToken_noop _ _ _ _ _ Hrun (or_intror Hzero)), Hzero.
    repeat split; try done; try (by intros; lia). }
  apply transferAccountToken_moves in Hrun as (so & ro & Hso & Hro & Hsub & Hadd & Hs');
    [|done..].
  set (tt := Transfer_TokenType t) in *. set (amt := Transfer_Amount t) in *.
  set (sender := Transfer_Sender t) in *. set (receiver := Transfer_Receiver t) in *.
  assert (balanceOf s receiver tt = balanceIn ro tt) as Hrbal.
  { unfold balanceOf. destruct Hro as [->|[-> ->]]; [done|].
    by rewrite balanceIn_emptyAccount. }
  assert (from_option (λ old, balanceIn old tt) 0 (view s !! receiver) = balanceIn ro tt)
    as Hrview.
  { rewrite view_lookup. destruct Hro as [->|[-> ->]]; [done|].
    by rewrite balanceIn_emptyAccount. }
  repeat split.
  - assert (view s' = <[receiver:=withBalance ro tt (balanceIn ro tt + amt)]>
                        (<[sender:=withBalance so tt (balanceIn so tt - amt)]> (view s)))
      as ->.
    { apply map_eq; intros a. rewrite view_lookup, Hs', !lookup_insert.
      repeat case_decide; try done. apply eq_sym, view_lookup. }
    rewrite !totalBalance_insert. rewrite lookup_insert_ne by done.
    rewrite Hrview, view_lookup, Hso; simpl.
    rewrite !balanceIn_withBalance, !decide_True by done. lia.
  - unfold balanceOf. rewrite Hs', decide_False, decide_True, Hso by done.
    by rewrite balanceIn_withBalance, decide_True.
  - rewrite Hrbal. unfold balanceOf. rewrite Hs', decide_True by done.
    by rewrite balanceIn_withBalance, decide_True.
  - intros a Hs Hr. by rewrite Hs', !decide_False.
  - intros a t' Ht'. unfold balanceOf. rewrite Hs'. repeat case_decide; subst.
    + rewrite balanceIn_withBalance, decide_False by done.
      destruct Hro as [->|[-> ->]]; [done|]. by rewrite balanceIn_emptyAccount.
    + by rewrite Hso, balanceIn_withBalance, decide_False.
    + done.
  - by rewrite Hso.
  - eexists. rewrite Hs', decide_True by done. split; [done|].
    intros Hnone. destruct Hro as [Hro|[_ ->]]; [congruence|].
    by rewrite balanceIn_emptyAccount.
  - done.
Qed.

(** The claim as written fails for a transfer of nothing: it is accepted,
    and the receiver, who had no account, still has none. *)
Lemma transfer_of_nothing_creates_no_account :
  loadAccountObject Samples.oneAccountState 2%N = None ∧
  ∃ s', transferAccountToken Samples.sampleEnv Samples.oneAccountState
                             (mkTransfer 1 2 0 Particle (Some 1%N)) = Return s' None ∧
        loadAccountObject s' 2%N = None.
Proof. split; [reflexivity|]. eexists. split; vm_compute; reflexivity. Qed.

Lemma transferAccountToken_conserves_witness :
  ∃ s', transferAccountToken Samples.sampleEnv Samples.oneAccountState
                             (mkTransfer 1 2 30 Particle (Some 1%N)) = Return s' None ∧
        totalBalance Particle (view s') = totalBalance Particle (view Samples.oneAccountState) ∧
        balanceOf s' 1%N Particle = 70 ∧ balanceOf s' 2%N Particle = 30.
Proof.
  eexists. split; [vm_compute; reflexivity|].
  destruct (transferAccountToken_conserves Samples.sampleEnv Samples.oneAccountState _
              (mkTransfer 1 2 30 Particle (Some 1%N)) eq_refl)
    as (Hsum & Hs & Hr & _); [done|].
  split; [exact Hsum|]. split; [exact Hs|exact Hr].
Defined.

(** *** The sender of a transfer *)

(** C3 (the code departs from it).  The account transfer compares the
    address of the signee with the sender, assigns [err] on a mismatch and
    goes on; between two distinct accounts and for a non-zero amount the
    assignment is overwritten.  The outcome is then the same whoever signed:
    for any two transfers that differ in the signee alone. *)
Theorem transferAccountToken_ignores_signee (env : Env) (s : metaState) (t : Transfer)
    (signee : option PublicKey) :
  is_Some (PubKeyHash env (Transfer_Signee t)) →
  is_Some (PubKeyHash env signee) →
  Transfer_Sender t ≠ Transfer_Receiver t →
  Transfer_Amount t ≠ 0 →
  transferAccountToken env s t
  = transferAccountToken env s
      (mkTransfer (Transfer_Sender t) (Transfer_Receiver t) (Transfer_Amount t)
                  (Transfer_TokenType t) signee).
Proof.
  intros [a Ha] [b Hb] Hne Hamt. unfold transferAccountToken; simpl.
  rewrite Ha, Hb. by rewrite !decide_False by (intros [?|?]; done).
Qed.

(** The transfer of [foreignTransfer] is signed by the key of address 9 and
    declares the sender 1: it is accepted like the one that 1 signed, and
    30 particles leave the account of 1. *)
Lemma transferAccountToken_ignores_signee_witness :
  PubKeyHash Samples.sampleEnv (Transfer_Signee Samples.foreignTransfer) = Some 9%N ∧
  Transfer_Sender Samples.foreignTransfer = 1%N ∧
  ∃ s', transferAccountToken Samples.sampleEnv Samples.oneAccountState Samples.foreignTransfer
        = Return s' None ∧
        balanceOf s' 1%N Particle = 70 ∧ balanceOf s' 2%N Particle = 30.
Proof.
  split; [reflexivity|]. split; [reflexivity|].
  rewrite (transferAccountToken_ignores_signee Samples.sampleEnv Samples.oneAccountState
             Samples.foreignTransfer (Some 1%N));
    [|by eexists|by eexists|done|done].
  eexists. split; [vm_compute; reflexivity|]. split; reflexivity.
Defined.

(** The same through [applyTransaction]: the sqlchain path finds no chain for
    the sender and hands over to the account path. *)
Lemma applyTransaction_foreign_transfer :
  ∃ s', applyTransaction Samples.sampleEnv Samples.oneAccountState
          (TxTransfer (mkHeader 1 0 TransactionTypeTransfer) Samples.foreignTransfer)
        = Return s' None ∧
        balanceOf s' 1%N Particle = 70 ∧ balanceOf s' 2%N Particle = 30.
Proof. eexists. split; [vm_compute; reflexivity|]. split; reflexivity. Qed.

(** *** The transfer to a chain *)

(** The rule of the top-up branch on the copy of the profile: for values in
    range the deposit is the former deposit plus the whole amount, cut to 64
    bits. *)
Lemma topUpDeposit_adds_amount minDep deposit amount :
  0 ≤ deposit < minDep → minDep ≤ U64_MAX → 0 ≤ amount ≤ U64_MAX →
  topUpDeposit minDep deposit amount = u64 (deposit + amount).
Proof.
  unfold topUpDeposit, u64, U64_MAX. intros Hd Hm Ha.
  rewrite (Z.mod_small (minDep - deposit)) by lia.
  case_match; [done|]. rewrite (Z.mod_small (amount - _)) by lia. f_equal. lia.
Qed.

(** C7 (the code departs from it).  Whatever the sqlchain transfer computes
    for the deposit and the advance payment, it computes on the copy that
    [loadSQLChainObject] handed out, and [loadOrStoreSQLChainObject] does
    not store a profile under a key that is loaded: every lookup of a
    database answers after the transfer what it answered before. *)
Theorem transferSQLChainTokenBalance_stores_nothing (env : Env) (s s' : metaState)
    (t : Transfer) (err : option Error) :
  transferSQLChainTokenBalance env s t = Return s' err →
  ∀ k, loadSQLChainObject s' k = loadSQLChainObject s k.
Proof. intros ->%transferSQLChainTokenBalance_state. done. Qed.

(** The user 5 of [chainState] has no deposit and sends 5 to its chain,
    whose minimal deposit is 1: the transfer is accepted and the deposit of
    the user is still 0. *)
Lemma transferSQLChainTokenBalance_stores_nothing_witness :
  ∃ s', transferSQLChainTokenBalance Samples.sampleEnv Samples.chainState Samples.chainTransfer
        = Return s' None ∧
        loadSQLChainObject s' "5" = Some Samples.chainProfile ∧
        User_Deposit <$> Profile_Users Samples.chainProfile !! 1%nat = Some 0.
Proof.
  eexists. split; [vm_compute; reflexivity|]. split; [|reflexivity].
  rewrite (transferSQLChainTokenBalance_stores_nothing Samples.sampleEnv Samples.chainState _
             Samples.chainTransfer None); [reflexivity|vm_compute; reflexivity].
Defined.

(** On its copy, the function had raised the deposit to 5. *)
Lemma sqlchainTransferUpdate_on_the_copy :
  sqlchainTransferUpdate Samples.sampleEnv Samples.chainProfile Samples.chainTransfer 1
                         (mkUser 5 Read Normal 0 0) None
  = inr (withUsers Samples.chainProfile
                   [mkUser 1 Admin Normal 1 1; mkUser 5 Read Normal 5 0], None).
Proof. vm_compute. reflexivity. Qed.

(** A mismatch of the token type is refused. *)
Lemma transferSQLChainTokenBalance_wrong_token env s t realSender sqlchain i user :
  PubKeyHash env (Transfer_Signee t) = Some realSender →
  loadSQLChainObject s (AddressDatabaseID env (Transfer_Sender t)) = Some sqlchain →
  findUser (Transfer_Sender t) (Profile_Users sqlchain) 0 = Some (i, user) →
  Profile_TokenType sqlchain ≠ Transfer_TokenType t →
  transferSQLChainTokenBalance env s t = Return s (Some ErrWrongTokenType).
Proof.
  intros Hh Hl Hf Ht. unfold transferSQLChainTokenBalance.
  by rewrite Hh, Hl, Hf, decide_True.
Qed.

(** *** Database creation: a miner that does not resolve *)

Lemma resolveMiner_fails s sender gasPrice miner e :
  minerFails s sender gasPrice miner e → resolveMiner s sender gasPrice miner = inl e.
Proof.
  unfold resolveMiner. intros [Hl|po Hl Hu|po Hl Hu Hg]; rewrite Hl; [done| |].
  - by rewrite decide_True.
  - rewrite decide_False by (by intros ?).
    by rewrite (proj2 (Z.ltb_lt _ _) Hg).
Qed.

Lemma resolveMiner_resolves s sender gasPrice miner :
  minerResolves s sender gasPrice miner →
  ∃ info, resolveMiner s sender gasPrice miner = inr info.
Proof.
  unfold resolveMiner. intros (po & -> & Hu & Hg).
  rewrite decide_False by (by intros ?).
  rewrite (proj2 (Z.ltb_ge _ _) Hg). by eexists.
Qed.

(** The loop answers the error of the first miner that fails. *)
Lemma resolveMiners_first_failure s sender gasPrice before miner after e :
  Forall (minerResolves s sender gasPrice) before →
  minerFails s sender gasPrice miner e →
  resolveMiners s sender gasPrice (before ++ miner :: after) = inl e.
Proof.
  intros Hbefore Hfail. induction Hbefore as [|m before Hm _ IH]; simpl.
  - by rewrite (resolveMiner_fails _ _ _ _ _ Hfail).
  - destruct (resolveMiner_resolves _ _ _ _ Hm) as [info ->]. by rewrite IH.
Qed.

(** C5.  A CreateDatabase that passes the checks of the sender, of the gas
    price and of the advance payment, and whose target miners resolve up to
    one that fails, returns the error of that miner (NoSuchMiner for a
    missing profile, MinerUserNotMatch for a profile offered to another
    user, GasPriceMismatch for a profile above the gas price of the
    transaction), and the state is the one it started from: no provider
    profile, balance, account or database has changed.  So does [apply],
    once the nonce is the expected one. *)
Theorem createDatabase_miner_failure_is_atomic (env : Env) (s : metaState)
    (tx : CreateDatabase) (sender : AccountAddress)
    (before : list AccountAddress) (miner : AccountAddress) (after : list AccountAddress)
    (e : Error) :
  PubKeyHash env (CreateDatabase_Signee tx) = Some sender →
  sender = CreateDatabase_Owner tx →
  0 < CreateDatabase_GasPrice tx →
  minDeposit env (CreateDatabase_GasPrice tx)
             (Z.of_nat (length (TargetMiners (CreateDatabase_ResourceMeta tx))))
  ≤ CreateDatabase_AdvancePayment tx →
  TargetMiners (CreateDatabase_ResourceMeta tx) = before ++ miner :: after →
  Forall (minerResolves s sender (CreateDatabase_GasPrice tx)) before →
  minerFails s sender (CreateDatabase_GasPrice tx) miner e →
  matchProvidersWithUser env s tx = Return s (Some e) ∧
  ∀ h acc, loadAccountObject s (GetAccountAddress h) = Some acc →
           Account_NextNonce acc = GetAccountNonce h →
           apply env s (TxCreateDatabase h tx) = Return s (Some e).
Proof.
  intros Hhash Howner Hgas Hadv Htargets Hbefore Hfail.
  assert (matchProvidersWithUser env s tx = Return s (Some e)) as Hrun.
  { unfold matchProvidersWithUser. rewrite Hhash.
    rewrite decide_False by (by intros ?).
    rewrite (proj2 (Z.leb_gt _ _) Hgas), (proj2 (Z.ltb_ge _ _) Hadv).
    rewrite Htargets.
    by rewrite (resolveMiners_first_failure _ _ _ _ _ _ _ Hbefore Hfail). }
  split; [done|]. intros h acc Hacc Hnonce.
  rewrite (apply_found _ _ _ acc) by done. simpl.
  rewrite decide_False by (by intros ?). by rewrite Hrun.
Qed.

(** Scenario D of the specification: the targets are 7, which is offered,
    and 9, which is not. *)
Lemma createDatabase_miner_failure_is_atomic_witness :
  matchProvidersWithUser Samples.sampleEnv Samples.providerState (Samples.createWith [7; 9]%N)
  = Return Samples.providerState (Some ErrNoSuchMiner) ∧
  is_Some (loadProviderObject Samples.providerState 7%N) ∧
  balanceOf Samples.providerState 1%N Wave = 100.
Proof.
  split; [|split; [by eexists|reflexivity]].
  apply (createDatabase_miner_failure_is_atomic Samples.sampleEnv Samples.providerState
           (Samples.createWith [7; 9]%N) 1%N [7%N] 9%N [] ErrNoSuchMiner).
  - reflexivity.
  - reflexivity.
  - reflexivity.
  - vm_compute. discriminate.
  - reflexivity.
  - constructor; [|constructor].
    exists (mkProvider 7 0 0 0 1 10 1 "n7"). split; [reflexivity|].
    split; [reflexivity|]. simpl. lia.
  - by constructor.
Defined.

(** *** Database creation: what a success installs *)

Lemma decreaseAccountToken_success s k amount tokenType s1 :
  decreaseAccountToken s k amount tokenType = Return s1 None →
  ∃ acc, loadAccountObject s k = Some acc ∧
         amount ≤ balanceIn acc tokenType ∧
         (∀ a, loadAccountObject s1 a
               = if decide (k = a)
                 then Some (withBalance acc tokenType (balanceIn acc tokenType - amount))
                 else loadAccountObject s a) ∧
         databases (dirty s1) = databases (dirty s) ∧
         provider (dirty s1) = provider (dirty s) ∧
         ro_databases (readonly s1) = ro_databases (readonly s) ∧
         ro_provider (readonly s1) = ro_provider (readonly s).
Proof.
  unfold decreaseAccountToken.
  destruct (accountForWrite s k) as [[s0 [dst|]]|] eqn:Hw; [|done..].
  destruct (safeSub _ _) as [e|v] eqn:Hsub; [done|]. intros [= <-].
  apply safeSub_inr in Hsub as [-> Hle]. exists dst.
  pose proof Hw as (_ & Hdst & _)%accountForWrite_Some.
  split; [done|]. split; [done|]. split.
  - intros a. rewrite loadAccountObject_setDirtyAccount. case_decide; [done|].
    unfold accountForWrite in Hw.
    destruct (accounts (dirty s) !! k); [by injection Hw as <- _|].
    destruct (ro_accounts (readonly s) !! k); [|done]. injection Hw as <- _.
    by rewrite loadAccountObject_setDirtyAccount, decide_False.
  - unfold accountForWrite in Hw.
    destruct (accounts (dirty s) !! k); [by injection Hw as <- _|].
    destruct (ro_accounts (readonly s) !! k); [|done]. by injection Hw as <- _.
Qed.

Lemma loadOrStoreAccountObject_frame s k v :
  databases (dirty (loadOrStoreAccountObject s k v).1) = databases (dirty s) ∧
  provider (dirty (loadOrStoreAccountObject s k v).1) = provider (dirty s) ∧
  readonly (loadOrStoreAccountObject s k v).1 = readonly s.
Proof. unfold loadOrStoreAccountObject. by repeat case_match. Qed.

Lemma loadOrStoreSQLChainObject_frame s k v :
  accounts (dirty (loadOrStoreSQLChainObject s k v).1) = accounts (dirty s) ∧
  provider (dirty (loadOrStoreSQLChainObject s k v).1) = provider (dirty s) ∧
  readonly (loadOrStoreSQLChainObject s k v).1 = readonly s.
Proof. unfold loadOrStoreSQLChainObject. by repeat case_match. Qed.

(** What a lookup of [k] finds after [loadOrStoreSQLChainObject s k v], for
    a key that was not loaded: the new profile, unless a nil marker hides a
    readonly entry, in which case nothing was stored. *)
Lemma loadOrStoreSQLChainObject_fresh s k v :
  loadSQLChainObject s k = None →
  loadSQLChainObject (loadOrStoreSQLChainObject s k v).1 k
  = match ro_databases (readonly s) !! k with
    | Some _ => None
    | None => Some v
    end.
Proof.
  unfold loadSQLChainObject, loadOrStoreSQLChainObject.
  destruct (databases (dirty s) !! k) as [[o|]|] eqn:Hd; [done| |].
  - intros _. destruct (ro_databases (readonly s) !! k); simpl; [by rewrite Hd|].
    by rewrite lookup_insert_eq.
  - intros ->. simpl. by rewrite lookup_insert_eq.
Qed.

Lemma deleteProviders_frame s targets :
  accounts (dirty (foldl deleteProviderObject s targets)) = accounts (dirty s) ∧
  databases (dirty (foldl deleteProviderObject s targets)) = databases (dirty s) ∧
  readonly (foldl deleteProviderObject s targets) = readonly s.
Proof.
  revert s. induction targets as [|m rest IH]; intros s; simpl; [done|].
  destruct (IH (deleteProviderObject s m)) as (-> & -> & ->). done.
Qed.

Lemma deleteProviders_load s targets m :
  loadProviderObject (foldl deleteProviderObject s targets) m
  = if decide (m ∈ targets) then None else loadProviderObject s m.
Proof.
  revert s. induction targets as [|a rest IH]; intros s.
  - case_decide as Hin; [by apply elem_of_nil in Hin|done].
  - cbn [foldl]. rewrite IH.
    unfold loadProviderObject, deleteProviderObject, setDirtyProvider; simpl.
    destruct (decide (m ∈ rest)) as [Hin|Hnin].
    + by rewrite decide_True by (by right).
    + destruct (decide (a = m)) as [->|Hne].
      * rewrite lookup_insert_eq. by rewrite decide_True by left.
      * rewrite lookup_insert_ne by done.
        rewrite decide_False; [done|]. intros [?|?]%elem_of_cons; congruence.
Qed.

Lemma loadAccountObject_frame s s' :
  accounts (dirty s') = accounts (dirty s) → readonly s' = readonly s →
  ∀ a, loadAccountObject s' a = loadAccountObject s a.
Proof. intros Hd Hr a. unfold loadAccountObject. by rewrite Hd, Hr. Qed.

Lemma loadSQLChainObject_frame s s' :
  databases (dirty s') = databases (dirty s) →
  ro_databases (readonly s') = ro_databases (readonly s) →
  ∀ k, loadSQLChainObject s' k = loadSQLChainObject s k.
Proof. intros Hd Hr k. unfold loadSQLChainObject. by rewrite Hd, Hr. Qed.

(** The minimal deposit is the product of the gas price, the two configured
    factors and the number of miners, in 64 bits: each multiplication wraps
    and none is checked. *)
Lemma minDeposit_product env gasPrice minerNumber :
  minDeposit env gasPrice minerNumber
  = u64 (gasPrice * QPS env * UpdatePeriod env * minerNumber).
Proof.
  assert (∀ a b, u64 (u64 a * b) = u64 (a * b)) as Hl.
  { intros a b. unfold u64. by apply Z.mul_mod_idemp_l. }
  assert (∀ a b, u64 (a * u64 b) = u64 (a * b)) as Hr.
  { intros a b. unfold u64. by apply Z.mul_mod_idemp_r. }
  unfold minDeposit.
  rewrite (Hr gasPrice (QPS env)).
  rewrite (Hr (u64 (gasPrice * QPS env)) (UpdatePeriod env)).
  rewrite (Hl (gasPrice * QPS env) (UpdatePeriod env)).
  by rewrite (Hl (gasPrice * QPS env * UpdatePeriod env) minerNumber).
Qed.

(** Everything that a CreateDatabase which returns no error has done.  The
    profile [sp] is the one that the handler builds; it is stored unless the
    committed index holds a database under the new identifier, which the
    existence check does not see when a deletion marker covers it. *)
Lemma matchProvidersWithUser_success env s s' tx :
  matchProvidersWithUser env s tx = Return s' None →
  let sender := CreateDatabase_Owner tx in
  let targets := TargetMiners (CreateDatabase_ResourceMeta tx) in
  let minAdvance :=
    u64 (CreateDatabase_GasPrice tx * QPS env * UpdatePeriod env * Z.of_nat (length targets)) in
  let all := minAdvance + CreateDatabase_AdvancePayment tx in
  let dbID := FromAccountAndNonce env sender (u32 (CreateDatabase_Nonce tx)) in
  let tokenType := CreateDatabase_TokenType tx in
  PubKeyHash env (CreateDatabase_Signee tx) = Some sender ∧
  (∃ acc, loadAccountObject s sender = Some acc ∧
          all ≤ U64_MAX ∧ all ≤ balanceIn acc tokenType ∧
          loadAccountObject s' sender
          = Some (withBalance acc tokenType (balanceIn acc tokenType - all))) ∧
  loadSQLChainObject s dbID = None ∧
  (∃ sp, Profile_TokenType sp = Particle ∧
         Profile_Users sp
         = [mkUser sender Admin Normal minAdvance (CreateDatabase_AdvancePayment tx)] ∧
         Profile_Owner sp = sender ∧
         Profile_GasPrice sp = CreateDatabase_GasPrice tx ∧
         Profile_ID sp = dbID ∧
         loadSQLChainObject s' dbID
         = match ro_databases (readonly s) !! dbID with
           | Some _ => None
           | None => Some sp
           end) ∧
  (∀ m, m ∈ targets → loadProviderObject s' m = None).
Proof.
  intros Hrun sender targets minAdvance all dbID tokenType.
  unfold matchProvidersWithUser in Hrun.
  destruct (PubKeyHash env _) as [realSender|] eqn:Hhash; [|done].
  destruct (decide (realSender ≠ _)) as [|Heq%dec_stable]; [done|].
  subst realSender. fold sender in Hrun.
  destruct (_ <=? 0); [done|].
  fold targets in Hrun. rewrite minDeposit_product in Hrun. fold minAdvance in Hrun.
  destruct (_ <? minAdvance); [done|].
  destruct (resolveMiners _ _ _ _) as [|miners]; [done|].
  fold dbID in Hrun.
  destruct (DatabaseIDAccountAddress env dbID) as [dbAddr|]; [|done].
  destruct (safeAdd _ _) as [|all'] eqn:Hall; [done|].
  apply safeAdd_inr in Hall as [-> Hfits]. fold all tokenType in Hrun.
  destruct (decreaseAccountToken s sender all tokenType) as [s1 [|]|] eqn:Hdebit;
    [done| |done].
  apply decreaseAccountToken_success in Hdebit
    as (acc & Hacc & Hle & Hs1 & Hdb1 & Hpr1 & Hrodb1 & Hropr1).
  destruct (generateGenesisBlock env _ _) as [gb|]; [|done].
  destruct (EncodeMsgPack env gb) as [enc|]; [|done].
  destruct (loadSQLChainObject s1 dbID) eqn:Hfree; [done|].
  injection Hrun as <-.
  set (s2 := (loadOrStoreAccountObject s1 dbAddr (emptyAccount dbAddr)).1).
  set (sp := mkProfile _ _ _ _ _ _ _ _ _).
  set (s3 := (loadOrStoreSQLChainObject s2 dbID sp).1).
  destruct (loadOrStoreAccountObject_frame s1 dbAddr (emptyAccount dbAddr))
    as (Hdb2 & Hpr2 & Hro2). fold s2 in Hdb2, Hpr2, Hro2.
  destruct (loadOrStoreSQLChainObject_frame s2 dbID sp) as (Hac3 & Hpr3 & Hro3).
  fold s3 in Hac3, Hpr3, Hro3.
  destruct (deleteProviders_frame s3 targets) as (Hac4 & Hdb4 & Hro4).
  assert (loadSQLChainObject s2 dbID = None) as Hfree2.
  { rewrite <-Hfree. apply loadSQLChainObject_frame; [done|by rewrite Hro2]. }
  split; [done|]. split; [|split; [|split]].
  - exists acc. repeat split; try done.
    rewrite (loadAccountObject_frame s3) by done.
    rewrite (loadAccountObject_frame s2) by done.
    unfold s2. rewrite loadOrStoreAccountObject_load.
    case_decide as Hsame; [subst dbAddr|]; rewrite Hs1, decide_True by done; done.
  - rewrite <-Hfree. symmetry. by apply loadSQLChainObject_frame.
  - exists sp. repeat split.
    rewrite (loadSQLChainObject_frame s3) by (by rewrite ?Hro4).
    unfold s3. rewrite loadOrStoreSQLChainObject_fresh by done.
    by rewrite Hro2, Hrodb1.
  - intros m Hm. by rewrite deleteProviders_load, decide_True.
Qed.

(** C6 (amended).  After a CreateDatabase that returns no error, where no
    deletion marker covers a committed database of the new identifier: the
    signee hashes to the owner; with [min_advance] the product
    gas price × QPS × update period × number of target miners in 64 bits,
    that is modulo 2^64, the account of the owner is the former one with the
    single amount [min_advance + tx.advance_payment] (which fits 64 bits and
    the balance) taken from its balance in the token of the transaction; the
    profile installed under the new identifier is a Particle chain whatever
    the token of the transaction, with the one user
    [{owner, Admin, Normal, min_advance, tx.advance_payment}]; and no target
    miner has a provider profile any more. *)
Theorem createDatabase_success (env : Env) (s s' : metaState) (tx : CreateDatabase) :
  matchProvidersWithUser env s tx = Return s' None →
  ¬ (databases (dirty s)
       !! FromAccountAndNonce env (CreateDatabase_Owner tx) (u32 (CreateDatabase_Nonce tx))
     = Some None ∧
     is_Some (ro_databases (readonly s)
                !! FromAccountAndNonce env (CreateDatabase_Owner tx)
                                       (u32 (CreateDatabase_Nonce tx)))) →
  let sender := CreateDatabase_Owner tx in
  let targets := TargetMiners (CreateDatabase_ResourceMeta tx) in
  let minAdvance :=
    u64 (CreateDatabase_GasPrice tx * QPS env * UpdatePeriod env * Z.of_nat (length targets)) in
  let all := minAdvance + CreateDatabase_AdvancePayment tx in
  let dbID := FromAccountAndNonce env sender (u32 (CreateDatabase_Nonce tx)) in
  let tokenType := CreateDatabase_TokenType tx in
  PubKeyHash env (CreateDatabase_Signee tx) = Some sender ∧
  (∃ acc, loadAccountObject s sender = Some acc ∧
          all ≤ U64_MAX ∧ all ≤ balanceIn acc tokenType ∧
          loadAccountObject s' sender
          = Some (withBalance acc tokenType (balanceIn acc tokenType - all))) ∧
  (∃ p, loadSQLChainObject s' dbID = Some p ∧
        Profile_TokenType p = Particle ∧
        Profile_Users p
        = [mkUser sender Admin Normal minAdvance (CreateDatabase_AdvancePayment tx)] ∧
        Profile_Owner p = sender ∧
        Profile_GasPrice p = CreateDatabase_GasPrice tx ∧
        Profile_ID p = dbID) ∧
  (∀ m, m ∈ targets → loadProviderObject s' m = None).
Proof.
  intros Hrun Hmarker sender targets minAdvance all dbID tokenType.
  destruct (matchProvidersWithUser_success env s s' tx Hrun)
    as (Hsender & Hdebit & Hfree & (sp & HT & HU & HO & HG & HI & Hsp) & Hproviders).
  split; [done|]. split; [done|]. split; [|done].
  exists sp. split; [|done].
  fold sender dbID in Hmarker, Hfree, Hsp. rewrite Hsp.
  destruct (ro_databases (readonly s) !! dbID) as [old|] eqn:Hold; [|done].
  exfalso. apply Hmarker. split; [|by eexists].
  unfold loadSQLChainObject in Hfree. rewrite Hold in Hfree.
  by destruct (databases (dirty s) !! dbID) as [[?|]|].
Qed.

(** Scenario C of the specification, paid in Wave: user 1 takes the two
    offers, pays 2 + 5 of its 100 Wave, and the chain is a Particle chain. *)
Lemma createDatabase_success_witness :
  ∃ s', matchProvidersWithUser Samples.sampleEnv Samples.providerState
                               (Samples.createWith [7; 8]%N) = Return s' None ∧
        balanceOf s' 1%N Wave = 93 ∧
        (∃ p, loadSQLChainObject s' "1:0" = Some p ∧
              Profile_TokenType p = Particle ∧
              Profile_Users p = [mkUser 1 Admin Normal 2 5]) ∧
        loadProviderObject s' 7%N = None ∧ loadProviderObject s' 8%N = None.
Proof.
  eexists. split; [vm_compute; reflexivity|].
  destruct (createDatabase_success Samples.sampleEnv Samples.providerState _
              (Samples.createWith [7; 8]%N) eq_refl)
    as (_ & _ & (p & Hp & HT & HU & _) & Hproviders).
  - intros [Hmarker _]. vm_compute in Hmarker. discriminate.
  - split; [reflexivity|]. split; [exists p; split; [exact Hp|split; [exact HT|exact HU]]|].
    split; apply Hproviders; [left|right; left].
Defined.

(** The claim as it is written fails where the product does not fit 64 bits.
    At gas price 2^63 with two target miners the product is 2^64: the
    minimal advance of the code is 0, the advance payment 5 passes the test,
    the owner pays 5 and not 2^64 + 5, and the deposit of the one user is 0
    and not the product. *)
Lemma createDatabase_min_advance_wraps :
  CreateDatabase_GasPrice Samples.wrappingCreate
  * QPS Samples.sampleEnv * UpdatePeriod Samples.sampleEnv
  * Z.of_nat (length (TargetMiners (CreateDatabase_ResourceMeta Samples.wrappingCreate)))
  = 2 ^ 64 ∧
  balanceOf Samples.providerState 1%N Wave = 100 ∧
  ∃ s' p, matchProvidersWithUser Samples.sampleEnv Samples.providerState
                                 Samples.wrappingCreate = Return s' None ∧
          balanceOf s' 1%N Wave = 95 ∧
          balanceOf s' 1%N Wave ≠ 100 - (2 ^ 64 + 5) ∧
          loadSQLChainObject s' "1:0" = Some p ∧
          Profile_Users p = [mkUser 1 Admin Normal 0 5] ∧
          User_Deposit <$> Profile_Users p ≠ [2 ^ 64].
Proof.
  split; [reflexivity|]. split; [reflexivity|].
  eexists _, _. split; [vm_compute; reflexivity|].
  split; [reflexivity|]. split; [by vm_compute|].
  split; [vm_compute; reflexivity|]. split; [reflexivity|]. by vm_compute.
Qed.

(** *** Billing of a chain *)

(** The first loop of [updateBilling] is a search for the sender among the
    miners and a settlement of each miner. *)
Lemma settleMiners_spec minerAddr miners isMiner :
  settleMiners minerAddr miners isMiner
  = (isMiner || bool_decide (minerAddr ∈ Miner_Address <$> miners), settled <$> miners).
Proof.
  revert isMiner. induction miners as [|miner rest IH]; intros isMiner.
  - cbn [settleMiners]. f_equal.
    rewrite bool_decide_eq_false_2 by apply not_elem_of_nil. by rewrite orb_false_r.
  - cbn [settleMiners]. rewrite IH. rewrite !fmap_cons. f_equal.
    rewrite <-orb_assoc. f_equal.
    destruct (decide (Miner_Address miner = minerAddr)) as [<-|Hne].
    + rewrite (bool_decide_eq_true_2 (Miner_Address miner = Miner_Address miner)) by done.
      rewrite orb_true_l. symmetry. apply bool_decide_eq_true_2. left.
    + rewrite (bool_decide_eq_false_2 (Miner_Address miner = minerAddr)) by done.
      rewrite orb_false_l. apply bool_decide_ext. rewrite elem_of_cons.
      split; [by right|]. intros [?|?]; [congruence|done].
Qed.

(** The billing of the users leaves the address and the received income of
    every miner alone. *)
Lemma billUser_miners env gasPrice costMap userMap user miners :
  Forall2 sameMiner miners (billUser env gasPrice costMap userMap user miners).2.
Proof.
  unfold billUser. case_match; simpl; apply Forall2_fmap_r, Forall_Forall2_diag, Forall_true;
    by intros m.
Qed.

Lemma billUsers_miners env gasPrice costMap userMap users miners :
  Forall2 sameMiner miners (billUsers env gasPrice costMap userMap users miners).2.
Proof.
  revert miners. induction users as [|user rest IH]; intros miners; simpl.
  - apply Forall_Forall2_diag, Forall_true. by intros m.
  - pose proof (billUser_miners env gasPrice costMap userMap user miners) as H1.
    destruct (billUser _ _ _ _ _ _) as [user' miners']; simpl in H1.
    specialize (IH miners').
    destruct (billUsers _ _ _ _ _ _) as [rest' miners'']; simpl in *.
    eapply Forall2_trans; [|done..].
    intros m1 m2 m3 [? ?] [? ?]. split; congruence.
Qed.

(** C8, as the code has it.  For an UpdateBilling whose chain is found: with
    gas price 0 it returns at once, whoever sent it, and nothing is billed
    or settled; otherwise a sender that is no miner of the chain is refused
    with InvalidSender and the state is as it was; otherwise the profile
    written back is the result of billing the users over the settled miners
    (the pending income rolled into the received income and set to 0), so
    that every miner ends with its former received income plus its former
    pending income, cut to 64 bits. *)
Theorem updateBilling_order (env : Env) (s : metaState) (sender : AccountAddress)
    (tx : UpdateBilling) (p : SQLChainProfile) :
  let dbID := AddressDatabaseID env (UpdateBilling_Receiver tx) in
  loadSQLChainObject s dbID = Some p →
  (Profile_GasPrice p = 0 → updateBilling env s sender tx = Return s None) ∧
  (Profile_GasPrice p ≠ 0 → sender ∉ Miner_Address <$> Profile_Miners p →
   updateBilling env s sender tx = Return s (Some ErrInvalidSender)) ∧
  (Profile_GasPrice p ≠ 0 → sender ∈ Miner_Address <$> Profile_Miners p →
   ∃ users miners,
     updateBilling env s sender tx
     = Return (setDirtyDatabase s dbID (Some (withMiners (withUsers p users) miners))) None ∧
     (users, miners)
     = billUsers env (Profile_GasPrice p) (collectCosts (UpdateBilling_Users tx)).1
                 (collectCosts (UpdateBilling_Users tx)).2 (Profile_Users p)
                 (settled <$> Profile_Miners p) ∧
     Forall2 (λ m m', Miner_Address m' = Miner_Address m ∧
                      Miner_ReceivedIncome m'
                      = u64 (Miner_ReceivedIncome m + Miner_PendingIncome m))
             (Profile_Miners p) miners).
Proof.
  intros dbID Hload. unfold updateBilling. fold dbID. rewrite Hload.
  rewrite settleMiners_spec. simpl. split; [|split].
  - intros ->. done.
  - intros Hgas Hnot. rewrite (proj2 (Z.eqb_neq _ _) Hgas).
    by rewrite bool_decide_eq_false_2.
  - intros Hgas Hin. rewrite (proj2 (Z.eqb_neq _ _) Hgas).
    rewrite bool_decide_eq_true_2 by done.
    destruct (collectCosts _) as [costMap userMap]. simpl.
    pose proof (billUsers_miners env (Profile_GasPrice p) costMap userMap (Profile_Users p)
                  (settled <$> Profile_Miners p)) as Hsame.
    destruct (billUsers _ _ _ _ _ _) as [users miners]. simpl in Hsame.
    exists users, miners. split; [done|]. split; [done|].
    rewrite Forall2_fmap_l in Hsame. eapply Forall2_impl; [exact Hsame|].
    intros m m' [Haddr Hrecv]. split; [exact Haddr|exact Hrecv].
Qed.

(** The claim as written fails on a chain whose gas price is 0: address 9 is
    not a miner of the chain of [freeChainState], its UpdateBilling is
    accepted, and the miner keeps its pending income of 3. *)
Lemma updateBilling_free_chain_accepts_anyone :
  updateBilling Samples.sampleEnv Samples.freeChainState 9%N Samples.emptyBilling
  = Return Samples.freeChainState None ∧
  (Profile_Miners <$> loadSQLChainObject Samples.freeChainState "5")
  = Some [mkMiner 7 "miner" 10 EmptyString 3 1 []].
Proof. split; vm_compute; reflexivity. Qed.

Lemma updateBilling_order_witness :
  ∃ users miners,
    updateBilling Samples.sampleEnv Samples.chainState 7%N Samples.emptyBilling
    = Return (setDirtyDatabase Samples.chainState "5"
                (Some (withMiners (withUsers Samples.chainProfile users) miners))) None ∧
    Forall2 (λ m m', Miner_Address m' = Miner_Address m ∧
                     Miner_ReceivedIncome m'
                     = u64 (Miner_ReceivedIncome m + Miner_PendingIncome m))
            (Profile_Miners Samples.chainProfile) miners.
Proof.
  destruct (updateBilling_order Samples.sampleEnv Samples.chainState 7%N Samples.emptyBilling
              Samples.chainProfile eq_refl) as (_ & _ & Hbill).
  destruct Hbill as (users & miners & Hrun & _ & Hsettled).
  - done.
  - simpl. left.
  - exists users, miners. split; [exact Hrun|exact Hsettled].
Defined.

(** *** Removing a user of a chain *)

(** Rounds over users that do not match change nothing. *)
Lemma deleteUserLoop_skip addr front before tail todo len :
  Forall (λ u, User_Address u ≠ addr) before →
  deleteUserLoop addr (seq (length front) (length before) ++ todo)
                 (front ++ (Some <$> before) ++ tail) len
  = deleteUserLoop addr todo (front ++ (Some <$> before) ++ tail) len.
Proof.
  intros Hbefore. revert front.
  induction Hbefore as [|u before Hu _ IH]; intros front; [done|].
  cbn [length seq app deleteUserLoop].
  rewrite lookup_app_r by done. rewrite Nat.sub_diag. simpl.
  rewrite decide_False by done.
  specialize (IH (front ++ [Some u])).
  rewrite length_app, Nat.add_1_r, <-!(assoc_L (++)) in IH. exact IH.
Qed.

Lemma deleteUserLoop_skip_front addr before tail todo len :
  Forall (λ u, User_Address u ≠ addr) before →
  deleteUserLoop addr (seq 0 (length before) ++ todo) ((Some <$> before) ++ tail) len
  = deleteUserLoop addr todo ((Some <$> before) ++ tail) len.
Proof. intros Hbefore. exact (deleteUserLoop_skip addr [] before tail todo len Hbefore). Qed.

(** Once the last slot of the backing array is nil, the loop cannot reach
    its end: every round up to the last panics or goes on, and the last one
    dereferences the nil pointer. *)
Lemma deleteUserLoop_nil_last addr k i backing len :
  backing !! (i + k)%nat = Some None →
  length backing = S (i + k) →
  deleteUserLoop addr (seq i (S k)) backing len = None.
Proof.
  revert i backing len. induction k as [|k IH]; intros i backing len Hlast Hlen.
  - rewrite Nat.add_0_r in Hlast. simpl. by rewrite Hlast.
  - cbn [seq deleteUserLoop].
    destruct (backing !! i) as [[v|]|]; [|done..].
    assert (i + S k = S i + k)%nat as Hidx by lia.
    case_decide; [|apply IH; [by rewrite <-Hidx|lia]].
    destruct len as [|last]; [done|]. case_decide; [|done].
    apply IH; [|rewrite !length_insert; lia].
    destruct (decide (last = S i + k)%nat) as [->|Hne].
    + apply list_lookup_insert_eq. rewrite length_insert. lia.
    + rewrite list_lookup_insert_ne by done.
      rewrite list_lookup_insert_ne by lia. by rewrite <-Hidx.
Qed.

(** The round of a user that matches, inside the current length. *)
Lemma deleteUserLoop_match addr i rest backing last v :
  backing !! i = Some (Some v) → User_Address v = addr → (i < S last)%nat →
  deleteUserLoop addr (i :: rest) backing (S last)
  = deleteUserLoop addr rest (<[last:=None]> (<[i:=default None (backing !! last)]> backing))
                   last.
Proof.
  intros Hv Haddr Hlt. cbn [deleteUserLoop]. rewrite Hv.
  by rewrite !decide_True by done.
Qed.

(** C10 (the code departs from it).  When the chain is loaded and the first
    user at the address to remove is not the last of the list, the loop
    moves the last pointer into its place, sets the last slot to nil, and
    goes on over the slots that [range] fixed at entry: it then reads the
    nil pointer, and [deleteSQLChainUser] panics. *)
Theorem deleteSQLChainUser_panics_before_last (s : metaState) (k : DatabaseID)
    (addr : AccountAddress) (dst : SQLChainProfile)
    (before : list SQLChainUser) (user : SQLChainUser) (after : list SQLChainUser) :
  loadSQLChainObject s k = Some dst →
  Profile_Users dst = before ++ user :: after →
  Forall (λ u, User_Address u ≠ addr) before →
  User_Address user = addr →
  after ≠ [] →
  deleteSQLChainUser s k addr = Panicked.
Proof.
  intros Hload Husers Hbefore Huser Hafter. unfold deleteSQLChainUser.
  assert (∃ s1, databaseForWrite s k = Some (s1, Some dst)) as [s1 ->].
  { unfold databaseForWrite, loadSQLChainObject in *.
    destruct (databases (dirty s) !! k) as [o|]; [subst o; by eexists|].
    rewrite Hload. by eexists. }
  rewrite Husers.
  destruct after as [|next after]; [done|].
  set (n := length before). set (m := length after).
  assert (length (before ++ user :: next :: after) = S (n + S m)) as ->.
  { rewrite length_app. simpl. lia. }
  assert (seq 0 (S (n + S m)) = seq 0 n ++ n :: seq (S n) (S m)) as ->.
  { replace (S (n + S m)) with (n + S (S m))%nat by lia. by rewrite seq_app. }
  rewrite fmap_app. unfold n at 1.
  rewrite deleteUserLoop_skip_front by done. fold n.
  assert (length ((Some <$> before) ++ (Some <$> user :: next :: after)) = S (n + S m))
    as Hlen.
  { rewrite length_app, !length_fmap. simpl. lia. }
  rewrite (deleteUserLoop_match addr n _ _ (n + S m) user); [|  |done|lia].
  - rewrite deleteUserLoop_nil_last; [done| |].
    + replace (S n + m)%nat with (n + S m)%nat by lia.
      apply list_lookup_insert_eq. rewrite length_insert. lia.
    + rewrite !length_insert. lia.
  - rewrite lookup_app_r by (by rewrite length_fmap).
    by rewrite length_fmap, Nat.sub_diag.
Qed.

(** The chain of [chainState] has two users: removing the first panics. *)
Lemma deleteSQLChainUser_panics_before_last_witness :
  (User_Address <$> Profile_Users Samples.chainProfile) = [1%N; 5%N] ∧
  deleteSQLChainUser Samples.chainState "5" Samples.firstUser = Panicked.
Proof.
  split; [reflexivity|].
  apply (deleteSQLChainUser_panics_before_last Samples.chainState "5" Samples.firstUser
           Samples.chainProfile [] (mkUser 1 Admin Normal 1 1) [mkUser 5 Read Normal 0 0]).
  - reflexivity.
  - reflexivity.
  - constructor.
  - reflexivity.
  - discriminate.
Defined.

(** Removing the last user, or an address that is not a user, returns. *)
Lemma deleteSQLChainUser_last_user :
  ∃ s', deleteSQLChainUser Samples.chainState "5" 5%N = Return s' None ∧
        (Profile_Users <$> loadSQLChainObject s' "5") = Some [mkUser 1 Admin Normal 1 1].
Proof. eexists. split; vm_compute; reflexivity. Qed.

(** ** Further properties of blockproducer/metastate.go *)

(** *** commit and the loaders *)

(** X1.  [commit] is invisible to the loaders: what a lookup of an account,
    of a database or of a provider answers after [commit] is what it
    answered before. *)
Theorem commit_keeps_every_lookup (s : metaState) :
  (∀ k, loadAccountObject (commit s) k = loadAccountObject s k) ∧
  (∀ k, loadSQLChainObject (commit s) k = loadSQLChainObject s k) ∧
  (∀ k, loadProviderObject (commit s) k = loadProviderObject s k).
Proof.
  unfold loadAccountObject, loadSQLChainObject, loadProviderObject.
  repeat split; intros k; simpl; rewrite lookup_empty, commitMap_lookup;
    by repeat case_match.
Qed.

(** X2.  The balance queries agree with the lookup of the account, except
    under a deletion marker that hides a committed account: the lookup does
    not find the account, the queries still report its committed balance;
    and they report [(0, false)] exactly for a key of neither map or a
    marker over nothing. *)
Theorem balance_queries_and_lookup (s : metaState) (addr : AccountAddress) :
  (∀ acc, loadAccountObject s addr = Some acc →
          loadAccountStableBalance s addr = (balanceIn acc Particle, true) ∧
          loadAccountCovenantBalance s addr = (balanceIn acc Wave, true)) ∧
  (∀ acc, accounts (dirty s) !! addr = Some None →
          ro_accounts (readonly s) !! addr = Some acc →
          loadAccountObject s addr = None ∧
          loadAccountStableBalance s addr = (balanceIn acc Particle, true) ∧
          loadAccountCovenantBalance s addr = (balanceIn acc Wave, true)) ∧
  (ro_accounts (readonly s) !! addr = None → loadAccountObject s addr = None →
   loadAccountStableBalance s addr = (0, false) ∧
   loadAccountCovenantBalance s addr = (0, false)).
Proof.
  unfold loadAccountObject, loadAccountStableBalance, loadAccountCovenantBalance.
  split; [|split].
  - intros acc. destruct (accounts (dirty s) !! addr) as [[o|]|]; [by intros [= ->]|done|].
    by intros ->.
  - intros acc -> ->. done.
  - intros ->. by destruct (accounts (dirty s) !! addr) as [[o|]|].
Qed.

Lemma balance_queries_and_lookup_witness :
  loadAccountObject (deleteAccountObject Samples.oneAccountState 1%N) 1%N = None ∧
  loadAccountStableBalance (deleteAccountObject Samples.oneAccountState 1%N) 1%N = (100, true).
Proof.
  destruct (proj1 (proj2 (balance_queries_and_lookup
                            (deleteAccountObject Samples.oneAccountState 1%N) 1%N))
                  (mkAccount 1 0 (mkBalances 100 0)) eq_refl eq_refl) as (Hnone & Hbal & _).
  split; [exact Hnone|exact Hbal].
Defined.

(** *** Balance updates *)

Lemma accountForWrite_lookups s k s1 o :
  accountForWrite s k = Some (s1, o) →
  (∀ a, loadAccountObject s1 a = loadAccountObject s a) ∧
  accounts (dirty s1) !! k = Some o ∧
  loadAccountObject s k = o ∧
  databases (dirty s1) = databases (dirty s) ∧
  provider (dirty s1) = provider (dirty s) ∧
  readonly s1 = readonly s.
Proof.
  unfold accountForWrite.
  destruct (accounts (dirty s) !! k) as [dst|] eqn:Hd.
  - intros [= <- <-]. unfold loadAccountObject. by rewrite Hd.
  - destruct (ro_accounts (readonly s) !! k) as [src|] eqn:Hr; [|done].
    intros [= <- <-]. repeat split; try done.
    + intros a. rewrite loadAccountObject_setDirtyAccount.
      case_decide; [subst a|done]. unfold loadAccountObject. by rewrite Hd, Hr.
    + simpl. apply lookup_insert_eq.
    + unfold loadAccountObject. by rewrite Hd, Hr.
Qed.






(** *** Transfers that fail, and the transfer of the stable token *)

Lemma balanceOf_loadOrStoreAccountObject s k v a t :
  balanceIn v t = 0 →
  balanceOf (loadOrStoreAccountObject s k v).1 a t = balanceOf s a t.
Proof.
  intros Hv. unfold balanceOf. rewrite loadOrStoreAccountObject_load.
  case_decide; [subst a|done].
  destruct (loadAccountObject s k); [done|].
  by destruct (ro_accounts (readonly s) !! k).
Qed.

(** X5.  An account transfer that returns an error has moved nothing: the
    balance of every account in every token is what it was, and the
    committed index is untouched.  (The empty account of the receiver may
    have been created on the way.) *)
Theorem transferAccountToken_failure_moves_nothing (env : Env) (s s' : metaState)
    (t : Transfer) (e : Error) :
  transferAccountToken env s t = Return s' (Some e) →
  (∀ a tokenType, balanceOf s' a tokenType = balanceOf s a tokenType) ∧
  readonly s' = readonly s ∧
  (∀ a, a ≠ Transfer_Receiver t → loadAccountObject s' a = loadAccountObject s a).
Proof.
  intros [_ [->| ->]]%transferAccountToken_error; [done|].
  split; [|split].
  - intros a tokenType. apply balanceOf_loadOrStoreAccountObject, balanceIn_emptyAccount.
  - apply loadOrStoreAccountObject_frame.
  - intros a Ha. rewrite loadOrStoreAccountObject_load. by rewrite decide_False.
Qed.

Lemma transferAccountToken_failure_moves_nothing_witness :
  ∃ s', transferAccountToken Samples.sampleEnv Samples.oneAccountState
                             (mkTransfer 1 2 101 Particle (Some 1%N))
        = Return s' (Some ErrInsufficientBalance) ∧
        balanceOf s' 1%N Particle = 100 ∧ balanceOf s' 2%N Particle = 0 ∧
        loadAccountObject s' 2%N = Some (emptyAccount 2).
Proof.
  eexists. split; [vm_compute; reflexivity|].
  destruct (transferAccountToken_failure_moves_nothing Samples.sampleEnv
              Samples.oneAccountState _ (mkTransfer 1 2 101 Particle (Some 1%N))
              ErrInsufficientBalance eq_refl) as (Hbal & _ & _).
  split; [exact (Hbal 1%N Particle)|]. split; [exact (Hbal 2%N Particle)|reflexivity].
Defined.

(** X6.  [transferAccountStableBalance] is the account transfer of Particle
    for a signee whose address is the sender. *)
Theorem transferAccountStableBalance_is_particle_transfer (env : Env) (s : metaState)
    (sender receiver : AccountAddress) (amount : Z) (signee : option PublicKey) :
  PubKeyHash env signee = Some sender →
  transferAccountStableBalance s sender receiver amount
  = transferAccountToken env s (mkTransfer sender receiver amount Particle signee).
Proof.
  intros Hhash. unfold transferAccountStableBalance, transferAccountToken; simpl.
  rewrite Hhash. by rewrite (decide_False (P := sender ≠ sender)) by (by intros ?).
Qed.

Lemma transferAccountStableBalance_is_particle_transfer_witness :
  ∃ s', transferAccountStableBalance Samples.oneAccountState 1%N 2%N 30 = Return s' None ∧
        balanceOf s' 1%N Particle = 70 ∧ balanceOf s' 2%N Particle = 30.
Proof.
  rewrite (transferAccountStableBalance_is_particle_transfer Samples.sampleEnv
             Samples.oneAccountState 1%N 2%N 30 (Some 1%N) eq_refl).
  eexists. split; [vm_compute; reflexivity|]. split; reflexivity.
Defined.

(** *** Bootstrap accounts and the committed index *)

Lemma loadOrStoreAccountObject_InReadonly s k v :
  (accounts (dirty s) !! k = None ∨ accounts (dirty s) !! k = Some None) →
  ∀ ao, ro_accounts (readonly s) !! k = Some ao →
        loadOrStoreAccountObject s k v = (s, Some (InReadonly, ao)).
Proof.
  unfold loadOrStoreAccountObject. by intros [-> | ->] ao ->.
Qed.

(** X7.  A BaseAccount for an address that is only in the committed index,
    with nonce 0, is merged into the committed object itself: with sums that
    fit, the readonly account has the two sums afterwards and the dirty
    index is as it was, so that [clean] does not take the merge back. *)
Theorem storeBaseAccount_writes_committed_account (s : metaState) (k : AccountAddress)
    (v ao : Account) :
  accounts (dirty s) !! k = None →
  ro_accounts (readonly s) !! k = Some ao →
  Account_NextNonce ao = 0 →
  balanceIn ao Wave + balanceIn v Wave ≤ U64_MAX →
  balanceIn ao Particle + balanceIn v Particle ≤ U64_MAX →
  let merged := mkAccount (Account_Address ao) 0
                          (mkBalances (balanceIn ao Particle + balanceIn v Particle)
                                      (balanceIn ao Wave + balanceIn v Wave)) in
  ∃ s', storeBaseAccount s k v = Return s' None ∧
        dirty s' = dirty s ∧
        ro_accounts (readonly s') !! k = Some merged ∧
        loadAccountObject (clean s') k = Some merged.
Proof.
  intros Hd Hr Hnonce Hw Hp merged. unfold storeBaseAccount.
  rewrite (loadOrStoreAccountObject_InReadonly s k v (or_introl Hd) ao Hr).
  rewrite decide_False by (by intros ?). unfold safeAdd, balanceIn in *.
  rewrite (proj2 (Z.ltb_ge _ _) Hw), (proj2 (Z.ltb_ge _ _) Hp).
  assert (withBalance (withBalance ao Wave
            (getBalance (Account_TokenBalance ao) Wave + getBalance (Account_TokenBalance v) Wave))
            Particle
            (getBalance (Account_TokenBalance ao) Particle
             + getBalance (Account_TokenBalance v) Particle) = merged) as ->.
  { unfold merged, withBalance; simpl. by rewrite Hnonce. }
  eexists. split; [done|]. split; [done|].
  split; [simpl; apply lookup_insert_eq|].
  unfold loadAccountObject; simpl. rewrite lookup_empty. apply lookup_insert_eq.
Qed.

Lemma storeBaseAccount_writes_committed_account_witness :
  ∃ s', storeBaseAccount Samples.oneAccountState 1%N (mkAccount 1 0 (mkBalances 5 7))
        = Return s' None ∧
        loadAccountObject (clean s') 1%N = Some (mkAccount 1 0 (mkBalances 105 7)).
Proof.
  destruct (storeBaseAccount_writes_committed_account Samples.oneAccountState 1%N
              (mkAccount 1 0 (mkBalances 5 7)) (mkAccount 1 0 (mkBalances 100 0))
              eq_refl eq_refl eq_refl) as (s' & Hrun & _ & _ & Hclean).
  - vm_compute. discriminate.
  - vm_compute. discriminate.
  - exists s'. split; [exact Hrun|exact Hclean].
Defined.

(** X8.  A BaseAccount for a key of neither map installs the declared
    account as it is, nonce included; one for an account that is there with
    a non-zero nonce, be it hidden by a deletion marker, is refused with
    AccountExists and the state is as it was. *)
Theorem storeBaseAccount_fresh_or_used (s : metaState) (k : AccountAddress) (v : Account) :
  (accounts (dirty s) !! k = None → ro_accounts (readonly s) !! k = None →
   storeBaseAccount s k v = Return (setDirtyAccount s k (Some v)) None) ∧
  (∀ ao, loadAccountObject s k = Some ao ∨
         (accounts (dirty s) !! k = Some None ∧ ro_accounts (readonly s) !! k = Some ao) →
         Account_NextNonce ao ≠ 0 →
         storeBaseAccount s k v = Return s (Some ErrAccountExists)).
Proof.
  unfold storeBaseAccount, loadOrStoreAccountObject, loadAccountObject. split.
  - by intros -> ->.
  - intros ao Hao Hnonce.
    destruct (accounts (dirty s) !! k) as [[o|]|] eqn:Hd.
    + destruct Hao as [[= ->]|[? _]]; [|done]. by rewrite decide_True.
    + destruct Hao as [?|[_ ->]]; [done|]. by rewrite decide_True.
    + destruct Hao as [->|[? _]]; [|done]. by rewrite decide_True.
Qed.

Lemma storeBaseAccount_fresh_or_used_witness :
  storeBaseAccount Samples.lastNonceState 1%N (mkAccount 1 0 (mkBalances 5 7))
  = Return Samples.lastNonceState (Some ErrAccountExists).
Proof.
  apply (proj2 (storeBaseAccount_fresh_or_used Samples.lastNonceState 1%N
                  (mkAccount 1 0 (mkBalances 5 7)))
               (mkAccount 1 4294967295 (mkBalances 100 0))).
  - left. reflexivity.
  - simpl. discriminate.
Defined.

(** *** Copy on write *)

Lemma keepsReadonly_after s s1 o :
  readonly s1 = readonly s → keepsReadonly s1 o → keepsReadonly s o.
Proof. intros Hro. destruct o; simpl; congruence. Qed.

Lemma readonly_accountForWrite s k s1 o :
  accountForWrite s k = Some (s1, o) → readonly s1 = readonly s.
Proof. by intros (_ & _ & _ & _ & _ & ?)%accountForWrite_lookups. Qed.

Lemma keepsReadonly_increaseAccountToken s k amount tokenType :
  keepsReadonly s (increaseAccountToken s k amount tokenType).
Proof.
  unfold increaseAccountToken.
  destruct (accountForWrite s k) as [[s1 [dst|]]|] eqn:Hw; [|done..].
  apply readonly_accountForWrite in Hw. by destruct (safeAdd _ _).
Qed.

Lemma keepsReadonly_decreaseAccountToken s k amount tokenType :
  keepsReadonly s (decreaseAccountToken s k amount tokenType).
Proof.
  unfold decreaseAccountToken.
  destruct (accountForWrite s k) as [[s1 [dst|]]|] eqn:Hw; [|done..].
  apply readonly_accountForWrite in Hw. by destruct (safeSub _ _).
Qed.

Lemma keepsReadonly_transferAccountToken env s t :
  keepsReadonly s (transferAccountToken env s t).
Proof.
  unfold transferAccountToken.
  destruct (loadOrStoreAccountObject_frame s (Transfer_Receiver t)
              (emptyAccount (Transfer_Receiver t))) as (_ & _ & Hro).
  repeat case_match; simpl; done.
Qed.

Lemma keepsReadonly_applyBillingFrom s receivers fees rewards i :
  keepsReadonly s (applyBillingFrom s receivers fees rewards i).
Proof.
  revert s i. induction receivers as [|[v|] rest IH]; intros s i; simpl; [done| |done].
  destruct (loadOrStoreAccountObject_frame s v (emptyAccount v)) as (_ & _ & Hro).
  eapply keepsReadonly_after; [exact Hro|].
  set (s1 := (loadOrStoreAccountObject s v _).1).
  destruct (fees !! i) as [fee|]; [|done].
  pose proof (keepsReadonly_increaseAccountToken s1 v fee Wave) as Hfee.
  unfold increaseAccountCovenantBalance.
  destruct (increaseAccountToken s1 v fee Wave) as [s2 [e|]|]; [done| |done].
  eapply keepsReadonly_after; [exact Hfee|].
  destruct (rewards !! i) as [reward|]; [|done].
  pose proof (keepsReadonly_increaseAccountToken s2 v reward Particle) as Hreward.
  unfold increaseAccountStableBalance.
  destruct (increaseAccountToken s2 v reward Particle) as [s3 [e|]|]; [done| |done].
  eapply keepsReadonly_after; [exact Hreward|]. apply IH.
Qed.

Lemma keepsReadonly_updateProviderList env s tx :
  keepsReadonly s (updateProviderList env s tx).
Proof.
  unfold updateProviderList. destruct (PubKeyHash env _) as [sender|]; [|done].
  unfold decreaseAccountStableBalance.
  pose proof (keepsReadonly_decreaseAccountToken s sender (MinProviderDeposit env) Particle)
    as Hdebit.
  destruct (decreaseAccountToken _ _ _ _) as [s1 [e|]|]; [done| |done].
  simpl in *. rewrite <-Hdebit. unfold loadOrStoreProviderObject. by repeat case_match.
Qed.

Lemma keepsReadonly_matchProvidersWithUser env s tx :
  keepsReadonly s (matchProvidersWithUser env s tx).
Proof.
  unfold matchProvidersWithUser.
  destruct (PubKeyHash env _) as [sender|]; [|done].
  case_decide; [done|]. case_match; [done|]. case_match; [done|].
  destruct (resolveMiners _ _ _ _) as [e|miners]; [done|].
  destruct (DatabaseIDAccountAddress env _) as [dbAddr|]; [|done].
  destruct (safeAdd _ _) as [e|all]; [done|].
  pose proof (keepsReadonly_decreaseAccountToken s sender all (CreateDatabase_TokenType tx))
    as Hdebit.
  destruct (decreaseAccountToken _ _ _ _) as [s1 [e|]|]; [done| |done].
  destruct (generateGenesisBlock env _ _) as [gb|]; [|done].
  destruct (EncodeMsgPack env gb) as [enc|]; [|done].
  destruct (loadSQLChainObject s1 _); [done|]. simpl in *.
  rewrite (proj2 (proj2 (deleteProviders_frame _ _))).
  rewrite (proj2 (proj2 (loadOrStoreSQLChainObject_frame _ _ _))).
  rewrite (proj2 (proj2 (loadOrStoreAccountObject_frame _ _ _))).
  done.
Qed.

Lemma keepsReadonly_applyTransaction env s tx :
  appliesBaseAccount tx = false → keepsReadonly s (applyTransaction env s tx).
Proof.
  induction tx as [h t|h t|h t|h t|h t|h t|h t|h t|h inner IH|h]; simpl; intros Hbase;
    try done.
  - pose proof (transferSQLChainTokenBalance_state env s t) as Hstate.
    destruct (transferSQLChainTokenBalance env s t) as [s1 [e|]|]; [|by rewrite (Hstate s1 None)|done].
    rewrite (Hstate s1 (Some e) eq_refl).
    destruct e; try done. apply keepsReadonly_transferAccountToken.
  - apply keepsReadonly_applyBillingFrom.
  - apply keepsReadonly_updateProviderList.
  - apply keepsReadonly_matchProvidersWithUser.
  - unfold updatePermission. by repeat case_match.
  - unfold updateKeys. by repeat case_match.
  - unfold updateBilling. by repeat case_match.
  - by apply IH.
Qed.

(** X9.  Copy on write.  Whatever transaction [apply] is given, as long as
    it is not a BaseAccount (wrapped or not), the committed index is
    untouched, whether the transaction is accepted or refused: discarding
    the dirty index afterwards gives back the state that [clean] gives
    before. *)
Theorem apply_never_writes_committed_state (env : Env) (s s' : metaState) (t : Transaction)
    (err : option Error) :
  appliesBaseAccount t = false →
  apply env s t = Return s' err →
  readonly s' = readonly s ∧ clean s' = clean s.
Proof.
  intros Hbase Hrun.
  assert (readonly s' = readonly s) as Hro; [|by unfold clean; rewrite Hro].
  unfold apply in Hrun.
  destruct (nextNonce s _) as [r|]; [|done].
  destruct (match r with inr n => _ | inl e => _ end) as [e|n]; [by injection Hrun as <- _|].
  case_decide; [by injection Hrun as <- _|].
  pose proof (keepsReadonly_applyTransaction env s t Hbase) as Hkeep.
  destruct (applyTransaction env s t) as [s1 [e|]|]; [by injection Hrun as <- _| |done].
  simpl in Hkeep. unfold increaseNonce in Hrun.
  destruct (accountForWrite s1 _) as [[s2 [dst|]]|] eqn:Hw; [|done|by injection Hrun as <- _].
  apply readonly_accountForWrite in Hw. injection Hrun as <- _. simpl. congruence.
Qed.

Lemma apply_never_writes_committed_state_witness :
  ∃ s', apply Samples.sampleEnv Samples.oneAccountState Samples.firstTransfer = Return s' None ∧
        clean s' = Samples.oneAccountState.
Proof.
  eexists. split; [vm_compute; reflexivity|].
  apply (apply_never_writes_committed_state Samples.sampleEnv Samples.oneAccountState _
           Samples.firstTransfer None eq_refl).
  vm_compute. reflexivity.
Defined.

(** *** Provider registration *)

Lemma loadOrStoreProviderObject_load s k v :
  loadProviderObject (loadOrStoreProviderObject s k v).1 k
  = match loadProviderObject s k with
    | Some o => Some o
    | None => match ro_provider (readonly s) !! k with
              | Some _ => None
              | None => Some v
              end
    end.
Proof.
  unfold loadOrStoreProviderObject, loadProviderObject.
  destruct (provider (dirty s) !! k) as [[o|]|] eqn:Hd; simpl.
  - by rewrite Hd.
  - destruct (ro_provider (readonly s) !! k) eqn:Hr; simpl; [by rewrite Hd|].
    by rewrite lookup_insert_eq.
  - destruct (ro_provider (readonly s) !! k) eqn:Hr; simpl; [by rewrite Hd, Hr|].
    by rewrite lookup_insert_eq.
Qed.

Lemma loadProviderObject_frame s s' :
  provider (dirty s') = provider (dirty s) →
  ro_provider (readonly s') = ro_provider (readonly s) →
  ∀ k, loadProviderObject s' k = loadProviderObject s k.
Proof. intros Hd Hr k. unfold loadProviderObject. by rewrite Hd, Hr. Qed.

(** X10.  A ProvideService that returns no error has taken the configured
    deposit from the stable balance of the sender, which covered it.  The
    profile of the transaction is installed only if the sender had none: a
    sender that is registered already pays the deposit again and keeps the
    profile it had. *)
Theorem updateProviderList_success (env : Env) (s s' : metaState) (tx : ProvideService) :
  updateProviderList env s tx = Return s' None →
  ∃ sender acc,
    PubKeyHash env (ProvideService_Signee tx) = Some sender ∧
    loadAccountObject s sender = Some acc ∧
    MinProviderDeposit env ≤ balanceIn acc Particle ∧
    loadAccountObject s' sender
    = Some (withBalance acc Particle (balanceIn acc Particle - MinProviderDeposit env)) ∧
    (∀ old, loadProviderObject s sender = Some old →
            loadProviderObject s' sender = Some old) ∧
    (provider (dirty s) !! sender = None → ro_provider (readonly s) !! sender = None →
     loadProviderObject s' sender
     = Some (mkProvider sender (ProvideService_Space tx) (ProvideService_Memory tx)
                        (ProvideService_LoadAvgPerCPU tx) (ProvideService_TargetUser tx)
                        (MinProviderDeposit env) (ProvideService_GasPrice tx)
                        (ProvideService_NodeID tx))).
Proof.
  unfold updateProviderList, decreaseAccountStableBalance.
  destruct (PubKeyHash env _) as [sender|]; [|done].
  destruct (decreaseAccountToken _ _ _ _) as [s1 [e|]|] eqn:Hdebit; [done| |done].
  intros [= <-].
  apply decreaseAccountToken_success in Hdebit
    as (acc & Hacc & Hle & Hs1 & _ & Hpr1 & _ & Hropr1).
  exists sender, acc. split; [done|]. split; [done|]. split; [done|].
  assert (∀ k, loadProviderObject s1 k = loadProviderObject s k) as Hprov
    by by apply loadProviderObject_frame.
  split; [|split].
  - specialize (Hs1 sender). rewrite decide_True in Hs1 by done.
    rewrite <-Hs1. apply loadAccountObject_frame; unfold loadOrStoreProviderObject;
      by repeat case_match.
  - intros old Hold. rewrite loadOrStoreProviderObject_load, Hprov, Hold. done.
  - intros Hd Hr. rewrite loadOrStoreProviderObject_load, Hprov, Hropr1.
    unfold loadProviderObject. by rewrite Hd, Hr.
Qed.

Lemma updateProviderList_success_witness :
  ∃ s', updateProviderList Samples.sampleEnv Samples.registeredState
          (mkProvideService (Some 7%N) 1 1 0 2 9 "other") = Return s' None ∧
        balanceOf s' 7%N Particle = 15 ∧
        loadProviderObject s' 7%N = Some (mkProvider 7 0 0 0 1 10 1 "n7").
Proof.
  eexists. split; [vm_compute; reflexivity|]. split; [reflexivity|].
  destruct (updateProviderList_success Samples.sampleEnv Samples.registeredState _
              (mkProvideService (Some 7%N) 1 1 0 2 9 "other") eq_refl)
    as (sender & acc & Hhash & _ & _ & _ & Hkept & _).
  injection Hhash as <-. apply Hkept. reflexivity.
Defined.

(** *** Permissions *)

Lemma scanUsers_admin sender target users i isAdmin idx :
  (scanUsers sender target users i isAdmin idx).1 = true →
  isAdmin = true ∨
  ∃ u, u ∈ users ∧ User_Address u = sender ∧ User_Permission u = Admin.
Proof.
  revert i isAdmin idx. induction users as [|u rest IH]; intros i isAdmin idx; simpl; [auto|].
  intros [Hb|(u' & Hin & ? & ?)]%IH.
  - apply orb_true_iff in Hb as [?|[Ha Hp]%andb_true_iff]; [by left|right].
    apply bool_decide_eq_true in Ha, Hp. exists u. split; [left|done].
  - right. exists u'. split; [by right|done].
Qed.

Lemma scanUsers_index sender target users i isAdmin idx :
  match (scanUsers sender target users i isAdmin idx).2 with
  | Some j =>
    (idx = Some j ∧ Forall (λ u, User_Address u ≠ target) users) ∨
    ∃ j' u, j = (i + j')%nat ∧ users !! j' = Some u ∧ User_Address u = target
  | None => idx = None ∧ Forall (λ u, User_Address u ≠ target) users
  end.
Proof.
  revert i isAdmin idx. induction users as [|u rest IH]; intros i isAdmin idx; simpl.
  { destruct idx; [left|]; by split. }
  specialize (IH (S i) (isAdmin || (bool_decide (sender = User_Address u)
                                    && bool_decide (User_Permission u = Admin)))
                 (if decide (target = User_Address u) then Some i else idx)).
  destruct (scanUsers _ _ rest _ _ _).2 as [j|].
  - destruct IH as [[Hidx Hrest]|(j' & u' & -> & Hu' & Haddr)].
    + case_decide as Ht.
      * injection Hidx as <-. right. exists 0%nat, u. split; [lia|done].
      * left. split; [done|]. constructor; [congruence|done].
    + right. exists (S j'), u'. split; [lia|done].
  - destruct IH as [Hidx Hrest]. case_decide; [done|].
    split; [done|]. constructor; [congruence|done].
Qed.

(** X11.  An UpdatePermission that returns no error was sent by an admin of
    the chain who is not its target, for a permission below
    [NumberOfUserPermission].  The profile written back has the same users
    with the permission of the last entry of the target changed, or one more
    user [{target, permission, Normal}] at the end when the target was no
    user; the sender is still an admin in it; no account moved. *)
Theorem updatePermission_success (env : Env) (s s' : metaState) (tx : UpdatePermission) :
  updatePermission env s tx = Return s' None →
  let dbID := AddressDatabaseID env (UpdatePermission_TargetSQLChain tx) in
  let target := UpdatePermission_TargetUser tx in
  let perm := UpdatePermission_Permission tx in
  ∃ sender so users',
    PubKeyHash env (UpdatePermission_Signee tx) = Some sender ∧
    sender ≠ target ∧ perm < NumberOfUserPermission ∧
    loadSQLChainObject s dbID = Some so ∧
    loadSQLChainObject s' dbID = Some (withUsers so users') ∧
    ((Forall (λ u, User_Address u ≠ target) (Profile_Users so) ∧
      users' = Profile_Users so ++ [mkUser target perm Normal 0 0]) ∨
     (∃ i u, Profile_Users so !! i = Some u ∧ User_Address u = target ∧
             users' = <[i:=withPermission u perm]> (Profile_Users so))) ∧
    (∃ u, u ∈ users' ∧ User_Address u = sender ∧ User_Permission u = Admin) ∧
    (∃ u, u ∈ users' ∧ User_Address u = target ∧ User_Permission u = perm) ∧
    (∀ a, loadAccountObject s' a = loadAccountObject s a).
Proof.
  intros Hrun dbID target perm. unfold updatePermission in Hrun.
  fold dbID target perm in Hrun.
  destruct (PubKeyHash env _) as [sender|]; [|done].
  case_decide as Hself; [done|].
  destruct (loadSQLChainObject s dbID) as [so|] eqn:Hload; [|done].
  destruct (NumberOfUserPermission <=? perm) eqn:Hperm; [done|].
  apply Z.leb_gt in Hperm.
  pose proof (scanUsers_admin sender target (Profile_Users so) 0 false None) as Hadmin.
  pose proof (scanUsers_index sender target (Profile_Users so) 0 false None) as Hindex.
  destruct (scanUsers _ _ _ _ _ _) as [[|] [i|]]; simpl in *; try done.
  - destruct Hadmin as [?|(admin & Hin & Haddr & HisAdmin)]; [done..|].
    destruct Hindex as [[? _]|(j' & u & -> & Hu & Htarget)]; [done|].
    injection Hrun as <-. exists sender, so, (<[j':=withPermission u perm]> (Profile_Users so)).
    assert (alter (λ u0, withPermission u0 perm) j' (Profile_Users so)
            = <[j':=withPermission u perm]> (Profile_Users so)) as Halter.
    { apply list_eq. intros j. destruct (decide (j = j')) as [->|Hne].
      - rewrite list_lookup_alter_eq, Hu. simpl.
        by rewrite list_lookup_insert_eq by (by eapply lookup_lt_Some).
      - rewrite list_lookup_alter_ne by done. by rewrite list_lookup_insert_ne by done. }
    repeat split; try done.
    + unfold loadSQLChainObject, setDirtyDatabase; simpl. rewrite lookup_insert_eq.
      by rewrite Halter.
    + right. by exists j', u.
    + apply list_elem_of_lookup in Hin as [j Hj]. exists admin.
      split; [|done]. apply list_elem_of_lookup. exists j.
      rewrite list_lookup_insert_ne; [done|]. intros ->. congruence.
    + exists (withPermission u perm). split; [|done].
      apply list_elem_of_lookup. exists j'.
      apply list_lookup_insert_eq. by eapply lookup_lt_Some.
  - destruct Hadmin as [?|(admin & Hin & Haddr & HisAdmin)]; [done..|].
    destruct Hindex as [_ Hnone].
    injection Hrun as <-.
    exists sender, so, (Profile_Users so ++ [mkUser target perm Normal 0 0]).
    repeat split; try done.
    + unfold loadSQLChainObject, setDirtyDatabase; simpl. by rewrite lookup_insert_eq.
    + by left.
    + exists admin. split; [|done]. apply elem_of_app. by left.
    + eexists. split; [apply elem_of_app; right; left|done].
Qed.

Lemma updatePermission_success_witness :
  ∃ s', updatePermission Samples.sampleEnv Samples.chainState
          (mkUpdatePermission (Some 1%N) 5 5 Write) = Return s' None ∧
        (Profile_Users <$> loadSQLChainObject s' "5")
        = Some [mkUser 1 Admin Normal 1 1; mkUser 5 Write Normal 0 0].
Proof.
  eexists. split; [vm_compute; reflexivity|].
  destruct (updatePermission_success Samples.sampleEnv Samples.chainState _
              (mkUpdatePermission (Some 1%N) 5 5 Write) eq_refl)
    as (sender & so & users' & _ & _ & _ & _ & Hstored & _).
  reflexivity.
Defined.

(** *** The bill of each user *)

Lemma billUsers_users env gasPrice costMap userMap users miners :
  Forall2 (λ u u', u' = (billUser env gasPrice costMap userMap u []).1)
          users (billUsers env gasPrice costMap userMap users miners).1.
Proof.
  revert miners. induction users as [|user rest IH]; intros miners; simpl; [constructor|].
  assert ((billUser env gasPrice costMap userMap user miners).1
          = (billUser env gasPrice costMap userMap user []).1) as Huser.
  { unfold billUser. by case_match. }
  destruct (billUser env gasPrice costMap userMap user miners) as [user' miners'].
  specialize (IH miners').
  destruct (billUsers _ _ _ _ rest miners') as [rest' miners'']. simpl in *.
  by constructor.
Qed.

Lemma collectCosts_snoc users userCost :
  (collectCosts (users ++ [userCost])).1
  = <[UserCost_User userCost := UserCost_Cost userCost]> (collectCosts users).1.
Proof.
  unfold collectCosts. rewrite foldl_app. simpl.
  by destruct (foldl _ _ users) as [costMap userMap].
Qed.

(** The cost that the transaction reports for a user: the one of its last
    entry for the user, zero without an entry. *)
Lemma costOf_collectCosts users a :
  costOf (collectCosts users).1 a
  = default 0 (UserCost_Cost <$> last (filter (λ uc, UserCost_User uc = a) users)).
Proof.
  induction users as [|userCost users IH] using rev_ind; [done|].
  rewrite collectCosts_snoc, filter_app. unfold costOf in *.
  destruct (decide (UserCost_User userCost = a)) as [<-|Hne].
  - rewrite lookup_insert_eq. rewrite filter_cons_True by done.
    rewrite filter_nil. by rewrite last_snoc.
  - rewrite lookup_insert_ne by done. rewrite filter_cons_False by done.
    rewrite filter_nil, app_nil_r. done.
Qed.

Lemma updateBilling_accepted env s sender tx p :
  loadSQLChainObject s (AddressDatabaseID env (UpdateBilling_Receiver tx)) = Some p →
  Profile_GasPrice p ≠ 0 →
  sender ∈ Miner_Address <$> Profile_Miners p →
  updateBilling env s sender tx
  = Return (setDirtyDatabase s (AddressDatabaseID env (UpdateBilling_Receiver tx))
              (Some (withMiners
                       (withUsers p
                          (billUsers env (Profile_GasPrice p)
                                     (collectCosts (UpdateBilling_Users tx)).1
                                     (collectCosts (UpdateBilling_Users tx)).2
                                     (Profile_Users p) (settled <$> Profile_Miners p)).1)
                       (billUsers env (Profile_GasPrice p)
                                  (collectCosts (UpdateBilling_Users tx)).1
                                  (collectCosts (UpdateBilling_Users tx)).2
                                  (Profile_Users p) (settled <$> Profile_Miners p)).2))) None.
Proof.
  intros Hload Hgas Hin. unfold updateBilling. rewrite Hload.
  rewrite (proj2 (Z.eqb_neq _ _) Hgas), settleMiners_spec. simpl.
  rewrite bool_decide_eq_true_2 by done.
  destruct (collectCosts _) as [costMap userMap]. simpl.
  by destruct (billUsers _ _ _ _ _ _) as [users miners].
Qed.

(** X12.  The users of the profile that an accepted UpdateBilling writes
    back, one by one: the address, the permission and the deposit are kept;
    with [bill] the reported cost of the user (that of its last entry in
    the transaction, zero without one) times the gas price, in 64 bits, a
    user whose advance payment covers the bill pays it and keeps its
    status, and any other user ends with no advance payment, in Arrears. *)
Theorem updateBilling_bills_users (env : Env) (s : metaState) (sender : AccountAddress)
    (tx : UpdateBilling) (p : SQLChainProfile) :
  let dbID := AddressDatabaseID env (UpdateBilling_Receiver tx) in
  let billOf (u : SQLChainUser) :=
    u64 (default 0 (UserCost_Cost
                      <$> last (filter (λ uc, UserCost_User uc = User_Address u)
                                       (UpdateBilling_Users tx)))
         * Profile_GasPrice p) in
  loadSQLChainObject s dbID = Some p →
  Profile_GasPrice p ≠ 0 →
  sender ∈ Miner_Address <$> Profile_Miners p →
  ∃ p', updateBilling env s sender tx = Return (setDirtyDatabase s dbID (Some p')) None ∧
        Forall2 (λ u u',
                   User_Address u' = User_Address u ∧
                   User_Permission u' = User_Permission u ∧
                   User_Deposit u' = User_Deposit u ∧
                   (billOf u ≤ User_AdvancePayment u →
                    User_AdvancePayment u' = u64 (User_AdvancePayment u - billOf u) ∧
                    User_Status u' = User_Status u) ∧
                   (User_AdvancePayment u < billOf u →
                    User_AdvancePayment u' = 0 ∧ User_Status u' = Arrears))
                (Profile_Users p) (Profile_Users p').
Proof.
  intros dbID billOf Hload Hgas Hin.
  eexists. split; [by apply updateBilling_accepted|]. simpl.
  eapply Forall2_impl; [apply billUsers_users|]. intros u u' ->.
  unfold billUser, billOf. rewrite costOf_collectCosts.
  destruct (_ <=? User_AdvancePayment u) eqn:Hcover; simpl.
  - apply Z.leb_le in Hcover. repeat split; try done; lia.
  - apply Z.leb_gt in Hcover. repeat split; try done; lia.
Qed.

(** Scenario E of the specification: gas price 2, an advance payment of 5
    and a reported cost of 10. *)
Lemma updateBilling_bills_users_witness :
  ∃ p', updateBilling Samples.sampleEnv Samples.billedState 7%N Samples.costlyBilling
        = Return (setDirtyDatabase Samples.billedState "5" (Some p')) None ∧
        Profile_Users p' = [mkUser 1 Admin Arrears 1 0].
Proof.
  destruct (updateBilling_bills_users Samples.sampleEnv Samples.billedState 7%N
              Samples.costlyBilling Samples.billedProfile eq_refl) as (p' & Hrun & Husers).
  - simpl. discriminate.
  - simpl. left.
  - exists p'. split; [exact Hrun|].
    vm_compute in Hrun. injection Hrun as <-. reflexivity.
Defined.

(** *** Changing the permission of a user, in place *)

Lemma withUsers_same p : withUsers p (Profile_Users p) = p.
Proof. by destruct p. Qed.

Lemma databaseForWrite_loaded s k dst :
  loadSQLChainObject s k = Some dst →
  ∃ s1, databaseForWrite s k = Some (s1, Some dst) ∧
        accounts (dirty s1) = accounts (dirty s) ∧
        provider (dirty s1) = provider (dirty s) ∧
        readonly s1 = readonly s ∧
        ∀ k', k' ≠ k → loadSQLChainObject s1 k' = loadSQLChainObject s k'.
Proof.
  unfold databaseForWrite, loadSQLChainObject.
  destruct (databases (dirty s) !! k) as [o|] eqn:Hd.
  - intros ->. by exists s.
  - intros ->. eexists. split; [done|]. repeat split; try done.
    intros k' Hne. simpl. by rewrite lookup_insert_ne.
Qed.

(** X13.  [alterSQLChainUser] on a chain that is loaded returns no error and
    writes back the profile in which every user at the address has the new
    permission.  When the address is no user of the chain it returns no
    error either, and the profile is the one that was loaded.  A key of
    neither map gives DatabaseNotFound. *)
Theorem alterSQLChainUser_outcome (s : metaState) (k : DatabaseID) (addr : AccountAddress)
    (perm : Z) :
  (databases (dirty s) !! k = None → ro_databases (readonly s) !! k = None →
   alterSQLChainUser s k addr perm = Return s (Some ErrDatabaseNotFound)) ∧
  (∀ dst, loadSQLChainObject s k = Some dst →
     ∃ s', alterSQLChainUser s k addr perm = Return s' None ∧
           loadSQLChainObject s' k
           = Some (withUsers dst
                     ((λ v, if decide (User_Address v = addr) then withPermission v perm else v)
                        <$> Profile_Users dst)) ∧
           (Forall (λ v, User_Address v ≠ addr) (Profile_Users dst) →
            loadSQLChainObject s' k = Some dst) ∧
           (∀ k', k' ≠ k → loadSQLChainObject s' k' = loadSQLChainObject s k') ∧
           readonly s' = readonly s).
Proof.
  unfold alterSQLChainUser. split.
  - intros Hd Hr. unfold databaseForWrite. by rewrite Hd, Hr.
  - intros dst Hload.
    destruct (databaseForWrite_loaded s k dst Hload) as (s1 & -> & _ & _ & Hro & Hother).
    eexists. split; [done|].
    assert (∀ p, loadSQLChainObject (setDirtyDatabase s1 k (Some p)) k = Some p) as Hk.
    { intros p. unfold loadSQLChainObject; simpl. by rewrite lookup_insert_eq. }
    split; [apply Hk|]. split; [|split; [|done]].
    + intros Hnone. rewrite Hk. f_equal.
      transitivity (withUsers dst (Profile_Users dst)); [|apply withUsers_same].
      f_equal. transitivity (id <$> Profile_Users dst); [|apply list_fmap_id].
      apply list_fmap_ext. intros i v Hv.
      rewrite decide_False; [done|]. eapply Forall_lookup_1 in Hnone; done.
    + intros k' Hne. rewrite <-Hother by done.
      unfold loadSQLChainObject; simpl. by rewrite lookup_insert_ne.
Qed.

Lemma alterSQLChainUser_outcome_witness :
  ∃ s', alterSQLChainUser Samples.chainState "5" 9%N Admin = Return s' None ∧
        loadSQLChainObject s' "5" = Some Samples.chainProfile.
Proof.
  destruct (proj2 (alterSQLChainUser_outcome Samples.chainState "5" 9%N Admin)
                  Samples.chainProfile eq_refl) as (s' & Hrun & _ & Hsame & _).
  exists s'. split; [exact Hrun|]. apply Hsame.
  repeat constructor; simpl; discriminate.
Defined.

(** *** The committed chains of a miner *)

Lemma elem_of_foldl_miners (p x : SQLChainProfile) addr miners dbs :
  x ∈ foldl (λ dbs miner, if decide (Miner_Address miner = addr) then dbs ++ [p] else dbs)
            dbs miners
  ↔ x ∈ dbs ∨ (x = p ∧ addr ∈ Miner_Address <$> miners).
Proof.
  revert dbs. induction miners as [|miner rest IH]; intros dbs; simpl.
  - split; [by left|]. intros [?|[_ Hin]]; [done|]. by apply elem_of_nil in Hin.
  - rewrite IH. case_decide as Hm.
    + rewrite elem_of_app, list_elem_of_singleton, elem_of_cons.
      pose proof (eq_sym Hm). tauto.
    + rewrite elem_of_cons.
      assert (addr ≠ Miner_Address miner) by congruence. tauto.
Qed.

(** X14.  [loadROSQLChains] answers exactly the committed profiles that list
    the address among their miners: a profile is in the answer if and only
    if the committed index holds it under some identifier and one of its
    miners has the address.  Chains that are only in the dirty index are not
    in the answer, and a deletion marker removes none. *)
Theorem loadROSQLChains_membership (s : metaState) (addr : AccountAddress)
    (p : SQLChainProfile) :
  p ∈ loadROSQLChains s addr ↔
  ∃ k, ro_databases (readonly s) !! k = Some p ∧ addr ∈ Miner_Address <$> Profile_Miners p.
Proof.
  unfold loadROSQLChains.
  assert (∀ l dbs,
            p ∈ foldl (λ dbs (kv : string * SQLChainProfile),
                         foldl (λ dbs miner,
                                  if decide (Miner_Address miner = addr)
                                  then dbs ++ [kv.2] else dbs)
                               dbs (Profile_Miners kv.2)) dbs l
            ↔ p ∈ dbs ∨ ∃ k, (k, p) ∈ l ∧ addr ∈ Miner_Address <$> Profile_Miners p)
    as Hfold.
  { induction l as [|[k q] l IH]; intros dbs; simpl.
    - split; [by left|]. intros [?|(k & Hin & _)]; [done|]. by apply elem_of_nil in Hin.
    - rewrite IH, elem_of_foldl_miners. split.
      + intros [[?|[-> ?]]|(k' & ? & ?)]; [by left| |].
        * right. exists k. split; [left|done].
        * right. exists k'. split; [by right|done].
      + intros [?|(k' & [[= -> ->]|?]%elem_of_cons & ?)]; [by left; left| |].
        * left. by right.
        * right. by exists k'. }
  rewrite Hfold. split.
  - intros [Hnil|(k & Hin & ?)]; [by apply elem_of_nil in Hnil|].
    exists k. split; [by apply elem_of_map_to_list|done].
  - intros (k & Hk & ?). right. exists k. split; [by apply elem_of_map_to_list|done].
Qed.

Lemma loadROSQLChains_membership_witness :
  Samples.chainProfile ∈ loadROSQLChains Samples.chainState 7%N.
Proof.
  apply (proj2 (loadROSQLChains_membership Samples.chainState 7%N Samples.chainProfile)).
  exists "5"%string. split; [reflexivity|]. simpl. left.
Defined.

(** *** The legacy billing *)

Lemma increaseAccountToken_success s k amount tokenType s1 :
  increaseAccountToken s k amount tokenType = Return s1 None →
  ∃ acc, loadAccountObject s k = Some acc ∧
         balanceIn acc tokenType + amount ≤ U64_MAX ∧
         ∀ a, loadAccountObject s1 a
              = if decide (k = a)
                then Some (withBalance acc tokenType (balanceIn acc tokenType + amount))
                else loadAccountObject s a.
Proof.
  unfold increaseAccountToken.
  destruct (accountForWrite s k) as [[s0 [dst|]]|] eqn:Hw; [|done..].
  destruct (safeAdd _ _) as [e|v] eqn:Hadd; [done|]. intros [= <-].
  apply safeAdd_inr in Hadd as [-> Hle]. exists dst.
  apply accountForWrite_lookups in Hw as (Hsame & _ & Hdst & _).
  split; [done|]. split; [done|].
  intros a. rewrite loadAccountObject_setDirtyAccount. by case_decide.
Qed.

(** The view after a write of one account. *)
Lemma view_after_write s s' k acc' :
  (∀ a, loadAccountObject s' a = if decide (k = a) then Some acc' else loadAccountObject s a) →
  view s' = <[k:=acc']> (view s).
Proof.
  intros Hs'. apply map_eq; intros a. rewrite lookup_insert, !view_lookup, Hs'.
  by case_decide.
Qed.

Lemma totalBalance_increaseAccountToken s k amount tokenType s1 t :
  increaseAccountToken s k amount tokenType = Return s1 None →
  totalBalance t (view s1)
  = totalBalance t (view s) + (if decide (t = tokenType) then amount else 0).
Proof.
  intros (acc & Hacc & _ & Hs1)%increaseAccountToken_success.
  rewrite (view_after_write _ _ _ _ Hs1), totalBalance_insert, view_lookup, Hacc; simpl.
  rewrite balanceIn_withBalance. case_decide; subst; lia.
Qed.

Lemma totalBalance_loadOrStoreAccountObject s k t :
  totalBalance t (view (loadOrStoreAccountObject s k (emptyAccount k)).1)
  = totalBalance t (view s).
Proof.
  destruct (loadAccountObject s k) as [acc|] eqn:Hacc;
    [|destruct (ro_accounts (readonly s) !! k) as [old|] eqn:Hro].
  - f_equal. apply map_eq; intros a. rewrite !view_lookup, loadOrStoreAccountObject_load.
    case_decide; [subst a|done]. by rewrite Hacc.
  - f_equal. apply map_eq; intros a. rewrite !view_lookup, loadOrStoreAccountObject_load.
    case_decide; [subst a|done]. by rewrite Hacc, Hro.
  - rewrite (view_after_write s _ k (emptyAccount k)).
    + rewrite totalBalance_insert, view_lookup, Hacc; simpl.
      rewrite balanceIn_emptyAccount. by rewrite Z.sub_0_r, Z.add_0_r.
    + intros a. rewrite loadOrStoreAccountObject_load. case_decide; [|done].
      by rewrite Hacc, Hro.
Qed.

Lemma applyBillingFrom_totals s receivers fees rewards i s' :
  applyBillingFrom s receivers fees rewards i = Return s' None →
  (receivers ≠ [] → i + length receivers ≤ length fees ∧
                     i + length receivers ≤ length rewards)%nat ∧
  totalBalance Wave (view s')
  = totalBalance Wave (view s) + foldr Z.add 0 (take (length receivers) (drop i fees)) ∧
  totalBalance Particle (view s')
  = totalBalance Particle (view s)
    + foldr Z.add 0 (take (length receivers) (drop i rewards)).
Proof.
  revert s i. induction receivers as [|[v|] rest IH]; intros s i; simpl; [| |done].
  { intros [= <-]. split; [done|]. split; lia. }
  set (s1 := (loadOrStoreAccountObject s v _).1).
  destruct (fees !! i) as [fee|] eqn:Hfee; [|done].
  unfold increaseAccountCovenantBalance, increaseAccountStableBalance.
  destruct (increaseAccountToken s1 v fee Wave) as [s2 [e|]|] eqn:Hfees; [done| |done].
  destruct (rewards !! i) as [reward|] eqn:Hreward; [|done].
  destruct (increaseAccountToken s2 v reward Particle) as [s3 [e|]|] eqn:Hrewards;
    [done| |done].
  intros (Hlen & HW & HP)%IH.
  apply lookup_lt_Some in Hfee as Hfeelt. apply lookup_lt_Some in Hreward as Hrewardlt.
  split.
  { intros _. destruct rest as [|r rest']; [simpl; lia|].
    destruct Hlen as [? ?]; [done|]. simpl in *. lia. }
  rewrite (drop_S fees fee i Hfee), (drop_S rewards reward i Hreward). simpl.
  rewrite HW, HP.
  rewrite !(totalBalance_increaseAccountToken _ _ _ _ _ _ Hrewards).
  rewrite !(totalBalance_increaseAccountToken _ _ _ _ _ _ Hfees).
  unfold s1. rewrite !totalBalance_loadOrStoreAccountObject.
  split; repeat case_decide; try done; lia.
Qed.

(** X15.  A legacy Billing that returns no error had a fee and a reward for
    every receiver, and has added to the visible accounts, in total, the
    fees of the receivers in Wave and their rewards in Particle: nothing is
    lost to an overflow and nothing else has moved. *)
Theorem applyBilling_totals (s s' : metaState) (tx : Billing) :
  applyBilling s tx = Return s' None →
  let n := length (Billing_Receivers tx) in
  (n ≤ length (Billing_Fees tx))%nat ∧ (n ≤ length (Billing_Rewards tx))%nat ∧
  totalBalance Wave (view s')
  = totalBalance Wave (view s) + foldr Z.add 0 (take n (Billing_Fees tx)) ∧
  totalBalance Particle (view s')
  = totalBalance Particle (view s) + foldr Z.add 0 (take n (Billing_Rewards tx)).
Proof.
  intros Hrun n. apply applyBillingFrom_totals in Hrun as (Hlen & HW & HP).
  rewrite !drop_0 in *. fold n in Hlen, HW, HP.
  destruct (Billing_Receivers tx) eqn:Hrec; [subst n; simpl; repeat split; (lia || done)|].
  destruct Hlen as [? ?]; [done|]. simpl in *. repeat split; (lia || done).
Qed.

Lemma applyBilling_totals_witness :
  ∃ s', applyBilling Samples.oneAccountState
                     (mkBilling [Some 1%N; Some 2%N; Some 1%N] [1; 2; 3; 9] [10; 20; 30])
        = Return s' None ∧
        totalBalance Wave (view s') = totalBalance Wave (view Samples.oneAccountState) + 6 ∧
        totalBalance Particle (view s')
        = totalBalance Particle (view Samples.oneAccountState) + 60.
Proof.
  eexists. split; [vm_compute; reflexivity|].
  destruct (applyBilling_totals Samples.oneAccountState _
              (mkBilling [Some 1%N; Some 2%N; Some 1%N] [1; 2; 3; 9] [10; 20; 30]) eq_refl)
    as (_ & _ & HW & HP).
  split; [exact HW|exact HP].
Defined.

(** *** Database creation: what an error leaves behind *)

Lemma decreaseAccountToken_error s k amount tokenType s1 e :
  decreaseAccountToken s k amount tokenType = Return s1 (Some e) →
  (∀ a, loadAccountObject s1 a = loadAccountObject s a) ∧
  databases (dirty s1) = databases (dirty s) ∧
  provider (dirty s1) = provider (dirty s) ∧
  readonly s1 = readonly s.
Proof.
  unfold decreaseAccountToken.
  destruct (accountForWrite s k) as [[s0 [dst|]]|] eqn:Hw; [|done|by intros [= <- _]].
  destruct (safeSub _ _) as [e'|v]; [|done]. intros [= <- _].
  by apply accountForWrite_lookups in Hw as (? & _ & _ & ? & ? & ?).
Qed.

(** X16.  A CreateDatabase that returns an error has installed nothing: no
    lookup of a database or of a provider profile has changed, no account
    but the owner's has changed, and the committed index is untouched.  The
    account of the owner is as it was or, when the error is that of the
    genesis block or DatabaseExists, debited by the minimal advance (the
    product of gas price, QPS, update period and number of target miners
    in 64 bits) plus the advance payment: these two checks come after the
    debit. *)
Theorem createDatabase_error_installs_nothing (env : Env) (s s' : metaState)
    (tx : CreateDatabase) (e : Error) :
  matchProvidersWithUser env s tx = Return s' (Some e) →
  (∀ k, loadSQLChainObject s' k = loadSQLChainObject s k) ∧
  (∀ k, loadProviderObject s' k = loadProviderObject s k) ∧
  (∀ a, a ≠ CreateDatabase_Owner tx → loadAccountObject s' a = loadAccountObject s a) ∧
  readonly s' = readonly s ∧
  (loadAccountObject s' (CreateDatabase_Owner tx)
   = loadAccountObject s (CreateDatabase_Owner tx) ∨
   ((e = ErrExternal ∨ e = ErrDatabaseExists) ∧
    ∃ acc, loadAccountObject s (CreateDatabase_Owner tx) = Some acc ∧
           loadAccountObject s' (CreateDatabase_Owner tx)
           = Some (withBalance acc (CreateDatabase_TokenType tx)
                               (balanceIn acc (CreateDatabase_TokenType tx)
                                - (u64 (CreateDatabase_GasPrice tx * QPS env * UpdatePeriod env
                                        * Z.of_nat (length (TargetMiners
                                                              (CreateDatabase_ResourceMeta tx))))
                                   + CreateDatabase_AdvancePayment tx))))).
Proof.
  intros Hrun.
  set (all := u64 (CreateDatabase_GasPrice tx * QPS env * UpdatePeriod env
                   * Z.of_nat (length (TargetMiners (CreateDatabase_ResourceMeta tx))))
              + CreateDatabase_AdvancePayment tx).
  enough ((databases (dirty s') = databases (dirty s) ∧
           provider (dirty s') = provider (dirty s) ∧
           readonly s' = readonly s) ∧
          ((∀ a, loadAccountObject s' a = loadAccountObject s a) ∨
           ((e = ErrExternal ∨ e = ErrDatabaseExists) ∧
            ∃ acc,
              loadAccountObject s (CreateDatabase_Owner tx) = Some acc ∧
              ∀ a, loadAccountObject s' a
                   = if decide (CreateDatabase_Owner tx = a)
                     then Some (withBalance acc (CreateDatabase_TokenType tx)
                                  (balanceIn acc (CreateDatabase_TokenType tx) - all))
                     else loadAccountObject s a)))
    as [(Hdb & Hpr & Hro) Haccounts].
  { split; [by apply loadSQLChainObject_frame; rewrite ?Hro|].
    split; [by apply loadProviderObject_frame; rewrite ?Hro|].
    destruct Haccounts as [Hsame|(He & acc & Hacc & Hs')].
    - split; [auto|]. split; [done|]. by left.
    - split; [intros a Ha; by rewrite Hs', decide_False|].
      split; [done|]. right. split; [done|]. exists acc. split; [done|].
      by rewrite Hs', decide_True. }
  unfold matchProvidersWithUser in Hrun.
  destruct (PubKeyHash env _) as [sender|]; [|injection Hrun as <- _; auto].
  destruct (decide (sender ≠ _)) as [|Heq%dec_stable]; [injection Hrun as <- _; auto|].
  subst sender.
  destruct (_ <=? 0); [injection Hrun as <- _; auto|].
  rewrite minDeposit_product in Hrun.
  destruct (_ <? _); [injection Hrun as <- _; auto|].
  destruct (resolveMiners _ _ _ _) as [e0|miners]; [injection Hrun as <- _; auto|].
  destruct (DatabaseIDAccountAddress env _) as [dbAddr|]; [|injection Hrun as <- _; auto].
  destruct (safeAdd _ _) as [e0|all'] eqn:Hall; [injection Hrun as <- _; auto|].
  apply safeAdd_inr in Hall as [-> _]. fold all in Hrun.
  pose proof (keepsReadonly_decreaseAccountToken s (CreateDatabase_Owner tx) all
                (CreateDatabase_TokenType tx)) as Hkeep.
  destruct (decreaseAccountToken _ _ _ _) as [s1 [e1|]|] eqn:Hdebit; [| |done].
  { injection Hrun as <- <-.
    apply decreaseAccountToken_error in Hdebit as (Hacc & Hdb & Hpr & Hro). auto. }
  simpl in Hkeep.
  apply decreaseAccountToken_success in Hdebit
    as (acc & Hacc & _ & Hs1 & Hdb1 & Hpr1 & _ & _).
  assert (Return s1 (Some e) = Return s' (Some e) →
          e = ErrExternal ∨ e = ErrDatabaseExists →
          (databases (dirty s') = databases (dirty s) ∧
           provider (dirty s') = provider (dirty s) ∧
           readonly s' = readonly s) ∧
          ((∀ a, loadAccountObject s' a = loadAccountObject s a) ∨
           ((e = ErrExternal ∨ e = ErrDatabaseExists) ∧
            ∃ acc,
              loadAccountObject s (CreateDatabase_Owner tx) = Some acc ∧
              ∀ a, loadAccountObject s' a
                   = if decide (CreateDatabase_Owner tx = a)
                     then Some (withBalance acc (CreateDatabase_TokenType tx)
                                  (balanceIn acc (CreateDatabase_TokenType tx) - all))
                     else loadAccountObject s a))) as Hdebited.
  { intros [= <-] He. split; [done|]. right. split; [done|]. by exists acc. }
  destruct (generateGenesisBlock env _ _) as [gb|];
    [|injection Hrun as Hs He; subst; apply Hdebited; auto].
  destruct (EncodeMsgPack env gb) as [enc|];
    [|injection Hrun as Hs He; subst; apply Hdebited; auto].
  destruct (loadSQLChainObject s1 _); [|done].
  injection Hrun as Hs He; subst; apply Hdebited; auto.
Qed.

(** Signing fails after the debit: the error comes back and the owner has
    paid. *)
Lemma createDatabase_error_installs_nothing_witness :
  ∃ s', matchProvidersWithUser
          Samples.keylessEnv Samples.providerState (Samples.createWith [7; 8]%N)
        = Return s' (Some ErrExternal) ∧
        balanceOf s' 1%N Wave = 93 ∧
        is_Some (loadProviderObject s' 7%N) ∧
        loadSQLChainObject s' "1:0" = None.
Proof.
  eexists. split; [vm_compute; reflexivity|].
  destruct (createDatabase_error_installs_nothing Samples.keylessEnv
              Samples.providerState _ (Samples.createWith [7; 8]%N) ErrExternal eq_refl)
    as (Hdb & Hprov & _).
  split; [reflexivity|]. split; [rewrite Hprov; by eexists|]. rewrite Hdb. reflexivity.
Defined.



End MetaStateSpec.

(** ** Properties of raft/configuration.go *)

Module RaftSpec.
Import Raft.

Lemma checkServers_accepts servers idSet addressSet voters :
  checkServers servers idSet addressSet voters = None →
  Forall (λ server, ID server ≠ EmptyString ∧ Address server ≠ EmptyString) servers ∧
  (NoDup (ID <$> servers) ∧ ∀ server, server ∈ servers → idSet !! ID server ≠ Some true) ∧
  (NoDup (Address <$> servers) ∧
   ∀ server, server ∈ servers → addressSet !! Address server ≠ Some true) ∧
  (voters ≠ 0%nat ∨ Exists (λ server, Suffrage server = Peer) servers).
Proof.
  revert idSet addressSet voters.
  induction servers as [|server rest IH]; intros idSet addressSet voters; simpl.
  - case_decide; [done|]. intros _.
    repeat split; auto using NoDup_nil_2; intros ? Hin; by apply elem_of_nil in Hin.
  - destruct (decide (ID server = EmptyString)) as [|HID]; [done|].
    destruct (decide (Address server = EmptyString)) as [|HAddr]; [done|].
    destruct (default false (idSet !! ID server)) eqn:Hid; [done|].
    destruct (default false (addressSet !! Address server)) eqn:Hadr; [done|].
    intros Hrest. apply IH in Hrest as (Hne & [Hids Hidset] & [Hadrs Hadrset] & Hvote).
    assert (∀ other, other ∈ rest → ID other ≠ ID server) as Hfresh_id.
    { intros other Hin Heq. apply (Hidset other Hin). rewrite Heq. apply lookup_insert_eq. }
    assert (∀ other, other ∈ rest → Address other ≠ Address server) as Hfresh_adr.
    { intros other Hin Heq. apply (Hadrset other Hin). rewrite Heq. apply lookup_insert_eq. }
    split; [by constructor|]. split; [|split].
    + split.
      * apply NoDup_cons. split; [|done].
        intros (other & Heq & Hin)%list_elem_of_fmap. by apply (Hfresh_id other).
      * intros other [->|Hin]%elem_of_cons.
        -- intros Hl. by rewrite Hl in Hid.
        -- specialize (Hidset other Hin).
           by rewrite lookup_insert_ne in Hidset by (symmetry; by apply Hfresh_id).
    + split.
      * apply NoDup_cons. split; [|done].
        intros (other & Heq & Hin)%list_elem_of_fmap. by apply (Hfresh_adr other).
      * intros other [->|Hin]%elem_of_cons.
        -- intros Hl. by rewrite Hl in Hadr.
        -- specialize (Hadrset other Hin).
           by rewrite lookup_insert_ne in Hadrset by (symmetry; by apply Hfresh_adr).
    + destruct (decide (Suffrage server = Peer)) as [HP|HP].
      * right. by apply Exists_cons_hd.
      * destruct Hvote as [?|?]; [by left|right; by apply Exists_cons_tl].
Qed.

Lemma checkConfiguration_wellFormed configuration :
  checkConfiguration configuration = None → wellFormed configuration.
Proof.
  intros (Hne & [Hids _] & [Hadrs _] & [?|Hvote])%checkServers_accepts; [done|].
  by repeat split.
Qed.

(** C9. [nextConfiguration] fails when [change.prevIndex] is non-zero and is
    not [currentIndex]; and a configuration that it returns passes
    [checkConfiguration]: no empty ID or address, no ID and no address twice,
    and a server with Peer suffrage. *)
Theorem nextConfiguration_checked (current : Configuration) (currentIndex : N)
    (change : configurationChangeRequest) :
  (prevIndex change ≠ 0%N → prevIndex change ≠ currentIndex →
   nextConfiguration current currentIndex change
   = inl (ErrConfigurationChanged (prevIndex change) currentIndex)) ∧
  (∀ next, nextConfiguration current currentIndex change = inr next →
           checkConfiguration next = None ∧ wellFormed next).
Proof.
  unfold nextConfiguration. split.
  - intros Hnz Hne. rewrite decide_True; [done|]. split; [lia|done].
  - intros next. case_decide; [done|].
    destruct (checkConfiguration _) eqn:Hcheck; [done|].
    intros [= <-]. split; [done|]. by apply checkConfiguration_wellFormed.
Qed.

Lemma nextConfiguration_checked_witness :
  ∃ next, nextConfiguration RaftSamples.twoPeers 7 RaftSamples.removeP2 = inr next ∧
          Servers next = [RaftSamples.peer "P1"] ∧
          checkConfiguration next = None ∧ wellFormed next.
Proof.
  eexists. split; [vm_compute; reflexivity|]. split; [reflexivity|].
  apply (proj2 (nextConfiguration_checked RaftSamples.twoPeers 7 RaftSamples.removeP2)).
  vm_compute. reflexivity.
Defined.

(** Removing the last voter is refused, and so is a request made for an
    index that is no longer the current one. *)
Lemma nextConfiguration_refusals :
  (∀ next, nextConfiguration RaftSamples.twoPeers 7 RaftSamples.removeP2 = inr next →
           nextConfiguration next 8 RaftSamples.removeP1 = inl ErrNoVoter) ∧
  nextConfiguration RaftSamples.twoPeers 7 (mkChange AddLearner "L" "L:1" 6)
  = inl (ErrConfigurationChanged 6 7).
Proof.
  split; [|vm_compute; reflexivity].
  intros next Hnext. vm_compute in Hnext. injection Hnext as <-. vm_compute. reflexivity.
Qed.

(** ** Further properties of raft/configuration.go *)

Lemma checkServers_complete servers idSet addressSet voters :
  Forall (λ server, ID server ≠ EmptyString ∧ Address server ≠ EmptyString) servers →
  NoDup (ID <$> servers) →
  (∀ server, server ∈ servers → idSet !! ID server ≠ Some true) →
  NoDup (Address <$> servers) →
  (∀ server, server ∈ servers → addressSet !! Address server ≠ Some true) →
  voters ≠ 0%nat ∨ Exists (λ server, Suffrage server = Peer) servers →
  checkServers servers idSet addressSet voters = None.
Proof.
  revert idSet addressSet voters.
  induction servers as [|server rest IH]; intros idSet addressSet voters
    Hne Hids Hidset Hadrs Hadrset Hvote; simpl.
  - destruct Hvote as [?|Hex]; [by rewrite decide_False|by apply Exists_nil in Hex].
  - apply Forall_cons in Hne as [[HID HAddr] Hne].
    apply NoDup_cons in Hids as [Hid Hids]. apply NoDup_cons in Hadrs as [Hadr Hadrs].
    rewrite !decide_False by done.
    assert (default false (idSet !! ID server) = false) as ->.
    { specialize (Hidset server ltac:(left)). by destruct (idSet !! ID server) as [[|]|]. }
    assert (default false (addressSet !! Address server) = false) as ->.
    { specialize (Hadrset server ltac:(left)).
      by destruct (addressSet !! Address server) as [[|]|]. }
    apply IH; try done.
    + intros other Hin. rewrite lookup_insert_ne; [apply Hidset; by right|].
      intros Heq. apply Hid. rewrite Heq. apply list_elem_of_fmap. by exists other.
    + intros other Hin. rewrite lookup_insert_ne; [apply Hadrset; by right|].
      intros Heq. apply Hadr. rewrite Heq. apply list_elem_of_fmap. by exists other.
    + case_decide as HP; [by left|].
      destruct Hvote as [?|Hex]; [by left|right].
      by apply Exists_cons in Hex as [?|?].
Qed.

(** X17.  [checkConfiguration] accepts a configuration exactly when no
    server has an empty ID or address, no ID and no address occurs twice,
    and some server is a Peer. *)
Theorem checkConfiguration_accepts_iff (configuration : Configuration) :
  checkConfiguration configuration = None ↔ wellFormed configuration.
Proof.
  split; [apply checkConfiguration_wellFormed|].
  intros (Hne & Hids & Hadrs & Hvote). apply checkServers_complete; try done.
  all: try (intros server _; by rewrite lookup_empty).
  by right.
Qed.

(** *** The change of the list of servers, command by command *)

Lemma updateFirst_Some p f servers servers' :
  updateFirst p f servers = Some servers' →
  ∃ before server after,
    servers = before ++ server :: after ∧
    Forall (λ other, p other = false) before ∧
    p server = true ∧
    servers' = before ++ f server :: after.
Proof.
  revert servers'. induction servers as [|server rest IH]; intros servers'; simpl; [done|].
  destruct (p server) eqn:Hp.
  - intros [= <-]. by exists [], server, rest.
  - destruct (updateFirst p f rest) as [rest'|]; [|done]. intros [= <-].
    destruct (IH rest' eq_refl) as (before & x & after & -> & Hbefore & Hx & ->).
    exists (server :: before), x, after. repeat split; try done. by constructor.
Qed.

Lemma updateFirst_None p f servers :
  Forall (λ other, p other = false) servers → updateFirst p f servers = None.
Proof.
  induction 1 as [|server rest Hp _ IH]; simpl; [done|]. by rewrite Hp, IH.
Qed.

Lemma removeFirst_absent id servers :
  id ∉ ID <$> servers → removeFirst id servers = servers.
Proof.
  induction servers as [|server rest IH]; simpl; [done|].
  intros Hnot. apply not_elem_of_cons in Hnot as [Hne Hnot].
  rewrite decide_False by done. by rewrite IH.
Qed.

Lemma Clone_same c : Clone c = c.
Proof. by destruct c. Qed.

Lemma withServers_same c : withServers c (Servers c) = c.
Proof. by destruct c. Qed.

(** [nextConfiguration] past its guard. *)
Lemma nextConfiguration_changed current currentIndex change :
  (prevIndex change = 0%N ∨ prevIndex change = currentIndex) →
  nextConfiguration current currentIndex change
  = match checkConfiguration (withServers current (changeServers change (Servers current))) with
    | Some err => inl err
    | None => inr (withServers current (changeServers change (Servers current)))
    end.
Proof.
  intros Hguard. unfold nextConfiguration.
  rewrite decide_False by (intros [? ?]; destruct Hguard; [lia|done]).
  by rewrite Clone_same.
Qed.

Lemma nextConfiguration_inr current currentIndex change next :
  nextConfiguration current currentIndex change = inr next →
  Servers next = changeServers change (Servers current) ∧ wellFormed next.
Proof.
  unfold nextConfiguration. case_decide; [done|].
  destruct (checkConfiguration _) eqn:Hcheck; [done|]. intros [= <-].
  split; [by rewrite Clone_same|]. by apply checkConfiguration_wellFormed.
Qed.

(** X18.  A Demote, a RemoveServer or a Promote that names a server which is
    not in the configuration is no error: past the guard on the index, the
    answer is the current configuration itself when it is well formed, and
    the complaint of [checkConfiguration] about it otherwise. *)
Theorem nextConfiguration_unknown_server (current : Configuration) (currentIndex : N)
    (change : configurationChangeRequest) :
  prevIndex change = 0%N ∨ prevIndex change = currentIndex →
  command change = Demote ∨ command change = RemoveServer ∨ command change = Promote →
  serverID change ∉ ID <$> Servers current →
  nextConfiguration current currentIndex change
  = match checkConfiguration current with
    | Some err => inl err
    | None => inr current
    end.
Proof.
  intros Hguard Hcommand Hunknown.
  rewrite nextConfiguration_changed by done.
  assert (Forall (λ other, hasID (serverID change) other = false) (Servers current)) as Hnone.
  { apply Forall_forall. intros other Hin. apply bool_decide_eq_false. intros Heq.
    apply Hunknown. rewrite <-Heq. apply list_elem_of_fmap. by exists other. }
  assert (changeServers change (Servers current) = Servers current) as ->.
  { unfold changeServers. destruct Hcommand as [->|[->| ->]].
    - by rewrite updateFirst_None.
    - by apply removeFirst_absent.
    - rewrite updateFirst_None; [done|].
      eapply Forall_impl; [exact Hnone|]. by intros other ->. }
  by rewrite withServers_same.
Qed.

Lemma nextConfiguration_unknown_server_witness :
  nextConfiguration RaftSamples.twoPeers 7 (mkChange Demote "P9" EmptyString 7)
  = inr RaftSamples.twoPeers.
Proof.
  rewrite (nextConfiguration_unknown_server RaftSamples.twoPeers 7
             (mkChange Demote "P9" EmptyString 7)).
  - reflexivity.
  - by right.
  - by left.
  - simpl. intros Hin. apply elem_of_cons in Hin as [|Hin]; [done|].
    apply elem_of_cons in Hin as [|Hin]; [done|]. by apply elem_of_nil in Hin.
Defined.

Lemma filter_all_servers (P : Server → Prop) `{∀ x, Decision (P x)} servers :
  Forall P servers → filter P servers = servers.
Proof.
  induction 1 as [|server rest HP _ IH]; [done|].
  rewrite filter_cons_True by done. by rewrite IH.
Qed.

Lemma removeFirst_NoDup id servers :
  NoDup (ID <$> servers) →
  removeFirst id servers = filter (λ server, ID server ≠ id) servers.
Proof.
  induction servers as [|server rest IH]; simpl; [done|].
  intros [Hfresh Hrest]%NoDup_cons. destruct (decide (ID server = id)) as [<-|Hne].
  - rewrite filter_cons_False by (by intros ?).
    symmetry. apply filter_all_servers, Forall_forall. intros other Hin Heq.
    apply Hfresh. rewrite <-Heq. apply list_elem_of_fmap. by exists other.
  - rewrite filter_cons_True by done. by rewrite IH.
Qed.

(** X19.  A RemoveServer that is accepted on a configuration whose IDs are
    distinct answers the servers of the configuration without the one that
    has the ID, in their order; no server of the answer has the ID. *)
Theorem nextConfiguration_RemoveServer (current next : Configuration) (currentIndex : N)
    (change : configurationChangeRequest) :
  command change = RemoveServer →
  NoDup (ID <$> Servers current) →
  nextConfiguration current currentIndex change = inr next →
  Servers next = filter (λ server, ID server ≠ serverID change) (Servers current) ∧
  serverID change ∉ ID <$> Servers next.
Proof.
  intros Hcommand Hids [Hservers _]%nextConfiguration_inr.
  unfold changeServers in Hservers. rewrite Hcommand in Hservers.
  rewrite removeFirst_NoDup in Hservers by done. split; [done|].
  rewrite Hservers. intros (server & Heq & [Hne _]%list_elem_of_filter)%list_elem_of_fmap.
  done.
Qed.

Lemma nextConfiguration_RemoveServer_witness :
  ∃ next, nextConfiguration RaftSamples.twoPeers 7 RaftSamples.removeP2 = inr next ∧
          serverID RaftSamples.removeP2 ∉ ID <$> Servers next.
Proof.
  eexists. split; [vm_compute; reflexivity|].
  apply (nextConfiguration_RemoveServer RaftSamples.twoPeers _ 7 RaftSamples.removeP2).
  - reflexivity.
  - simpl. apply NoDup_cons. split; [|apply NoDup_singleton].
    intros Hin. apply list_elem_of_singleton in Hin. discriminate.
  - vm_compute. reflexivity.
Defined.

(** X20.  After an accepted AddStaging the server of the request is in the
    configuration as a Peer at the requested address, whatever it was
    before, and it is the only server with its ID: the command gives the
    vote at once, there is no Staging phase. *)
Theorem nextConfiguration_AddStaging (current next : Configuration) (currentIndex : N)
    (change : configurationChangeRequest) :
  command change = AddStaging →
  nextConfiguration current currentIndex change = inr next →
  ∃ server, server ∈ Servers next ∧
            ID server = serverID change ∧ Suffrage server = Peer ∧
            Address server = serverAddress change ∧
            ∀ other, other ∈ Servers next → ID other = serverID change → other = server.
Proof.
  intros Hcommand [Hservers Hwf]%nextConfiguration_inr.
  unfold changeServers in Hservers. rewrite Hcommand in Hservers.
  assert (∃ server, server ∈ Servers next ∧ ID server = serverID change ∧
                    Suffrage server = Peer ∧ Address server = serverAddress change)
    as (server & Hin & HID & HP & HA).
  { rewrite Hservers.
    destruct (updateFirst _ _ _) as [servers'|] eqn:Hupdate.
    - apply updateFirst_Some in Hupdate as (before & old & after & _ & _ & Hold & ->).
      apply bool_decide_eq_true in Hold.
      eexists. split; [apply elem_of_app; right; left|]. by case_decide.
    - eexists. split; [apply elem_of_app; right; left|]. done. }
  exists server. repeat split; try done.
  intros other Hother Hsame. destruct Hwf as (_ & Hids & _).
  apply list_elem_of_lookup in Hin as [i Hi]. apply list_elem_of_lookup in Hother as [j Hj].
  assert (i = j) as ->; [|congruence].
  eapply NoDup_lookup; [exact Hids| |]; rewrite list_lookup_fmap.
  - by rewrite Hi.
  - rewrite Hj. simpl. congruence.
Qed.

Lemma nextConfiguration_AddStaging_witness :
  ∃ next server,
    nextConfiguration
      (mkConfiguration 1 (RaftSamples.peer "P1")
                       [RaftSamples.peer "P1"; mkServer Learner "L" "L:1" None] None)
      7 (mkChange AddStaging "L" "L:2" 0) = inr next ∧
    server ∈ Servers next ∧ ID server = "L"%string ∧ Suffrage server = Peer.
Proof.
  eexists.
  destruct (nextConfiguration_AddStaging
              (mkConfiguration 1 (RaftSamples.peer "P1")
                               [RaftSamples.peer "P1"; mkServer Learner "L" "L:1" None] None)
              (mkConfiguration 1 (RaftSamples.peer "P1")
                               [RaftSamples.peer "P1"; mkServer Peer "L" "L:2" None] None)
              7 (mkChange AddStaging "L" "L:2" 0) eq_refl)
    as (server & Hin & HID & HP & _).
  - vm_compute. reflexivity.
  - exists server. split; [vm_compute; reflexivity|]. split; [exact Hin|]. split; [exact HID|exact HP].
Defined.

(** X21.  An accepted AddLearner never changes the suffrage of a server that
    is already there: the first server with the ID keeps its suffrage and
    takes the requested address (a Peer stays a Peer); only when no server
    has the ID is a Learner added. *)
Theorem nextConfiguration_AddLearner (current next : Configuration) (currentIndex : N)
    (change : configurationChangeRequest) :
  command change = AddLearner →
  nextConfiguration current currentIndex change = inr next →
  (∀ before old after,
     Servers current = before ++ old :: after →
     serverID change ∉ ID <$> before → ID old = serverID change →
     ∃ server, Servers next = before ++ server :: after ∧
               ID server = serverID change ∧ Suffrage server = Suffrage old ∧
               Address server = serverAddress change) ∧
  (serverID change ∉ ID <$> Servers current →
   Servers next
   = Servers current ++ [mkServer Learner (serverID change) (serverAddress change) None]).
Proof.
  intros Hcommand [Hservers _]%nextConfiguration_inr.
  unfold changeServers in Hservers. rewrite Hcommand in Hservers. split.
  - intros before old after Hcurrent Hbefore Hold.
    destruct (updateFirst _ _ _) as [servers'|] eqn:Hupdate.
    + apply updateFirst_Some in Hupdate
        as (before' & old' & after' & Hsplit & Hnone & Hold' & ->).
      apply bool_decide_eq_true in Hold'.
      assert (before' = before ∧ old' = old ∧ after' = after) as (-> & -> & ->).
      { rewrite Hcurrent in Hsplit. clear -Hsplit Hnone Hbefore Hold Hold'.
        revert before' Hsplit Hnone. induction before as [|b before IH]; intros before' Hsplit Hnone.
        - destruct before' as [|b' before']; [by injection Hsplit as -> ->|].
          injection Hsplit as -> _. apply Forall_cons in Hnone as [Hb _].
          apply bool_decide_eq_false in Hb. done.
        - apply not_elem_of_cons in Hbefore as [Hb Hbefore].
          destruct before' as [|b' before'].
          + injection Hsplit as <- _. done.
          + injection Hsplit as -> Hsplit. apply Forall_cons in Hnone as [_ Hnone].
            destruct (IH Hbefore before' Hsplit Hnone) as (-> & -> & ->). done. }
      eexists. split; [exact Hservers|]. by case_decide.
    + exfalso. rewrite Hcurrent in Hupdate. clear -Hupdate Hold.
      induction before as [|b before IH]; simpl in Hupdate.
      * unfold hasID in Hupdate at 1. by rewrite bool_decide_eq_true_2 in Hupdate.
      * destruct (hasID _ b); [done|]. destruct (updateFirst _ _ (before ++ _)); [done|].
        by apply IH.
  - intros Hunknown. rewrite Hservers, updateFirst_None; [done|].
    apply Forall_forall. intros other Hin. apply bool_decide_eq_false. intros Heq.
    apply Hunknown. rewrite <-Heq. apply list_elem_of_fmap. by exists other.
Qed.

Lemma nextConfiguration_AddLearner_witness :
  ∃ next, nextConfiguration RaftSamples.twoPeers 7 (mkChange AddLearner "P2" "P2:1" 0)
          = inr next ∧
          Servers next = [RaftSamples.peer "P1"; mkServer Peer "P2" "P2:1" None].
Proof.
  eexists. split; [vm_compute; reflexivity|].
  destruct (proj1 (nextConfiguration_AddLearner RaftSamples.twoPeers _ 7
                     (mkChange AddLearner "P2" "P2:1" 0) eq_refl
                     ltac:(vm_compute; reflexivity))
                  [RaftSamples.peer "P1"] (RaftSamples.peer "P2") [] eq_refl)
    as (server & Hnext & _).
  - simpl. intros Hin. apply list_elem_of_singleton in Hin. discriminate.
  - reflexivity.
  - reflexivity.
Defined.

Lemma checkServers_no_voter servers idSet addressSet :
  Forall (λ server, ID server ≠ EmptyString ∧ Address server ≠ EmptyString) servers →
  NoDup (ID <$> servers) →
  (∀ server, server ∈ servers → idSet !! ID server ≠ Some true) →
  NoDup (Address <$> servers) →
  (∀ server, server ∈ servers → addressSet !! Address server ≠ Some true) →
  Forall (λ server, Suffrage server ≠ Peer) servers →
  checkServers servers idSet addressSet 0 = Some ErrNoVoter.
Proof.
  revert idSet addressSet.
  induction servers as [|server rest IH]; intros idSet addressSet
    Hne Hids Hidset Hadrs Hadrset Hvote; simpl; [done|].
  apply Forall_cons in Hne as [[HID HAddr] Hne].
  apply NoDup_cons in Hids as [Hid Hids]. apply NoDup_cons in Hadrs as [Hadr Hadrs].
  apply Forall_cons in Hvote as [Hserver Hvote].
  rewrite !decide_False by done.
  assert (default false (idSet !! ID server) = false) as ->.
  { specialize (Hidset server ltac:(left)). by destruct (idSet !! ID server) as [[|]|]. }
  assert (default false (addressSet !! Address server) = false) as ->.
  { specialize (Hadrset server ltac:(left)).
    by destruct (addressSet !! Address server) as [[|]|]. }
  apply IH; try done.
  - intros other Hin. rewrite lookup_insert_ne; [apply Hidset; by right|].
    intros Heq. apply Hid. rewrite Heq. apply list_elem_of_fmap. by exists other.
  - intros other Hin. rewrite lookup_insert_ne; [apply Hadrset; by right|].
    intros Heq. apply Hadr. rewrite Heq. apply list_elem_of_fmap. by exists other.
Qed.

Lemma first_with_ID id servers :
  id ∈ ID <$> servers →
  ∃ before server after,
    servers = before ++ server :: after ∧ (id ∉ ID <$> before) ∧ ID server = id.
Proof.
  induction servers as [|server rest IH]; simpl; intros Hin;
    [by apply elem_of_nil in Hin|].
  destruct (decide (ID server = id)) as [Heq|Hne].
  - exists [], server, rest. split; [done|]. split; [apply not_elem_of_nil|done].
  - apply elem_of_cons in Hin as [?|Hin]; [done|].
    destruct (IH Hin) as (before & old & after & -> & Hbefore & Hold).
    exists (server :: before), old, after. split; [done|]. split; [|done].
    simpl. apply not_elem_of_cons. by split.
Qed.

Lemma updateFirst_first id f before server after :
  id ∉ ID <$> before → ID server = id →
  updateFirst (hasID id) f (before ++ server :: after) = Some (before ++ f server :: after).
Proof.
  intros Hbefore Hserver. induction before as [|b before IH]; simpl.
  - unfold hasID. by rewrite bool_decide_eq_true_2.
  - simpl in Hbefore. apply not_elem_of_cons in Hbefore as [Hb Hbefore].
    unfold hasID at 1. rewrite bool_decide_eq_false_2 by done. by rewrite IH.
Qed.

Lemma removeFirst_first id before server after :
  id ∉ ID <$> before → ID server = id →
  removeFirst id (before ++ server :: after) = before ++ after.
Proof.
  intros Hbefore Hserver. induction before as [|b before IH]; simpl.
  - by rewrite decide_True.
  - simpl in Hbefore. apply not_elem_of_cons in Hbefore as [Hb Hbefore].
    rewrite decide_False by done. by rewrite IH.
Qed.

(** X22.  The last voter cannot be taken away: on a well-formed
    configuration whose only Peer is the server of the request, a Demote or
    a RemoveServer is refused with the error of a configuration without
    voter, and no configuration is returned. *)
Theorem nextConfiguration_keeps_a_voter (current : Configuration) (currentIndex : N)
    (change : configurationChangeRequest) :
  wellFormed current →
  prevIndex change = 0%N ∨ prevIndex change = currentIndex →
  command change = Demote ∨ command change = RemoveServer →
  (∀ server, server ∈ Servers current → Suffrage server = Peer →
             ID server = serverID change) →
  nextConfiguration current currentIndex change = inl ErrNoVoter.
Proof.
  intros (Hne & Hids & Hadrs & Hvoter) Hindex Hcommand Honly.
  rewrite nextConfiguration_changed by done.
  apply Exists_exists in Hvoter as (voter & Hin & Hpeer).
  destruct (first_with_ID (serverID change) (Servers current))
    as (before & old & after & Hsplit & Hbefore & Hold).
  { rewrite <-(Honly voter Hin Hpeer). apply list_elem_of_fmap. by exists voter. }
  rewrite Hsplit in Hne, Hids, Hadrs, Honly.
  apply Forall_app in Hne as [Hne1 [Hne2 Hne3]%Forall_cons].
  rewrite fmap_app, fmap_cons in Hids, Hadrs.
  assert (Forall (λ server, Suffrage server ≠ Peer) before) as Hbefore'.
  { apply Forall_forall. intros other Hother Hp. apply Hbefore.
    rewrite <-(Honly other); [|apply elem_of_app; by left|done].
    apply list_elem_of_fmap. by exists other. }
  assert (Forall (λ server, Suffrage server ≠ Peer) after) as Hafter'.
  { apply Forall_forall. intros other Hother Hp.
    apply NoDup_app in Hids as (_ & _ & [Hfresh _]%NoDup_cons). apply Hfresh.
    rewrite Hold, <-(Honly other); [|apply elem_of_app; right; by right|done].
    apply list_elem_of_fmap. by exists other. }
  assert (checkServers (changeServers change (Servers current)) ∅ ∅ 0 = Some ErrNoVoter)
    as Hcheck; [|unfold checkConfiguration; simpl; by rewrite Hcheck].
  unfold changeServers. rewrite Hsplit. destruct Hcommand as [-> | ->].
  - rewrite updateFirst_first by done. simpl.
    apply checkServers_no_voter.
    + apply Forall_app. split; [done|]. by apply Forall_cons.
    + by rewrite fmap_app, fmap_cons.
    + intros ? _. by rewrite lookup_empty.
    + by rewrite fmap_app, fmap_cons.
    + intros ? _. by rewrite lookup_empty.
    + apply Forall_app. split; [done|]. by apply Forall_cons.
  - rewrite removeFirst_first by done.
    apply checkServers_no_voter.
    + by apply Forall_app.
    + rewrite fmap_app. apply NoDup_app in Hids as (H1 & H2 & [_ H3]%NoDup_cons).
      apply NoDup_app. split; [done|]. split; [|done].
      intros x Hx Hx'. apply (H2 x Hx). by right.
    + intros ? _. by rewrite lookup_empty.
    + rewrite fmap_app. apply NoDup_app in Hadrs as (H1 & H2 & [_ H3]%NoDup_cons).
      apply NoDup_app. split; [done|]. split; [|done].
      intros x Hx Hx'. apply (H2 x Hx). by right.
    + intros ? _. by rewrite lookup_empty.
    + by apply Forall_app.
Qed.

Lemma nextConfiguration_keeps_a_voter_witness :
  nextConfiguration
    (mkConfiguration 1 (RaftSamples.peer "P1")
                     [RaftSamples.peer "P1"; mkServer Learner "L" "L:1" None] None)
    7 (mkChange Demote "P1" EmptyString 0) = inl ErrNoVoter.
Proof.
  apply nextConfiguration_keeps_a_voter.
  - apply checkConfiguration_wellFormed. vm_compute. reflexivity.
  - left. reflexivity.
  - left. reflexivity.
  - intros server Hin Hpeer. simpl in Hin.
    apply elem_of_cons in Hin as [->|Hin]; [reflexivity|].
    apply list_elem_of_singleton in Hin. subst server. discriminate.
Defined.

Lemma removeFirst_Forall (P : Server → Prop) id servers :
  Forall P servers → Forall P (removeFirst id servers).
Proof.
  induction 1 as [|server rest HP Hrest IH]; simpl; [done|].
  case_decide; [done|]. by apply Forall_cons.
Qed.

Lemma updateFirst_Forall (P : Server → Prop) p f servers :
  Forall P servers → (∀ server, P server → p server = true → P (f server)) →
  Forall P (default servers (updateFirst p f servers)).
Proof.
  intros Hall Hf. destruct (updateFirst p f servers) as [servers'|] eqn:Hupdate; [|done].
  apply updateFirst_Some in Hupdate as (before & old & after & -> & _ & Hold & ->). simpl.
  apply Forall_app in Hall as [H1 [H2 H3]%Forall_cons].
  apply Forall_app. split; [done|]. apply Forall_cons. split; [by apply Hf|done].
Qed.

(** X23.  No command makes a Staging server: when the configuration has
    none, the configuration that an accepted change returns has none, and
    a Promote, which looks for a Staging server only, returns the
    configuration as it was. *)
Theorem nextConfiguration_never_stages (current next : Configuration) (currentIndex : N)
    (change : configurationChangeRequest) :
  Forall (λ server, Suffrage server ≠ Staging) (Servers current) →
  nextConfiguration current currentIndex change = inr next →
  Forall (λ server, Suffrage server ≠ Staging) (Servers next) ∧
  (command change = Promote → next = current).
Proof.
  intros Hnone Hnext.
  assert (prevIndex change = 0%N ∨ prevIndex change = currentIndex) as Hindex.
  { unfold nextConfiguration in Hnext. case_decide as Hd; [done|].
    destruct (decide (prevIndex change = 0%N)); [by left|right].
    destruct (decide (prevIndex change = currentIndex)); [done|]. exfalso. apply Hd. lia. }
  rewrite nextConfiguration_changed in Hnext by done.
  destruct (checkConfiguration _); [done|]. injection Hnext as <-. simpl.
  unfold changeServers. split.
  - destruct (command change).
    + destruct (updateFirst _ _ _) as [servers'|] eqn:Hupdate.
      * apply updateFirst_Some in Hupdate as (before & old & after & Hsplit & _ & _ & ->).
        rewrite Hsplit in Hnone. apply Forall_app in Hnone as [H1 [H2 H3]%Forall_cons].
        apply Forall_app. split; [done|]. apply Forall_cons. split; [|done].
        by case_decide.
      * apply Forall_app. split; [done|]. by apply Forall_singleton.
    + destruct (updateFirst _ _ _) as [servers'|] eqn:Hupdate.
      * apply updateFirst_Some in Hupdate as (before & old & after & Hsplit & _ & _ & ->).
        rewrite Hsplit in Hnone. apply Forall_app in Hnone as [H1 [H2 H3]%Forall_cons].
        apply Forall_app. split; [done|]. apply Forall_cons. split; [|done].
        by case_decide.
      * apply Forall_app. split; [done|]. by apply Forall_singleton.
    + by apply updateFirst_Forall.
    + by apply removeFirst_Forall.
    + by apply updateFirst_Forall.
  - intros ->. rewrite updateFirst_None; [apply withServers_same|].
    eapply Forall_impl; [exact Hnone|]. intros server Hserver. simpl.
    apply andb_false_iff. right. by apply bool_decide_eq_false.
Qed.

Lemma nextConfiguration_never_stages_witness :
  nextConfiguration RaftSamples.twoPeers 7 (mkChange Promote "P2" EmptyString 0)
  = inr RaftSamples.twoPeers ∧
  Forall (λ server, Suffrage server ≠ Staging) (Servers RaftSamples.twoPeers).
Proof.
  split; [vm_compute; reflexivity|].
  apply (nextConfiguration_never_stages RaftSamples.twoPeers RaftSamples.twoPeers 7
           (mkChange Promote "P2" EmptyString 0)).
  - simpl. apply Forall_cons. split; [discriminate|].
    apply Forall_cons. split; [discriminate|apply Forall_nil_2].
  - vm_compute. reflexivity.
Defined.

Lemma isPeer_first c id before server after :
  Servers c = before ++ server :: after → id ∉ ID <$> before → ID server = id →
  isPeer c id = bool_decide (Suffrage server = Peer).
Proof.
  intros Hsplit Hbefore Hserver. unfold isPeer. rewrite Hsplit. clear Hsplit.
  assert (list_find (λ other, ID other = id) (before ++ server :: after)
          = Some (length before, server)) as ->; [|done].
  apply list_find_Some. split; [|split; [done|]].
  - by rewrite lookup_app_r, Nat.sub_diag by done.
  - intros j other Hj Hlt Hother. apply Hbefore.
    rewrite lookup_app_l in Hj by done.
    rewrite <-Hother. apply list_elem_of_fmap. exists other. split; [done|].
    by eapply list_elem_of_lookup_2.
Qed.

Lemma isPeer_absent c id : id ∉ ID <$> Servers c → isPeer c id = false.
Proof.
  intros Habsent. unfold isPeer.
  assert (list_find (λ other, ID other = id) (Servers c) = None) as ->; [|done].
  apply list_find_None, Forall_forall. intros other Hin Heq. apply Habsent.
  rewrite <-Heq. apply list_elem_of_fmap. by exists other.
Qed.

(** X24.  In a configuration whose IDs are distinct [isPeer] answers true
    exactly when a server of the configuration has the ID and is a Peer. *)
Theorem isPeer_iff (c : Configuration) (id : string) :
  NoDup (ID <$> Servers c) →
  isPeer c id = true ↔ ∃ server, server ∈ Servers c ∧ ID server = id ∧ Suffrage server = Peer.
Proof.
  intros Hids. destruct (decide (id ∈ ID <$> Servers c)) as [Hin|Hout].
  - destruct (first_with_ID id (Servers c) Hin)
      as (before & first & after & Hsplit & Hbefore & Hfirst).
    rewrite (isPeer_first c id before first after) by done.
    rewrite bool_decide_eq_true. split.
    + intros Hpeer. exists first. split; [|done]. rewrite Hsplit.
      apply elem_of_app. right. by left.
    + intros (server & Hserver & HID & Hpeer).
      assert (server = first) as ->; [|done].
      apply list_elem_of_lookup in Hserver as [i Hi].
      assert (Servers c !! length before = Some first) as Hj.
      { by rewrite Hsplit, lookup_app_r, Nat.sub_diag by done. }
      assert (i = length before) as ->; [|congruence].
      eapply NoDup_lookup; [exact Hids| |]; rewrite list_lookup_fmap.
      * by rewrite Hi.
      * rewrite Hj. simpl. congruence.
  - rewrite isPeer_absent by done. split; [done|].
    intros (server & Hserver & HID & _). exfalso. apply Hout.
    rewrite <-HID. apply list_elem_of_fmap. by exists server.
Qed.

Lemma isPeer_iff_witness :
  isPeer RaftSamples.twoPeers "P2" = true ↔
  ∃ server, server ∈ Servers RaftSamples.twoPeers ∧ ID server = "P2"%string ∧
            Suffrage server = Peer.
Proof.
  apply isPeer_iff. simpl. apply NoDup_cons. split; [|apply NoDup_singleton].
  intros Hin. apply list_elem_of_singleton in Hin. discriminate.
Defined.

(** X25.  What [isPeer] answers for the server of an accepted change: true
    after AddStaging, false after Demote and after AddLearner of a server
    that was not a Peer. *)
Theorem isPeer_after_change (current next : Configuration) (currentIndex : N)
    (change : configurationChangeRequest) :
  nextConfiguration current currentIndex change = inr next →
  (command change = AddStaging → isPeer next (serverID change) = true) ∧
  (command change = Demote → isPeer next (serverID change) = false) ∧
  (command change = AddLearner → isPeer current (serverID change) = false →
   isPeer next (serverID change) = false).
Proof.
  intros [Hservers _]%nextConfiguration_inr.
  unfold changeServers in Hservers.
  destruct (decide (serverID change ∈ ID <$> Servers current)) as [Hin|Hout].
  - destruct (first_with_ID _ _ Hin) as (before & old & after & Hsplit & Hbefore & Hold).
    rewrite Hsplit in Hservers.
    rewrite (isPeer_first current _ before old after) by done.
    split; [|split]; intros Hcommand; rewrite Hcommand in Hservers;
      rewrite updateFirst_first in Hservers by done.
    + rewrite (isPeer_first next _ _ _ _ Hservers Hbefore) by (by case_decide).
      apply bool_decide_eq_true. by case_decide.
    + by rewrite (isPeer_first next _ _ _ _ Hservers Hbefore).
    + intros Hold'%bool_decide_eq_false.
      rewrite (isPeer_first next _ _ _ _ Hservers Hbefore) by (by case_decide).
      apply bool_decide_eq_false. by case_decide.
  - assert (updateFirst (hasID (serverID change))
              (λ server, withSuffrage server Learner) (Servers current) = None) as Hdemote.
    { apply updateFirst_None, Forall_forall. intros other Hother.
      apply bool_decide_eq_false. intros Heq. apply Hout.
      rewrite <-Heq. apply list_elem_of_fmap. by exists other. }
    split; [|split]; intros Hcommand; rewrite Hcommand in Hservers.
    + rewrite updateFirst_None in Hservers.
      * by rewrite (isPeer_first next _ _ _ _ Hservers Hout).
      * apply Forall_forall. intros other Hother.
        apply bool_decide_eq_false. intros Heq. apply Hout.
        rewrite <-Heq. apply list_elem_of_fmap. by exists other.
    + rewrite Hdemote in Hservers. simpl in Hservers.
      apply isPeer_absent. by rewrite Hservers.
    + intros _. rewrite updateFirst_None in Hservers.
      * by rewrite (isPeer_first next _ _ _ _ Hservers Hout).
      * apply Forall_forall. intros other Hother.
        apply bool_decide_eq_false. intros Heq. apply Hout.
        rewrite <-Heq. apply list_elem_of_fmap. by exists other.
Qed.

Lemma isPeer_after_change_witness :
  isPeer (mkConfiguration 1 (RaftSamples.peer "P1")
            [RaftSamples.peer "P1"; mkServer Learner "P2" "P2:1" None] None) "P2" = false.
Proof.
  apply (proj1 (proj2 (isPeer_after_change RaftSamples.twoPeers _ 7
                         (mkChange Demote "P2" EmptyString 0)
                         ltac:(vm_compute; reflexivity)))).
  reflexivity.
Defined.

(** X26.  The legacy list of peers keeps the voters only and names each by
    what the transport decodes: with a codec that decodes what it encoded,
    [decodePeers] of [encodePeers] answers, for each Peer of the
    configuration in order, a Peer whose ID and address are both the
    decoded peer; Learner and Staging servers, the IDs when the transport
    carries addresses, the keys, the term, the leader and the signature are
    lost. *)
Theorem decodePeers_encodePeers (codec : MsgPack) (trans : Transport)
    (configuration : Configuration) (buf : list Byte.byte) :
  (∀ encPeers, encodeMsgPack codec encPeers = Some buf →
               decodeMsgPack codec buf = Some encPeers) →
  encodePeers codec configuration trans = Some buf →
  decodePeers codec buf trans
  = Some (mkConfiguration 0 (mkServer Peer EmptyString EmptyString None)
            ((λ server,
                let p := DecodePeer trans (EncodePeer trans (ID server) (Address server)) in
                mkServer Peer p p None)
               <$> filter (λ server, Suffrage server = Peer) (Servers configuration))
            None).
Proof.
  intros Hcodec Hencode. unfold encodePeers in Hencode. unfold decodePeers.
  rewrite (Hcodec _ Hencode). by rewrite <-list_fmap_compose.
Qed.

Lemma decodePeers_encodePeers_witness :
  decodePeers
    (mkMsgPack (λ encPeers, match encPeers with [enc] => Some enc | _ => None end)
               (λ buf, Some [buf]))
    (String.list_byte_of_string "P1:1")
    (mkTransport (λ _ address, String.list_byte_of_string address)
                 String.string_of_list_byte)
  = Some (mkConfiguration 0 (mkServer Peer EmptyString EmptyString None)
            [mkServer Peer "P1:1" "P1:1" None] None).
Proof.
  apply (decodePeers_encodePeers
           (mkMsgPack (λ encPeers, match encPeers with [enc] => Some enc | _ => None end)
                      (λ buf, Some [buf]))
           (mkTransport (λ _ address, String.list_byte_of_string address)
                        String.string_of_list_byte)
           (mkConfiguration 1 (mkServer Peer "P1" "P1:1" None)
              [mkServer Peer "P1" "P1:1" None; mkServer Learner "L" "L:1" None] None)).
  - intros [|enc [|? ?]]; simpl; congruence.
  - reflexivity.
Defined.

End RaftSpec.
